(** * ExtrudeGeometryFilter: a shallow embedding and its properties

    The development follows [src/osgEarthFeatures/ExtrudeGeometryFilter.cpp].

    Numbers.  The code computes with C++ [double] and [float] values and
    calls the vector classes of osg, [atan2] and [osg::round].  The types and
    the operations on them are the fields of the class [Arith]: an addition
    is the rounded addition of the platform, a conversion from [double] to
    [float] narrows, a division by zero gives what the platform gives.  Every
    definition follows the source operation by operation, including the
    conversions, and the general theorems hold for every instance of
    [Arith]; what they need of the arithmetic is a hypothesis.  The instance
    [real_arith] computes in the real numbers without rounding; it is used for
    examples and for statements about values on which both agree.

    Integers.  The [unsigned] vertex cursors are integers modulo [2^32]
    ([wrap32]), [int] values are their two's complement reading ([to_int]).

    Arrays.  An [osg::Vec3Array] or [osg::Vec2Array] is a list of [float]
    vectors that is allocated with default (zero) entries and then updated by
    index; the local array pointers of [extrudeGeometry] alias the arrays
    installed in the [osg::Geometry] objects, so the final arrays are what
    the returned geometries hold. *)

From stdpp Require Import base option list strings gmap.
From Stdlib Require Import ZArith Reals Lra Lia.

Local Open Scope Z_scope.

(** ** Machine integers *)

(** [unsigned] arithmetic wraps modulo [2^32]. *)
Definition wrap32 (z : Z) : Z := z mod 2 ^ 32.

(** Conversion of an [unsigned] value to [int] (two's complement). *)
Definition to_int (z : Z) : Z :=
  if wrap32 z <? 2 ^ 31 then wrap32 z else wrap32 z - 2 ^ 32.

(** Conversion of an [int] or [unsigned] used as an array index; the
    indices are not negative as long as the cursors stay in the range of
    [int]. *)
Definition index_of (z : Z) : nat := Z.to_nat z.

(** ** Vectors *)

(** The vectors of osg, by the type of their components. *)
Record Vec3 (T : Type) : Type := mkVec3 { vx : T; vy : T; vz : T }.
Arguments mkVec3 {T} (vx vy vz)%_R.
Arguments vx {T} v.
Arguments vy {T} v.
Arguments vz {T} v.

Record Vec2 (T : Type) : Type := mkVec2 { tu : T; tv : T }.
Arguments mkVec2 {T} (tu tv)%_R.
Arguments tu {T} v.
Arguments tv {T} v.

Record Vec4 (T : Type) : Type := mkVec4 { cr : T; cg : T; cb : T; ca : T }.
Arguments mkVec4 {T} (cr cg cb ca)%_R.

(** ** The arithmetic of the platform *)

Class Arith : Type := {
  (** the values of [double] and of [float] *)
  double : Type;
  float : Type;
  (** the constants [0.0], [1.0] and [DBL_MAX] of [<cfloat>], and the
      [double] of a literal with an integer value, as in [5.0] *)
  d_zero : double;
  d_one : double;
  DBL_MAX : double;
  d_lit : Z -> double;
  (** [a + b], [a - b], [a / b] and [- a] on [double] *)
  dadd : double -> double -> double;
  dsub : double -> double -> double;
  ddiv : double -> double -> double;
  dneg : double -> double;
  (** [a < b] and [a == b] on [double]; [a > b] is [b < a] *)
  dlt : double -> double -> bool;
  deq : double -> double -> bool;
  (** the conversions between [double] and [float] *)
  d2f : double -> float;
  f2d : float -> double;
  (** the constants [0.0f] and [1.0f], and [- a] on [float] *)
  f_zero : float;
  f_one : float;
  fneg : float -> float;
  (** [atan2] and [cos] of [<cmath>], and [osg::round] of [osg/Math] *)
  atan2 : double -> double -> double;
  cos : double -> double;
  osg_round : double -> double;
  (** [a - b] and [v.length2()] of [osg::Vec3d] *)
  v3d_sub : Vec3 double -> Vec3 double -> Vec3 double;
  v3d_length2 : Vec3 double -> double;
  (** [a - b] and [v.length()] of [osg::Vec3f] *)
  v3f_sub : Vec3 float -> Vec3 float -> Vec3 float;
  v3f_length : Vec3 float -> float }.

Bind Scope R_scope with double.
Bind Scope R_scope with float.

(** [osg::Vec3d], and the [float] vectors [osg::Vec3f], [osg::Vec2f] and
    [osg::Vec4f]. *)
Abbreviation Vec3d := (Vec3 double).
Abbreviation Vec3f := (Vec3 float).
Abbreviation Vec2f := (Vec2 float).
Abbreviation Vec4f := (Vec4 float).

Section Model.

Context {A : Arith}.


(** The default constructors set every component to zero. *)
Definition vec3d_zero : Vec3d := mkVec3 d_zero d_zero d_zero.
Definition vec3_zero : Vec3f := mkVec3 f_zero f_zero f_zero.
Definition vec2_zero : Vec2f := mkVec2 f_zero f_zero.
Definition vec4_zero : Vec4f := mkVec4 f_zero f_zero f_zero f_zero.

#[global] Instance Vec3f_inhabited : Inhabited Vec3f := populate vec3_zero.
#[global] Instance Vec2f_inhabited : Inhabited Vec2f := populate vec2_zero.

(** The conversion of an [osg::Vec3d] to the [osg::Vec3f] an array holds:
    every component is narrowed. *)
Definition to_Vec3f (v : Vec3d) : Vec3f :=
  mkVec3 (d2f (vx v)) (d2f (vy v)) (d2f (vz v)).

(** [a > b] *)
Definition dgt (a b : double) : bool := dlt b a.

(** ** Rotation analysis *)

(** [Segment] is [std::pair<osg::Vec3d, osg::Vec3d>]. *)
Definition Segment : Type := Vec3d * Vec3d.

(** Modelled from the spec: [ConstSegmentIterator(geom, true)] is declared in
    osgEarthSymbology/Geometry and is not part of src/.  It yields "every edge
    (segment between consecutive points, including the closing edge)" in scan
    order; a shape of zero or one point has no edge. *)
Definition segments (pts : list Vec3d) : list Segment :=
  match pts with
  | [] => []
  | [_] => []
  | p0 :: rest => zip pts (rest ++ [p0])
  end.

(** [(s.second - s.first).length2()] *)
Definition seg_len2 (s : Segment) : double :=
  v3d_length2 (v3d_sub (snd s) (fst s)).

(** One iteration of the [while (i.hasMore())] loop over the pair
    [(n, maxLen2)]. *)
Definition scan_step (acc : Segment * double) (s : Segment)
    : Segment * double :=
  let len2 := seg_len2 s in
  if dgt len2 (snd acc) then (s, len2) else acc.

(** The longest-edge scan, started from the default segment and
    [maxLen2 = 0.0]. *)
Definition longest_segment (pts : list Vec3d) : Segment * double :=
  fold_left scan_step (segments pts) ((vec3d_zero, vec3d_zero), d_zero).

(** The last three lines of [getApparentRotation], for a retained edge [n],
    before the result is converted to [float]. *)
Definition edge_angle (n : Segment) : double :=
  let p1 := if dlt (vx (fst n)) (vx (snd n)) then fst n else snd n in
  let p2 := if dlt (vx (fst n)) (vx (snd n)) then snd n else fst n in
  atan2 (dsub (vy p2) (vy p1)) (dsub (vx p2) (vx p1)).

(** [getApparentRotation]; the [double] that [atan2] returns is converted to
    the [float] result. *)
Definition getApparentRotation (geom : list Vec3d) : float :=
  d2f (edge_angle (fst (longest_segment geom))).

(** The orientation rule in the words of the specification: the first endpoint
    has the smaller x-coordinate and the given order is kept when the
    x-coordinates are equal. *)
Definition spec_edge_angle (s : Segment) : float :=
  d2f
    (if dlt (vx (snd s)) (vx (fst s))
     then atan2 (dsub (vy (fst s)) (vy (snd s))) (dsub (vx (fst s)) (vx (snd s)))
     else atan2 (dsub (vy (snd s)) (vy (fst s))) (dsub (vx (snd s)) (vx (fst s)))).

(** What the code does on a retained edge: the endpoints are exchanged unless
    the first x-coordinate is strictly smaller. *)
Definition code_edge_angle (s : Segment) : double :=
  if dlt (vx (fst s)) (vx (snd s))
  then atan2 (dsub (vy (snd s)) (vy (fst s))) (dsub (vx (snd s)) (vx (fst s)))
  else atan2 (dsub (vy (fst s)) (vy (snd s))) (dsub (vx (fst s)) (vx (snd s))).

(** [s] is the first edge of [segs], at index [k], whose squared length - as
    [seg_len2] computes it - no edge exceeds. *)
Definition first_longest (segs : list Segment) (k : nat) (s : Segment) : Prop :=
  segs !! k = Some s /\
  (forall (j : nat) s', segs !! j = Some s' ->
     dgt (seg_len2 s') (seg_len2 s) = false) /\
  (forall (j : nat) s', (j < k)%nat -> segs !! j = Some s' ->
     dlt (seg_len2 s') (seg_len2 s) = true).

(** The comparison [<] orders the values of [P] the way it orders numbers:
    it holds of no value and itself, is transitive, and a value of [P] that
    is not above the smaller of two is below the larger.  For the [double]
    values of a machine this says that none of the values of [P] is a NaN. *)
Definition ordered_by_lt (P : double -> Prop) : Prop :=
  (forall a, P a -> dlt a a = false) /\
  (forall a b c, P a -> P b -> P c ->
     dlt a b = true -> dlt b c = true -> dlt a c = true) /\
  (forall a b c, P a -> P b -> P c ->
     dlt a b = true -> dlt a c = false -> dlt c b = true).

(** The squared lengths the scan of [pts] compares: [0.0] and the one of
    every edge. *)
Definition scanned_lengths (pts : list Vec3d) (v : double) : Prop :=
  v = d_zero \/ exists s, s ∈ segments pts /\ v = seg_len2 s.

(** The loop invariant of the scan, after the edges [pre]: no edge seen
    exceeds [maxLen2], and either nothing was retained or the retained edge
    is the first one of that length, which is positive. *)
Definition scan_inv (pre : list Segment) (acc : Segment * double) : Prop :=
  (forall (j : nat) s', pre !! j = Some s' ->
     dgt (seg_len2 s') (snd acc) = false) /\
  ((fst acc = (vec3d_zero, vec3d_zero) /\ snd acc = d_zero) \/
   (exists k : nat, pre !! k = Some (fst acc) /\ snd acc = seg_len2 (fst acc) /\
      dlt d_zero (snd acc) = true /\
      forall (j : nat) s', (j < k)%nat -> pre !! j = Some s' ->
                   dlt (seg_len2 s') (snd acc) = true)).

(** ** Shapes, skins and scene-graph geometry *)

(** [Geometry::Type], as returned by [getComponentType]. *)
Inductive GeomType : Type :=
| TYPE_POINTSET | TYPE_LINESTRING | TYPE_RING | TYPE_POLYGON.

(** Modelled from the spec: the [Geometry] class and its
    [ConstGeometryIterator] are declared in osgEarthSymbology/Geometry and are
    not part of src/.  "A shape may contain multiple disjoint parts
    (rings/contours)", each "an ordered sequence of 3D points"; the iterator
    visits the parts in order and [getTotalPointCount] adds their sizes. *)
Record Geometry : Type := mkGeometry {
  componentType : GeomType;
  parts : list (list Vec3d) }.

(** The points of the shape itself, which [ConstSegmentIterator] walks: the
    outer ring of a polygon. *)
Definition asVector (g : Geometry) : list Vec3d := hd [] (parts g).

Definition getTotalPointCount (g : Geometry) : Z :=
  Z.of_nat (length (concat (parts g))).

(** [osg::TexEnv::Mode] *)
Inductive TexEnvMode : Type := DECAL | MODULATE | BLEND | REPLACE | ADD.

(** The fields of [SkinResource] that [extrudeGeometry] reads; the image
    sizes are the [double] values the code assigns from them. *)
Record SkinResource : Type := mkSkin {
  imageWidth : double;
  imageHeight : double;
  isTiled : bool;
  texEnvMode : TexEnvMode }.

Definition is_DECAL (m : TexEnvMode) : bool :=
  match m with DECAL => true | _ => false end.

(** [osg::PrimitiveSet]: the two kinds the filter creates. *)
Inductive PrimitiveSet : Type :=
| DrawElementsUInt_TRIANGLES (indices : list Z)
| DrawArrays_LINE_LOOP (first count : Z).

Inductive AttributeBinding : Type := BIND_OFF | BIND_OVERALL.

(** [osg::Geometry]: a null array pointer is [None]. *)
Record OsgGeometry : Type := mkOsgGeometry {
  vertexArray : option (list Vec3f);
  texCoordArray : option (list Vec2f);
  colorArray : option (list Vec4f);
  colorBinding : AttributeBinding;
  primitiveSets : list PrimitiveSet }.

(** [new osg::Geometry()] *)
Definition new_Geometry : OsgGeometry :=
  mkOsgGeometry None None None BIND_OFF [].

(** A pointer test, [if ( ptr )]. *)
Definition non_null {B : Type} (o : option B) : bool :=
  match o with Some _ => true | None => false end.

(** ** The extrusion engine *)

(** First pass: the running [targetLen], [minLoc] and [maxLoc]. *)
Record Bounds : Type := mkBounds {
  b_targetLen : double;
  b_minLoc : Vec3d;
  b_maxLoc : Vec3d }.

Definition initial_bounds : Bounds :=
  mkBounds (dneg DBL_MAX) (mkVec3 DBL_MAX DBL_MAX DBL_MAX)
           (mkVec3 d_zero d_zero d_zero).

(** The body of the inner [for] loop of the first pass. *)
Definition zfinder_step (height : double) (b : Bounds) (m_point : Vec3d)
    : Bounds :=
  mkBounds
    (if dgt (dadd (vz m_point) height) (b_targetLen b)
     then dadd (vz m_point) height else b_targetLen b)
    (if dlt (vz m_point) (vz (b_minLoc b)) then m_point else b_minLoc b)
    (if dgt (vz m_point) (vz (b_maxLoc b)) then m_point else b_maxLoc b).

(** The [while (zfinder.hasMore())] loop over the parts. *)
Definition zfinder (height : double) (input : Geometry) : Bounds :=
  fold_left (fun b geom => fold_left (zfinder_step height) geom b)
            (parts input) initial_bounds.

(** The texture-height adjustment at the head of each part:
    [div = osg::round(maxHeight / tex_height_m); if (div == 0) div = 1]. *)
Definition tile_div (maxHeight tex_height_m : double) : double :=
  let div := osg_round (ddiv maxHeight tex_height_m) in
  if deq div d_zero then d_one else div.

(** [tex_height_m_adj = maxHeight / div] *)
Definition tex_height_adj (maxHeight tex_height_m : double) : double :=
  ddiv maxHeight (tile_div maxHeight tex_height_m).

(** The variables that live across the parts of the second pass: the arrays
    (shared with the output geometries), the three cursors, [made_geom] and
    the primitive sets added so far. *)
Record LoopState : Type := mkState {
  verts : list Vec3f;
  texcoords : option (list Vec2f);
  roofVerts : option (list Vec3f);
  baseVerts : option (list Vec3f);
  wallVertPtr : Z;
  roofVertPtr : Z;
  baseVertPtr : Z;
  made_geom : bool;
  wallPrims : list PrimitiveSet;
  roofPrims : list PrimitiveSet;
  basePrims : list PrimitiveSet }.

(** The state of the inner loop over the points of one part: the outer state
    with the locals [partLen] and [idx]. *)
Record PartState : Type := mkPart {
  outer : LoopState;
  partLen : double;
  idx : list Z }.

(** [std::swap( a[i], a[j] )] *)
Definition swap_at (i j : nat) (a : list Vec3f) : list Vec3f :=
  <[j := a !!! i]> (<[i := a !!! j]> a).

(** The base reversal loop, on the array [a] behind [baseVerts]:
    [int len = baseVertPtr - basePartPtr;
     for( int i=basePartPtr; i<len/2; i++ )
       std::swap( a[i], a[basePartPtr+(len-1)-i] );] *)
Definition reverse_base (basePartPtr baseVertPtr : Z) (a : list Vec3f)
    : list Vec3f :=
  let len := to_int (wrap32 (baseVertPtr - basePartPtr)) in
  let i0 := to_int basePartPtr in
  fold_left
    (fun a i => swap_at (index_of i)
                        (index_of (wrap32 (basePartPtr + (len - 1) - i))) a)
    (seqZ i0 (Z.quot len 2 - i0)) a.

(** The result of [extrudeGeometry]: the returned flag and the three geometry
    objects after the call. *)
Record ExtrudeResult : Type := mkResult {
  made : bool;
  walls_out : OsgGeometry;
  roof_out : option OsgGeometry;
  base_out : option OsgGeometry }.

Section ExtrudeGeometry.

(** [toECEF( input, srs, _world2local )]: the conversion of the spatial
    reference followed by the localizer matrix; both are external. *)
Variable toECEF : Vec3d -> Vec3d.

Section Emission.

(** The values that are fixed during the second pass: [height] and
    [targetLen] after the offset was applied, and the tests on the
    arguments. *)
Variables (height targetLen : double) (flatten makeECEF : bool).
Variables (wallSkin : option SkinResource).
Variables (tex_width_m : double) (tex_repeats_y : bool).
Variables (roof base isPolygon : bool).

(** The extrusion vector of a point, [roofPt]. *)
Definition roof_point (basePt : Vec3d) : Vec3d :=
  if flatten then mkVec3 (vx basePt) (vy basePt) targetLen
  else mkVec3 (vx basePt) (vy basePt) (dadd (vz basePt) height).

(** The vertices stored for a point: [basePt] and [roofPt], or
    [basePtECEF] and [roofPtECEF] when [makeECEF]; the assignment to an
    element of an [osg::Vec3Array] converts the [osg::Vec3d] to
    [osg::Vec3f]. *)
Definition base_vertex (basePt : Vec3d) : Vec3f :=
  to_Vec3f (if makeECEF then toECEF basePt else basePt).
Definition roof_vertex (basePt : Vec3d) : Vec3f :=
  to_Vec3f (if makeECEF then toECEF (roof_point basePt) else roof_point basePt).

(** The six indices pushed for a point that is not the last of its part,
    and for the last point of a polygon part. *)
Definition quad_indices (w : Z) : list Z :=
  [w; wrap32 (w + 1); wrap32 (w + 2);
   wrap32 (w + 1); wrap32 (w + 3); wrap32 (w + 2)].
Definition closing_indices (w wallPartPtr : Z) : list Z :=
  [w; wrap32 (w + 1); wallPartPtr;
   wrap32 (w + 1); wrap32 (wallPartPtr + 1); wallPartPtr].

(** The body of the loop over the points of a part; [at_end] is the test
    [(m+1) == part->end()].  The lengths are taken on the [float] vectors
    the array holds and are converted to [double] by the conditional
    expressions they stand in; [Vec2f::set] narrows its arguments. *)
Definition emit_point (wallPartPtr : Z) (tex_height_m_adj : double)
    (at_end : bool) (basePt : Vec3d) (s : PartState) : PartState :=
  let st := outer s in
  let w := wallVertPtr st in
  let p := to_int w in
  let baseVerts1 :=
    if base then insert (index_of (baseVertPtr st)) (base_vertex basePt)
                   <$> baseVerts st
    else baseVerts st in
  let baseVertPtr1 :=
    if base then wrap32 (baseVertPtr st + 1) else baseVertPtr st in
  let roofVerts1 :=
    if roof then insert (index_of (roofVertPtr st)) (roof_vertex basePt)
                   <$> roofVerts st
    else roofVerts st in
  let roofVertPtr1 :=
    if roof then wrap32 (roofVertPtr st + 1) else roofVertPtr st in
  let verts1 :=
    <[index_of (p + 1) := base_vertex basePt]>
      (<[index_of p := roof_vertex basePt]> (verts st)) in
  let partLen1 :=
    dadd (partLen s)
      (if w >? wallPartPtr
       then f2d (v3f_length
                   (v3f_sub (verts1 !!! index_of p) (verts1 !!! index_of (p - 2))))
       else d_zero) in
  let h :=
    if tex_repeats_y
    then f2d (fneg (v3f_length
                      (v3f_sub (verts1 !!! index_of p)
                               (verts1 !!! index_of (p + 1)))))
    else dneg tex_height_m_adj in
  let texcoords1 :=
    if non_null wallSkin
    then (fun t =>
            <[index_of (p + 1) :=
                mkVec2 (d2f (ddiv partLen1 tex_width_m))
                       (d2f (ddiv h tex_height_m_adj))]>
              (<[index_of p := mkVec2 (d2f (ddiv partLen1 tex_width_m)) f_zero]>
                 t))
           <$> texcoords st
    else texcoords st in
  let idx1 :=
    if at_end
    then (if isPolygon then idx s ++ closing_indices w wallPartPtr else idx s)
    else idx s ++ quad_indices w in
  mkPart
    (mkState verts1 texcoords1 roofVerts1 baseVerts1
             (wrap32 (w + 2)) roofVertPtr1 baseVertPtr1 true
             (wallPrims st) (roofPrims st) (basePrims st))
    partLen1 idx1.

(** [for( m = part->begin(); m != part->end(); ++m )] *)
Fixpoint emit_points (wallPartPtr : Z) (tex_height_m_adj : double)
    (pts : list Vec3d) (s : PartState) : PartState :=
  match pts with
  | [] => s
  | m :: rest =>
      emit_points wallPartPtr tex_height_m_adj rest
        (emit_point wallPartPtr tex_height_m_adj
           (match rest with [] => true | _ => false end) m s)
  end.

(** The body of the [while (iter.hasMore())] loop: one part. *)
Definition extrude_part (tex_height_m minLoc_z : double)
    (st : LoopState) (part : list Vec3d) : LoopState :=
  let wallPartPtr := wallVertPtr st in
  let roofPartPtr := roofVertPtr st in
  let basePartPtr := baseVertPtr st in
  let maxHeight := dsub targetLen minLoc_z in
  let tex_height_m_adj := tex_height_adj maxHeight tex_height_m in
  let s := emit_points wallPartPtr tex_height_m_adj part
             (mkPart st d_zero []) in
  let st1 := outer s in
  mkState (verts st1) (texcoords st1) (roofVerts st1)
    (if base
     then reverse_base basePartPtr (baseVertPtr st1) <$> baseVerts st1
     else baseVerts st1)
    (wallVertPtr st1) (roofVertPtr st1) (baseVertPtr st1) (made_geom st1)
    (wallPrims st1 ++ [DrawElementsUInt_TRIANGLES (idx s)])
    (if roof
     then roofPrims st1 ++
          [DrawArrays_LINE_LOOP (to_int roofPartPtr)
             (to_int (wrap32 (roofVertPtr st1 - roofPartPtr)))]
     else roofPrims st1)
    (if base
     then basePrims st1 ++
          [DrawArrays_LINE_LOOP (to_int basePartPtr)
             (to_int (wrap32 (baseVertPtr st1 - basePartPtr)))]
     else basePrims st1).

End Emission.

(** [ExtrudeGeometryFilter::extrudeGeometry].  [makeECEF] stands for
    [cx.getSession()->getMapInfo().isGeocentric()]. *)
Definition extrudeGeometry (input : Geometry) (height heightOffset : double)
    (flatten : bool) (walls : OsgGeometry) (roof base : option OsgGeometry)
    (wallColor roofColor : Vec4f) (wallSkin roofSkin : option SkinResource)
    (makeECEF : bool) : ExtrudeResult :=
  let tex_width_m := from_option imageWidth d_one wallSkin in
  let tex_height_m := from_option imageHeight d_one wallSkin in
  let tex_repeats_y := from_option isTiled false wallSkin in
  let useColor :=
    from_option (fun sk => negb (is_DECAL (texEnvMode sk))) true wallSkin in
  let isPolygon :=
    match componentType input with TYPE_POLYGON => true | _ => false end in
  let pointCount := wrap32 (getTotalPointCount input) in
  let numVerts := wrap32 (2 * pointCount) in
  let verts0 := replicate (Z.to_nat numVerts) vec3_zero in
  let texcoords0 :=
    if non_null wallSkin then Some (replicate (Z.to_nat numVerts) vec2_zero)
    else None in
  let roofVerts0 :=
    if non_null roof then Some (replicate (Z.to_nat pointCount) vec3_zero)
    else None in
  let topTexcoords :=
    if non_null roof && non_null roofSkin
    then Some (replicate (Z.to_nat pointCount) vec2_zero) else None in
  let roofRotation :=
    if non_null roof && non_null roofSkin
    then getApparentRotation (asVector input) else f_zero in
  let baseVerts0 :=
    if non_null base then Some (replicate (Z.to_nat pointCount) vec3_zero)
    else None in
  let bounds := zfinder height input in
  let height1 := dsub height heightOffset in
  let targetLen1 := dsub (b_targetLen bounds) heightOffset in
  let final :=
    fold_left
      (extrude_part height1 targetLen1 flatten makeECEF wallSkin
         tex_width_m tex_repeats_y (non_null roof) (non_null base) isPolygon
         tex_height_m (vz (b_minLoc bounds)))
      (parts input)
      (mkState verts0 texcoords0 roofVerts0 baseVerts0 0 0 0 false
         (primitiveSets walls)
         (from_option primitiveSets [] roof)
         (from_option primitiveSets [] base)) in
  mkResult (made_geom final)
    (mkOsgGeometry (Some (verts final))
       (if non_null wallSkin then texcoords final else texCoordArray walls)
       (if useColor then Some [wallColor] else colorArray walls)
       (if useColor then BIND_OVERALL else colorBinding walls)
       (wallPrims final))
    ((fun g =>
        mkOsgGeometry (roofVerts final)
          (if non_null roofSkin then topTexcoords else texCoordArray g)
          (Some [roofColor]) BIND_OVERALL (roofPrims final)) <$> roof)
    ((fun g =>
        mkOsgGeometry (baseVerts final) (texCoordArray g) (colorArray g)
          (colorBinding g) (basePrims final)) <$> base).

End ExtrudeGeometry.
(** ** The filter: styles, batches and [push] *)

(** [ExtrusionSymbol]; expressions are kept as their source text. *)
Record ExtrusionSymbol : Type := mkExtrusionSymbol {
  heightExpression : option string;
  ext_height : float;
  heightReferenceMSL : bool;
  wallStyleName : option string;
  roofStyleName : option string;
  ext_flatten : bool }.

(** [SkinSymbol]: the library name and the object height of a query. *)
Record SkinSymbol : Type := mkSkinSymbol {
  libraryName : option string;
  objectHeight : option float }.

(** [PolygonSymbol]: the fill colour. *)
Record PolygonSymbol : Type := mkPolygonSymbol { fill_color : Vec4f }.

(** [Style]: the symbols [get<T>()] can find. *)
Record Style : Type := mkStyle {
  style_extrusion : option ExtrusionSymbol;
  style_skin : option SkinSymbol;
  style_polygon : option PolygonSymbol }.

(** A drawable of a geode: the geometry, its name and whether it was marked
    [DYNAMIC]. *)
Record Drawable : Type := mkDrawable {
  d_geometry : OsgGeometry;
  d_name : string;
  d_dynamic : bool }.

(** [osg::Geode]; a state set is known by its identity, null is [None]. *)
Record Geode : Type := mkGeode {
  stateSet : option positive;
  drawables : list Drawable }.

(** [SortedGeodeMap]: the geodes by state set pointer. *)
Local Abbreviation GeodeMap := (gmap (option positive) Geode).

Section Push.

(** External collaborators.  [Feature], [ResourceLibrary], [Matrix]
    ([osg::Matrixd]) and [FilterContext] are opaque here; the functions
    below are the calls the filter makes on them. *)
Variables Feature ResourceLibrary Matrix FilterContext : Type.

(** The member variables of [ExtrudeGeometryFilter] that the file names,
    those of its base class [FeaturesToNodeFilter] (the localizer matrices)
    among them.  A null pointer and an unset optional are [None]; the
    height callback is known by its [operator()]. *)
Record Filter : Type := mkFilter {
  _maxAngle_deg : double;
  _mergeGeometry : bool;
  _wallAngleThresh_deg : double;
  _cosWallAngleThresh : double;
  _styleDirty : bool;
  _style : Style;
  _extrusionSymbol : option ExtrusionSymbol;
  _wallSkinSymbol : option SkinSymbol;
  _wallPolygonSymbol : option PolygonSymbol;
  _roofSkinSymbol : option SkinSymbol;
  _roofPolygonSymbol : option PolygonSymbol;
  _heightExpr : string;
  _heightOffsetExpr : option string;
  _featureNameExpr : string;
  _heightCallback : option (Feature -> FilterContext -> float);
  _wallResLib : option ResourceLibrary;
  _roofResLib : option ResourceLibrary;
  _world2local : Matrix;
  _local2world : Matrix;
  _geodes : GeodeMap }.

(** [context.getSession()->styles()], with [getStyle( name, false )] and
    [getResourceLibrary( name )]; a null result is [None]. *)
Variable has_sheet : FilterContext -> bool.
Variable getStyle : FilterContext -> string -> option Style.
Variable getResourceLibrary : FilterContext -> string -> option ResourceLibrary.
(** [cx.getSession()->getMapInfo().isGeocentric()] *)
Variable isGeocentric : FilterContext -> bool.
(** [srs->transformToECEF( input, ecef )] for the reference system
    [cx.extent()->getSRS()]: the value it leaves in [ecef]; and the product
    [ecef * world2local] of a vector and a matrix. *)
Variable transformToECEF : FilterContext -> Vec3d -> Vec3d.
Variable postMult : Vec3d -> Matrix -> Vec3d.
(** [GeometryIterator( input->getGeometry(), false )] followed, for a
    polygon, by [open()]. *)
Variable feature_parts : Feature -> list Geometry.
Variable open_polygon : Geometry -> Geometry.
(** [input->eval( expr )] for numbers and for names. *)
Variable eval_number : Feature -> string -> double.
Variable eval_string : Feature -> string -> string.
(** [lib->getSkins( &querySymbol, candidates )] *)
Variable getSkins : ResourceLibrary -> SkinSymbol -> list SkinResource.
(** The values [::rand()] returns, by call number. *)
Variable rand_values : nat -> Z.
(** [context.resourceCache()->getStateSet( skin )] *)
Variable getStateSet : FilterContext -> SkinResource -> option positive.
(** [osgUtil::SmoothingVisitor::smooth] on the walls, for the crease angle
    [_wallAngleThresh_deg] (given here in degrees; an osg without crease
    angles ignores it), the same on roofs without an angle, and
    [osgUtil::Tessellator::retessellatePolygons]. *)
Variable smooth_walls : double -> OsgGeometry -> OsgGeometry.
Variable smooth_roof tessellate : OsgGeometry -> OsgGeometry.
(** [MeshConsolidator::run] *)
Variable consolidate : Geode -> Geode.
(** The node [push] returns: a group, or a matrix transform when there is a
    delocalizing matrix, with its children. *)
Record Node : Type := mkNode {
  transform : option Matrix;
  children : list Geode }.

(** [computeLocalizers( context )] of the base class: the matrices it
    stores in [_world2local] and [_local2world]. *)
Variable computeLocalizers : FilterContext -> Matrix * Matrix.
(** [createDelocalizeGroup()] of the base class, which reads the two
    localizers: the parent node for the geodes. *)
Variable createDelocalizeGroup : Matrix * Matrix -> Node.
(** [osgUtil::Optimizer::optimize( group, MERGE_GEOMETRY )] *)
Variable merge_geometry : Node -> Node.

(** [new osg::Group()] *)
Definition new_Group : Node := mkNode None [].

Definition missing_symbology_warning : string :=
  "[ExtrudeGeometryFilter] Missing required extrusion symbolology; geometry will be empty".

Definition missing_library_warning (name what : string) : string :=
  ("[ExtrudeGeometryFilter] Unable to load resource library '" +:+ name +:+
   "'; " +:+ what +:+ " geometry will not be textured.")%string.

(** [ExtrudeGeometryFilter::ExtrudeGeometryFilter].  The initializer list
    names four members.  [_cosWallAngleThresh], a [double], has no initial
    value: it holds whatever [indeterminate] is.  The other members are
    default-constructed: an empty style, null pointers, unset or empty
    expressions and no geode; the localizers are as the constructor of the
    base class leaves them. *)
Definition ExtrudeGeometryFilter (indeterminate : double)
    (localizers : Matrix * Matrix) : Filter :=
  {| _maxAngle_deg := d_lit 5;
     _mergeGeometry := true;
     _wallAngleThresh_deg := d_lit 60;
     _cosWallAngleThresh := indeterminate;
     _styleDirty := true;
     _style := mkStyle None None None;
     _extrusionSymbol := None;
     _wallSkinSymbol := None;
     _wallPolygonSymbol := None;
     _roofSkinSymbol := None;
     _roofPolygonSymbol := None;
     _heightExpr := "";
     _heightOffsetExpr := None;
     _featureNameExpr := "";
     _heightCallback := None;
     _wallResLib := None;
     _roofResLib := None;
     _world2local := localizers.1;
     _local2world := localizers.2;
     _geodes := ∅ |}.

(** [ExtrudeGeometryFilter::setStyle] *)
Definition setStyle (f : Filter) (style : Style) : Filter :=
  {| _maxAngle_deg := _maxAngle_deg f;
     _mergeGeometry := _mergeGeometry f;
     _wallAngleThresh_deg := _wallAngleThresh_deg f;
     _cosWallAngleThresh := _cosWallAngleThresh f;
     _styleDirty := true;
     _style := style;
     _extrusionSymbol := _extrusionSymbol f;
     _wallSkinSymbol := _wallSkinSymbol f;
     _wallPolygonSymbol := _wallPolygonSymbol f;
     _roofSkinSymbol := _roofSkinSymbol f;
     _roofPolygonSymbol := _roofPolygonSymbol f;
     _heightExpr := _heightExpr f;
     _heightOffsetExpr := _heightOffsetExpr f;
     _featureNameExpr := _featureNameExpr f;
     _heightCallback := _heightCallback f;
     _wallResLib := _wallResLib f;
     _roofResLib := _roofResLib f;
     _world2local := _world2local f;
     _local2world := _local2world f;
     _geodes := _geodes f |}.

(** The assignments of [reset]: [_cosWallAngleThresh], the cleared
    [_geodes], the symbols and expressions of the style and the cleared
    [_styleDirty]; the other members keep their values. *)
Definition reset_members (f : Filter) (ext : option ExtrusionSymbol)
    (wallSkin : option SkinSymbol) (wallPoly : option PolygonSymbol)
    (roofSkin : option SkinSymbol) (roofPoly : option PolygonSymbol)
    (heightExpr : string) (heightOffsetExpr : option string) : Filter :=
  {| _maxAngle_deg := _maxAngle_deg f;
     _mergeGeometry := _mergeGeometry f;
     _wallAngleThresh_deg := _wallAngleThresh_deg f;
     _cosWallAngleThresh := cos (_wallAngleThresh_deg f);
     _styleDirty := false;
     _style := _style f;
     _extrusionSymbol := ext;
     _wallSkinSymbol := wallSkin;
     _wallPolygonSymbol := wallPoly;
     _roofSkinSymbol := roofSkin;
     _roofPolygonSymbol := roofPoly;
     _heightExpr := heightExpr;
     _heightOffsetExpr := heightOffsetExpr;
     _featureNameExpr := _featureNameExpr f;
     _heightCallback := _heightCallback f;
     _wallResLib := _wallResLib f;
     _roofResLib := _roofResLib f;
     _world2local := _world2local f;
     _local2world := _local2world f;
     _geodes := ∅ |}.

(** [ExtrudeGeometryFilter::reset] *)
Definition reset (f : Filter) (cx : FilterContext) : Filter :=
  if _styleDirty f then
    let ext := style_extrusion (_style f) in
    let heightExpr :=
      match ext with
      | Some e => default (_heightExpr f) (heightExpression e)
      | None => _heightExpr f
      end in
    let heightOffsetExpr :=
      match ext with
      | Some e => if heightReferenceMSL e then Some "[__max_z]"%string
                  else _heightOffsetExpr f
      | None => _heightOffsetExpr f
      end in
    let named (name : ExtrusionSymbol -> option string) : option Style :=
      e ← ext; n ← name e;
      if has_sheet cx then getStyle cx n else None in
    let wallSkin1 := named wallStyleName ≫= style_skin in
    let wallPoly1 := named wallStyleName ≫= style_polygon in
    let roofSkin1 := named roofStyleName ≫= style_skin in
    let roofPoly1 := named roofStyleName ≫= style_polygon in
    let backup {B} (own fallback : option B) : option B :=
      match fallback with
      | Some s => if non_null own then own else Some s
      | None => own
      end in
    reset_members f ext
      (backup wallSkin1 (style_skin (_style f)))
      (backup wallPoly1 (style_polygon (_style f)))
      (backup roofSkin1 (style_skin (_style f)))
      (backup roofPoly1 (style_polygon (_style f)))
      heightExpr heightOffsetExpr
  else
    reset_members f (_extrusionSymbol f)
      (_wallSkinSymbol f) (_wallPolygonSymbol f)
      (_roofSkinSymbol f) (_roofPolygonSymbol f)
      (_heightExpr f) (_heightOffsetExpr f).

(** [toECEF] *)
Definition toECEF (cx : FilterContext) (world2local : Matrix)
    (input : Vec3d) : Vec3d :=
  postMult (transformToECEF cx input) world2local.

(** The skin lookup of [process]: one candidate is taken as it is, among
    several one is drawn with [::rand() % candidates.size()], where
    [::rand()] is not negative.  The number of calls of [::rand()] made so
    far is threaded through. *)
Definition choose_skin (lib : option ResourceLibrary)
    (query : option SkinSymbol) (calls : nat) : option SkinResource * nat :=
  match query, lib with
  | Some q, Some l =>
      match getSkins l q with
      | [] => (None, calls)
      | [c] => (Some c, calls)
      | candidates =>
          (candidates !!
             Z.to_nat (rand_values calls `mod` Z.of_nat (length candidates)),
           S calls)
      end
  | _, _ => (None, calls)
  end.

(** The state [process] works on: the filter (for [_geodes]) and the
    number of [::rand()] calls. *)
Definition add_drawable (key : option positive) (d : Drawable)
    (geodes : GeodeMap) : GeodeMap :=
  let geode := default (mkGeode key []) (geodes !! key) in
  <[key := mkGeode (stateSet geode) (drawables geode ++ [d])]> geodes.

(** The body of the [while( iter.hasMore() )] loop of [process], for the
    feature [input] and one of its parts.  [height] and [offset] are [float]
    variables: the [double] an expression evaluates to is narrowed, and the
    [float] is widened again for [extrudeGeometry]. *)
Definition process_part (f : Filter) (cx : FilterContext) (input : Feature)
    (acc : GeodeMap * nat) (part0 : Geometry) : GeodeMap * nat :=
  let '(geodes, calls) := acc in
  let is_polygon :=
    match componentType part0 with TYPE_POLYGON => true | _ => false end in
  let rooflines := if is_polygon then Some new_Geometry else None in
  let part := if is_polygon then open_polygon part0 else part0 in
  let ext := default (mkExtrusionSymbol None f_zero false None None false)
                     (_extrusionSymbol f) in
  let height : float :=
    match _heightCallback f with
    | Some cb => cb input cx
    | None =>
        if non_null (heightExpression ext)
        then d2f (eval_number input (_heightExpr f))
        else ext_height ext
    end in
  let offset : float :=
    match _heightOffsetExpr f with
    | Some e => d2f (eval_number input e)
    | None => d2f d_zero
    end in
  let '(wallSkin, calls1) :=
    choose_skin (_wallResLib f)
      ((fun q => mkSkinSymbol (libraryName q) (Some height)) <$> _wallSkinSymbol f)
      calls in
  let '(roofSkin, calls2) :=
    choose_skin (_roofResLib f) (_roofSkinSymbol f) calls1 in
  let wallColor :=
    from_option fill_color (mkVec4 f_one f_one f_one f_one)
      (_wallPolygonSymbol f) in
  let roofColor :=
    from_option fill_color (mkVec4 f_one f_one f_one f_one)
      (_roofPolygonSymbol f) in
  let r := extrudeGeometry (toECEF cx (_world2local f)) part
             (f2d height) (f2d offset) (ext_flatten ext)
             new_Geometry rooflines None wallColor roofColor
             wallSkin roofSkin (isGeocentric cx) in
  if made r then
    let wallStateSet := wallSkin ≫= getStateSet cx in
    let name :=
      if String.eqb (_featureNameExpr f) ""
      then ""%string else eval_string input (_featureNameExpr f) in
    let geodes1 :=
      add_drawable wallStateSet
        (mkDrawable (smooth_walls (_wallAngleThresh_deg f) (walls_out r))
                    name false) geodes in
    let geodes2 :=
      match roof_out r with
      | Some g =>
          add_drawable None
            (mkDrawable (smooth_roof (tessellate g)) name true) geodes1
      | None => geodes1
      end in
    (geodes2, calls2)
  else (geodes, calls2).

(** [ExtrudeGeometryFilter::process]: every part of every feature. *)
Definition process (f : Filter) (cx : FilterContext)
    (features : list Feature) (calls : nat) : GeodeMap * nat :=
  fold_left
    (fun acc input =>
       fold_left (process_part f cx input) (feature_parts input) acc)
    features (_geodes f, calls).

(** The resource library of a skin symbol, with the warning when it cannot
    be loaded. *)
Definition load_library (cx : FilterContext) (sym : option SkinSymbol)
    (what : string) : option ResourceLibrary * list string :=
  match sym ≫= libraryName with
  | Some name =>
      if has_sheet cx then
        match getResourceLibrary cx name with
        | Some lib => (Some lib, [])
        | None => (None, [missing_library_warning name what])
        end
      else (None, [])
  | None => (None, [])
  end.

(** [f] with other resource libraries, localizers and geodes: the members
    [push] assigns after [reset]. *)
Definition push_members (f : Filter)
    (wallResLib roofResLib : option ResourceLibrary)
    (localizers : Matrix * Matrix) (geodes : GeodeMap) : Filter :=
  {| _maxAngle_deg := _maxAngle_deg f;
     _mergeGeometry := _mergeGeometry f;
     _wallAngleThresh_deg := _wallAngleThresh_deg f;
     _cosWallAngleThresh := _cosWallAngleThresh f;
     _styleDirty := _styleDirty f;
     _style := _style f;
     _extrusionSymbol := _extrusionSymbol f;
     _wallSkinSymbol := _wallSkinSymbol f;
     _wallPolygonSymbol := _wallPolygonSymbol f;
     _roofSkinSymbol := _roofSkinSymbol f;
     _roofPolygonSymbol := _roofPolygonSymbol f;
     _heightExpr := _heightExpr f;
     _heightOffsetExpr := _heightOffsetExpr f;
     _featureNameExpr := _featureNameExpr f;
     _heightCallback := _heightCallback f;
     _wallResLib := wallResLib;
     _roofResLib := roofResLib;
     _world2local := localizers.1;
     _local2world := localizers.2;
     _geodes := geodes |}.

(** What a call of [push] leaves behind: the returned node, the warnings
    logged, the filter and the number of [::rand()] calls. *)
Record PushResult : Type := mkPushResult {
  node : Node;
  warnings : list string;
  filter_after : Filter;
  rand_calls : nat }.

(** [ExtrudeGeometryFilter::push] *)
Definition push (f0 : Filter) (input : list Feature) (cx : FilterContext)
    (calls : nat) : PushResult :=
  let f := reset f0 cx in
  if negb (non_null (_extrusionSymbol f)) then
    mkPushResult new_Group [missing_symbology_warning] f calls
  else
    let '(wallResLib, warn1) := load_library cx (_wallSkinSymbol f) "wall" in
    let '(roofResLib, warn2) := load_library cx (_roofSkinSymbol f) "roof" in
    let localizers := computeLocalizers cx in
    let f1 := push_members f wallResLib roofResLib localizers (_geodes f) in
    let '(geodes, calls1) := process f1 cx input calls in
    let geodes1 :=
      if _mergeGeometry f1 && String.eqb (_featureNameExpr f1) ""
      then consolidate <$> geodes else geodes in
    let group := createDelocalizeGroup (_world2local f1, _local2world f1) in
    let group1 :=
      mkNode (transform group) (children group ++ (map_to_list geodes1).*2) in
    mkPushResult
      (if _mergeGeometry f1 then merge_geometry group1 else group1)
      (warn1 ++ warn2)
      (push_members f wallResLib roofResLib localizers ∅) calls1.

(** The extrusion symbol a call of [push] finds after [reset]: the one of
    the style when the style is dirty, the one kept from before otherwise. *)
Definition configured_extrusion (f : Filter) : option ExtrusionSymbol :=
  if _styleDirty f then style_extrusion (_style f) else _extrusionSymbol f.

End Push.

Arguments mkNode {Matrix} transform children.
Arguments transform {Matrix} n.
Arguments children {Matrix} n.
Arguments new_Group {Matrix}.
Arguments mkPushResult {Feature ResourceLibrary Matrix FilterContext} node warnings filter_after rand_calls.
Arguments node {Feature ResourceLibrary Matrix FilterContext} p.
Arguments warnings {Feature ResourceLibrary Matrix FilterContext} p.
Arguments filter_after {Feature ResourceLibrary Matrix FilterContext} p.
Arguments rand_calls {Feature ResourceLibrary Matrix FilterContext} p.

(** ** Reference descriptions used in the statements *)

(** The vertex cursors stay within the range of [int]: a shape of [n] points
    has [2 * n] wall vertices. *)
Definition fits_int (n : nat) : Prop := 2 * Z.of_nat n < 2 ^ 31.

(** The two triangles of the wall segment that starts at vertex [w], and the
    two triangles that close a ring that starts at vertex [w0]. *)
Definition wall_quad (w : Z) : list Z := [w; w + 1; w + 2; w + 1; w + 3; w + 2].
Definition wall_closing (w w0 : Z) : list Z := [w; w + 1; w0; w + 1; w0 + 1; w0].

(** The index list of a part of [length pts] points whose first vertex is
    [w]; [w0] is the first vertex of the part. *)
Fixpoint part_indices (isPolygon : bool) (w0 w : Z) (pts : list Vec3d) : list Z :=
  match pts with
  | [] => []
  | [_] => if isPolygon then wall_closing w w0 else []
  | _ :: rest => wall_quad w ++ part_indices isPolygon w0 (w + 2) rest
  end.

(** The same list by segment number: [n - 1] wall segments, then the closing
    segment of a polygon. *)
Definition ring_indices (isPolygon : bool) (n : nat) : list Z :=
  flat_map (fun k => wall_quad (2 * k)) (seqZ 0 (Z.of_nat n - 1)) ++
  (if isPolygon then wall_closing (2 * Z.of_nat n - 2) 0 else []).

(** The height [h] used for the texture of the wall at a point, which is
    the negated segment height: the negated distance between the two stored
    vertices when the texture repeats, the negated adjusted tile height when
    it is stretched. *)
Definition wall_tex_h (tex_repeats_y : bool) (adj : double)
    (roofV baseV : Vec3f) : double :=
  if tex_repeats_y then f2d (fneg (v3f_length (v3f_sub roofV baseV)))
  else dneg adj.

(** [T] is the maximum of [point.z + height] over the points [pts], as the
    code computes and compares these sums: no sum is above [T], and [T] is
    one of them. *)
Definition shape_max_top (height : double) (pts : list Vec3d) (T : double)
    : Prop :=
  (forall p, p ∈ pts -> dgt (dadd (vz p) height) T = false) /\
  (exists p, p ∈ pts /\ T = dadd (vz p) height).

(** No [point.z + height] is below the value [-DBL_MAX] the scan starts
    from: each is above it or is that value.  For the [double] values of a
    machine this excludes a sum that overflows to minus infinity or is a
    NaN. *)
Definition finite_tops (height : double) (pts : list Vec3d) : Prop :=
  forall p, p ∈ pts ->
    dgt (dadd (vz p) height) (dneg DBL_MAX) = true \/
    dadd (vz p) height = dneg DBL_MAX.

(** What the proofs about the first pass use of the comparison [<]: it
    holds of no value and itself, and it is transitive.  Both hold of the
    comparison of [double] values, NaN included. *)
Definition lt_strict_order : Prop :=
  (forall a, dlt a a = false) /\
  (forall a b c, dlt a b = true -> dlt b c = true -> dlt a c = true).

(** What the proofs about the tile height use of the arithmetic on values
    that compare equal to zero: [1.0] is a number and not zero, a zero
    rounds to a zero, and a zero divided by a number that is not zero is a
    zero.  The test [y == y] fails only for a NaN. *)
Definition zero_quotients : Prop :=
  deq d_one d_one = true /\
  deq d_one d_zero = false /\
  (forall x, deq x d_zero = true -> deq (osg_round x) d_zero = true) /\
  (forall x y, deq x d_zero = true -> deq y y = true -> deq y d_zero = false ->
     deq (ddiv x y) d_zero = true).

(** The values the second pass of [extrudeGeometry] works with: [targetLen]
    after the offset was applied, [maxHeight], the divisor [div] and
    [tex_height_m_adj]. *)
Definition target_elevation (input : Geometry) (height heightOffset : double)
    : double :=
  dsub (b_targetLen (zfinder height input)) heightOffset.
Definition max_height (input : Geometry) (height heightOffset : double)
    : double :=
  dsub (target_elevation input height heightOffset)
       (vz (b_minLoc (zfinder height input))).
Definition tile_divisor (input : Geometry) (height heightOffset : double)
    (wallSkin : option SkinResource) : double :=
  tile_div (max_height input height heightOffset)
           (from_option imageHeight d_one wallSkin).
Definition adjusted_tile_height (input : Geometry) (height heightOffset : double)
    (wallSkin : option SkinResource) : double :=
  tex_height_adj (max_height input height heightOffset)
                 (from_option imageHeight d_one wallSkin).

(** The state [st] with other primitive sets. *)
Definition set_prims (w r b : list PrimitiveSet) (st : LoopState) : LoopState :=
  mkState (verts st) (texcoords st) (roofVerts st) (baseVerts st)
          (wallVertPtr st) (roofVertPtr st) (baseVertPtr st) (made_geom st)
          w r b.

(** [r'] is the result for a shape with one more part than the shape of
    [r], and that part left no trace but empty primitive sets: the same flag
    and the same vertex and texture arrays, and the primitive sets of [r]
    with an empty index set, respectively a line loop of zero vertices,
    inserted. *)
Definition skipped_part (r r' : ExtrudeResult) : Prop :=
  made r' = made r /\
  vertexArray (walls_out r') = vertexArray (walls_out r) /\
  texCoordArray (walls_out r') = texCoordArray (walls_out r) /\
  vertexArray <$> roof_out r' = vertexArray <$> roof_out r /\
  vertexArray <$> base_out r' = vertexArray <$> base_out r /\
  (exists W X,
     primitiveSets (walls_out r) = W ++ X /\
     primitiveSets (walls_out r') = W ++ DrawElementsUInt_TRIANGLES [] :: X) /\
  (forall g g', roof_out r = Some g -> roof_out r' = Some g' ->
     exists k R1 R2, primitiveSets g = R1 ++ R2 /\
                     primitiveSets g' = R1 ++ DrawArrays_LINE_LOOP k 0 :: R2) /\
  (forall g g', base_out r = Some g -> base_out r' = Some g' ->
     exists k B1 B2, primitiveSets g = B1 ++ B2 /\
                     primitiveSets g' = B1 ++ DrawArrays_LINE_LOOP k 0 :: B2).

(** The state at the end of the second pass of [extrudeGeometry]. *)
Definition final_state (toECEF : Vec3d -> Vec3d) (input : Geometry)
    (height heightOffset : double) (flatten : bool) (walls : OsgGeometry)
    (roof base : option OsgGeometry) (wallSkin : option SkinResource)
    (makeECEF : bool) : LoopState :=
  let pointCount := wrap32 (getTotalPointCount input) in
  let numVerts := wrap32 (2 * pointCount) in
  fold_left
    (extrude_part toECEF (dsub height heightOffset)
       (dsub (b_targetLen (zfinder height input)) heightOffset) flatten makeECEF
       wallSkin (from_option imageWidth d_one wallSkin)
       (from_option isTiled false wallSkin) (non_null roof) (non_null base)
       (match componentType input with TYPE_POLYGON => true | _ => false end)
       (from_option imageHeight d_one wallSkin)
       (vz (b_minLoc (zfinder height input))))
    (parts input)
    (mkState (replicate (Z.to_nat numVerts) vec3_zero)
       (if non_null wallSkin then Some (replicate (Z.to_nat numVerts) vec2_zero)
        else None)
       (if non_null roof then Some (replicate (Z.to_nat pointCount) vec3_zero)
        else None)
       (if non_null base then Some (replicate (Z.to_nat pointCount) vec3_zero)
        else None)
       0 0 0 false (primitiveSets walls)
       (from_option primitiveSets [] roof) (from_option primitiveSets [] base)).

(** ** Further descriptions *)

(** The index sets of the parts [ps], one per part, when the first wall
    vertex of the first part is [w]: each part takes two vertices per
    point. *)
Fixpoint wall_sets (isPolygon : bool) (w : Z) (ps : list (list Vec3d))
    : list PrimitiveSet :=
  match ps with
  | [] => []
  | p :: rest =>
      DrawElementsUInt_TRIANGLES (part_indices isPolygon w w p) ::
      wall_sets isPolygon (w + 2 * Z.of_nat (length p)) rest
  end.

(** The line loops of the parts [ps], one per part, when the first vertex of
    the first part is [r]: each part takes one vertex per point. *)
Fixpoint line_loops (r : Z) (ps : list (list Vec3d)) : list PrimitiveSet :=
  match ps with
  | [] => []
  | p :: rest =>
      DrawArrays_LINE_LOOP r (Z.of_nat (length p)) ::
      line_loops (r + Z.of_nat (length p)) rest
  end.

(** Every part of [ps] is short for the reversal loop: half its length is
    at most the number [b] of base vertices written before it, so the loop
    [for( int i=basePartPtr; i<len/2; i++ )] does not run for it. *)
Fixpoint parts_out_of_reversal (b : Z) (ps : list (list Vec3d)) : Prop :=
  match ps with
  | [] => True
  | p :: rest =>
      Z.of_nat (length p) / 2 <= b /\
      parts_out_of_reversal (b + Z.of_nat (length p)) rest
  end.

(** The geodes of a batch are sorted by state set: the geode under a key has
    that state set, and it is there because a drawable was added to it. *)
Definition sorted_by_state_set (geodes : GeodeMap) : Prop :=
  forall k g, geodes !! k = Some g -> stateSet g = k /\ drawables g <> [].

(** Roofs (the drawables marked [DYNAMIC]) are only in the geode without a
    state set. *)
Definition roofs_without_state_set (geodes : GeodeMap) : Prop :=
  forall k g d,
    geodes !! k = Some g -> d ∈ drawables g -> d_dynamic d = true -> k = None.

(** The running length [partLen] of the wall of a part at each of the stored
    roof vertices [rs], when it is [acc] at the vertex [prev] before them:
    every step adds the [float] distance between two consecutive stored
    vertices, widened to [double]. *)
Fixpoint arc_from (prev : Vec3f) (acc : double) (rs : list Vec3f)
    : list double :=
  match rs with
  | [] => []
  | r :: rest =>
      dadd acc (f2d (v3f_length (v3f_sub r prev))) ::
      arc_from r (dadd acc (f2d (v3f_length (v3f_sub r prev)))) rest
  end.

(** The same from the first vertex of a part, where [partLen] is
    [0.0 + 0.0]. *)
Definition arc_lengths (rs : list Vec3f) : list double :=
  match rs with
  | [] => []
  | r :: rest => dadd d_zero d_zero :: arc_from r (dadd d_zero d_zero) rest
  end.

End Model.

(** [SortedGeodeMap] *)
Abbreviation GeodeMap := (gmap (option positive) Geode).

Arguments mkNode {A Matrix} transform children.
Arguments transform {A Matrix} n.
Arguments children {A Matrix} n.
Arguments new_Group {A Matrix}.
Arguments mkPushResult {A Feature ResourceLibrary Matrix FilterContext} node warnings filter_after rand_calls.
Arguments node {A Feature ResourceLibrary Matrix FilterContext} p.
Arguments warnings {A Feature ResourceLibrary Matrix FilterContext} p.
Arguments filter_after {A Feature ResourceLibrary Matrix FilterContext} p.
Arguments rand_calls {A Feature ResourceLibrary Matrix FilterContext} p.
Arguments mkFilter {A Feature ResourceLibrary Matrix FilterContext}.
Arguments _maxAngle_deg {A Feature ResourceLibrary Matrix FilterContext} f.
Arguments _mergeGeometry {A Feature ResourceLibrary Matrix FilterContext} f.
Arguments _wallAngleThresh_deg {A Feature ResourceLibrary Matrix FilterContext} f.
Arguments _cosWallAngleThresh {A Feature ResourceLibrary Matrix FilterContext} f.
Arguments _styleDirty {A Feature ResourceLibrary Matrix FilterContext} f.
Arguments _style {A Feature ResourceLibrary Matrix FilterContext} f.
Arguments _extrusionSymbol {A Feature ResourceLibrary Matrix FilterContext} f.
Arguments _wallSkinSymbol {A Feature ResourceLibrary Matrix FilterContext} f.
Arguments _wallPolygonSymbol {A Feature ResourceLibrary Matrix FilterContext} f.
Arguments _roofSkinSymbol {A Feature ResourceLibrary Matrix FilterContext} f.
Arguments _roofPolygonSymbol {A Feature ResourceLibrary Matrix FilterContext} f.
Arguments _heightExpr {A Feature ResourceLibrary Matrix FilterContext} f.
Arguments _heightOffsetExpr {A Feature ResourceLibrary Matrix FilterContext} f.
Arguments _featureNameExpr {A Feature ResourceLibrary Matrix FilterContext} f.
Arguments _heightCallback {A Feature ResourceLibrary Matrix FilterContext} f.
Arguments _wallResLib {A Feature ResourceLibrary Matrix FilterContext} f.
Arguments _roofResLib {A Feature ResourceLibrary Matrix FilterContext} f.
Arguments _world2local {A Feature ResourceLibrary Matrix FilterContext} f.
Arguments _local2world {A Feature ResourceLibrary Matrix FilterContext} f.
Arguments _geodes {A Feature ResourceLibrary Matrix FilterContext} f.
Arguments setStyle {A Feature ResourceLibrary Matrix FilterContext} f style.
Arguments configured_extrusion {A Feature ResourceLibrary Matrix FilterContext} f.

(** ** Exact arithmetic *)

(** The instance of [Arith] in which [double] and [float] are the real
    numbers and every operation is exact: no rounding, no narrowing, no
    infinity and no NaN.  It agrees with the arithmetic of a machine on the
    values and operations that a machine computes without rounding, such as
    the small integers of the examples. *)

(** [DBL_MAX] of [<cfloat>]: [(2^53 - 1) * 2^971]. *)
Definition RDBL_MAX : R := IZR ((2 ^ 53 - 1) * 2 ^ 971).

(** [floor] and [ceil] of [<cmath>]. *)
Definition Rfloor (v : R) : R := IZR (Int_part v).
Definition Rceil (v : R) : R := (- IZR (Int_part (- v)))%R.

(** [osg::round] of [osg/Math]:
    [v >= 0.0 ? floor(v + 0.5) : ceil(v - 0.5)]. *)
Definition Rround (v : R) : R :=
  if Rge_dec v 0 then Rfloor (v + / 2) else Rceil (v - / 2).

(** [atan2] of [<cmath>]: the principal argument of the point [(x, y)],
    with [atan2 0 0 = 0]. *)
Definition Ratan2 (y x : R) : R :=
  if Rlt_dec 0 x then atan (y / x)
  else if Rlt_dec x 0 then
         (if Rle_dec 0 y then atan (y / x) + PI else atan (y / x) - PI)%R
  else if Rlt_dec 0 y then (PI / 2)%R
  else if Rlt_dec y 0 then (- PI / 2)%R
  else 0%R.

Definition Rltb (a b : R) : bool := if Rlt_dec a b then true else false.
Definition Reqb (a b : R) : bool := if Req_dec_T a b then true else false.
Definition Rsame (a : R) : R := a.

(** [a - b] *)
Definition vsub (a b : Vec3 R) : Vec3 R :=
  mkVec3 (vx a - vx b) (vy a - vy b) (vz a - vz b).

(** [v.length2()] *)
Definition length2 (v : Vec3 R) : R :=
  (vx v * vx v + vy v * vy v + vz v * vz v)%R.

(** [v.length()] *)
Definition vlength (v : Vec3 R) : R := sqrt (length2 v).

Definition real_arith : Arith := {|
  double := R;
  float := R;
  d_zero := 0%R;
  d_one := 1%R;
  DBL_MAX := RDBL_MAX;
  d_lit := IZR;
  dadd := Rplus;
  dsub := Rminus;
  ddiv := Rdiv;
  dneg := Ropp;
  dlt := Rltb;
  deq := Reqb;
  d2f := Rsame;
  f2d := Rsame;
  f_zero := 0%R;
  f_one := 1%R;
  fneg := Ropp;
  atan2 := Ratan2;
  cos := Rtrigo_def.cos;
  osg_round := Rround;
  v3d_sub := vsub;
  v3d_length2 := length2;
  v3f_sub := vsub;
  v3f_length := vlength |}.

Canonical Structure real_arith.

(** ** Examples *)

(** The unit square of the specification's example. *)
Definition unit_square : list (Vec3 R) :=
  [mkVec3 0 0 0; mkVec3 1 0 0; mkVec3 1 1 0; mkVec3 0 1 0].

(** A triangle whose longest edge, the first, is vertical. *)
Definition upright_triangle : list (Vec3 R) :=
  [mkVec3 0 0 0; mkVec3 0 3 0; mkVec3 (-1) 1 0].

Definition triangle : list (Vec3 R) :=
  [mkVec3 0 0 0; mkVec3 1 0 0; mkVec3 1 1 0].

(** Two rings at elevations 0 and 10. *)
Definition two_levels : Geometry :=
  mkGeometry TYPE_POLYGON
    [[mkVec3 0 0 0; mkVec3 1 0 0; mkVec3 1 1 0];
     [mkVec3 5 5 10; mkVec3 6 5 10; mkVec3 6 6 10]].

Definition brick : SkinResource := mkSkin 2 3 false MODULATE.
Definition tiled_brick : SkinResource := mkSkin 2 3 true MODULATE.

(** The features of the examples are lists of shapes, the libraries, the
    matrices and the contexts are trivial. *)
Definition PlainFilter : Type :=
  @Filter real_arith (list (@Geometry real_arith)) unit unit unit.

(** A filter as the constructor and [setStyle] leave it. *)
Definition filter_with_style (st : Style) : PlainFilter :=
  setStyle (ExtrudeGeometryFilter (list Geometry) unit unit unit 0 (tt, tt)) st.

(** The same filter when the geometry is not to be merged. *)
Definition unmerged_filter (st : Style) : PlainFilter :=
  {| _maxAngle_deg := 5;
     _mergeGeometry := false;
     _wallAngleThresh_deg := 60;
     _cosWallAngleThresh := 0;
     _styleDirty := true;
     _style := st;
     _extrusionSymbol := None;
     _wallSkinSymbol := None;
     _wallPolygonSymbol := None;
     _roofSkinSymbol := None;
     _roofPolygonSymbol := None;
     _heightExpr := "";
     _heightOffsetExpr := None;
     _featureNameExpr := "";
     _heightCallback := None;
     _wallResLib := None;
     _roofResLib := None;
     _world2local := tt;
     _local2world := tt;
     _geodes := ∅ |}.

(** [push] with trivial collaborators: no style sheet, no libraries, the
    identity for the conversions and for the mesh post-processing. *)
Definition plain_push (f : PlainFilter) (input : list (list Geometry))
    : @PushResult real_arith (list (@Geometry real_arith)) unit unit unit :=
  push (list Geometry) unit unit unit
    (fun _ => false) (fun _ _ => None) (fun _ _ => None) (fun _ => false)
    (fun _ v => v) (fun v _ => v) (fun parts => parts) (fun g => g)
    (fun _ _ => 1%R) (fun _ _ => ""%string) (fun _ _ => []) (fun _ => 0)
    (fun _ _ => None) (fun _ g => g) (fun g => g) (fun g => g) (fun g => g)
    (fun _ => (tt, tt)) (fun _ => mkNode None []) (fun n => n) f input tt 0%nat.

(** The point [p] moved by the vector [d]. *)
Definition translate (d p : Vec3 R) : Vec3 R :=
  mkVec3 (vx p + vx d) (vy p + vy d) (vz p + vz d).


(** * Properties *)

(** ** Tactics *)

(** Settle the comparisons on reals that occur in the goal, when the
    arithmetic decides them. *)
Ltac decide_reals :=
  repeat match goal with
    | |- context [Rlt_dec ?a ?b] => destruct (Rlt_dec a b); try lra
    | |- context [Rgt_dec ?a ?b] => destruct (Rgt_dec a b); try lra
    | |- context [Rle_dec ?a ?b] => destruct (Rle_dec a b); try lra
    | |- context [Rge_dec ?a ?b] => destruct (Rge_dec a b); try lra
    | |- context [Req_dec_T ?a ?b] => destruct (Req_dec_T a b); try lra
    end.

(** Read the operations of [real_arith] as the operations on reals they are. *)
Ltac real_ops :=
  unfold dgt in *;
  cbn [double float d_zero d_one DBL_MAX dadd dsub ddiv dneg dlt deq d2f f2d
       f_zero f_one fneg atan2 osg_round v3d_sub v3d_length2 v3f_sub
       v3f_length real_arith] in *;
  unfold Rltb, Reqb, Rsame in *.

Ltac vec_simpl :=
  cbn [fst snd vx vy vz tu tv vsub length2] in *.

(** ** The arithmetic of [real_arith] *)

Lemma real_ordered_by_lt (P : R -> Prop) : ordered_by_lt (A := real_arith) P.
Proof.
  unfold ordered_by_lt. real_ops.
  split; [intros a _ | split; intros a b c _ _ _];
    decide_reals; first [done | intros; exfalso; lra].
Qed.

Lemma real_lt_strict_order : lt_strict_order (A := real_arith).
Proof.
  unfold lt_strict_order. real_ops.
  split; [intros a | intros a b c];
    decide_reals; first [done | intros; exfalso; lra].
Qed.

(** ** Rotation analysis *)

Section Rotation.

Context {A : Arith}.

(** The values the scan compares, and what is assumed of [<] on them. *)
Variable P : double -> Prop.
Hypothesis P_ordered : ordered_by_lt P.
Hypothesis P_zero : P d_zero.

Lemma edge_angle_code n : edge_angle n = code_edge_angle n.
Proof.
  unfold edge_angle, code_edge_angle.
  destruct (dlt (vx (fst n)) (vx (snd n))); reflexivity.
Qed.

Lemma scan_inv_P pre acc :
  (forall s', s' ∈ pre -> P (seg_len2 s')) ->
  scan_inv pre acc -> P (snd acc).
Proof.
  intros Hpre [_ [[_ ->] | (k & Hk & -> & _)]]; [exact P_zero |].
  apply Hpre. by eapply list_elem_of_lookup_2.
Qed.

Lemma scan_inv_step pre acc s :
  (forall s', s' ∈ pre ++ [s] -> P (seg_len2 s')) ->
  scan_inv pre acc -> scan_inv (pre ++ [s]) (scan_step acc s).
Proof.
  intros HP Hinv.
  assert (Hpre : forall s', s' ∈ pre -> P (seg_len2 s')).
  { intros s' Hs'. apply HP, elem_of_app. by left. }
  assert (Hs : P (seg_len2 s)).
  { apply HP, elem_of_app. right. apply list_elem_of_here. }
  pose proof (scan_inv_P pre acc Hpre Hinv) as Hacc.
  destruct P_ordered as (Hirr & Htrans & Hcmp).
  unfold scan_inv, scan_step, dgt in *. destruct Hinv as [Hall Hret].
  destruct (dlt (snd acc) (seg_len2 s)) eqn:Hgt.
  - split; cbn [fst snd].
    + intros j s' Hj. apply lookup_app_Some in Hj as [Hj | [_ Hj]].
      * destruct (dlt (seg_len2 s) (seg_len2 s')) eqn:Hlt; [| done].
        assert (Hs' : P (seg_len2 s'))
          by (apply Hpre; by eapply list_elem_of_lookup_2).
        rewrite <- (Hall j s' Hj). symmetry.
        by apply (Htrans _ (seg_len2 s)).
      * apply list_lookup_singleton_Some in Hj as [_ <-]. by apply Hirr.
    + right. exists (length pre). split; [| split; [reflexivity | split]].
      * rewrite lookup_app_r by lia. by rewrite Nat.sub_diag.
      * destruct Hret as [[_ Hm] | (k & _ & _ & Hpos & _)].
        -- by rewrite <- Hm.
        -- by apply (Htrans _ (snd acc)).
      * intros j s' Hlt Hj. rewrite lookup_app_l in Hj by lia.
        assert (Hs' : P (seg_len2 s'))
          by (apply Hpre; by eapply list_elem_of_lookup_2).
        apply (Hcmp (snd acc)); [done .. | by apply (Hall j)].
  - split.
    + intros j s' Hj. apply lookup_app_Some in Hj as [Hj | [_ Hj]].
      * by apply (Hall j).
      * by apply list_lookup_singleton_Some in Hj as [_ <-].
    + destruct Hret as [Hnone | (k & Hk & Hm & Hpos & Hfirst)]; [by left | right].
      exists k. split; [| split; [done | split; [done |]]].
      * apply lookup_app_l_Some, Hk.
      * intros j s' Hlt Hj. apply (Hfirst j s' Hlt).
        rewrite lookup_app_l in Hj; [done |].
        apply lookup_lt_Some in Hk. lia.
Qed.

Lemma scan_inv_fold l : forall pre acc,
  (forall s', s' ∈ pre ++ l -> P (seg_len2 s')) ->
  scan_inv pre acc -> scan_inv (pre ++ l) (fold_left scan_step l acc).
Proof.
  induction l as [| s l IH]; intros pre acc HP Hinv; cbn [fold_left].
  - by rewrite app_nil_r.
  - replace (pre ++ s :: l) with ((pre ++ [s]) ++ l) in *
      by (by rewrite <- app_assoc).
    apply IH; [done |]. apply scan_inv_step; [| done].
    intros s' Hs'. apply HP, elem_of_app. by left.
Qed.

Lemma longest_segment_inv pts :
  (forall s', s' ∈ segments pts -> P (seg_len2 s')) ->
  scan_inv (segments pts) (longest_segment pts).
Proof.
  intros HP. unfold longest_segment.
  apply (scan_inv_fold (segments pts) [] ((vec3d_zero, vec3d_zero), d_zero));
    [done |].
  split; [intros j s' Hj; by rewrite lookup_nil in Hj | by left].
Qed.

(** The angle returned is the one of the first longest edge, oriented the
    way the code orients it, when an edge has a positive squared length;
    otherwise nothing is retained and the angle is the one of the default
    segment. *)
Lemma getApparentRotation_first_longest pts :
  (forall s', s' ∈ segments pts -> P (seg_len2 s')) ->
  (exists k s, first_longest (segments pts) k s /\
               dlt d_zero (seg_len2 s) = true /\
               getApparentRotation pts = d2f (code_edge_angle s)) \/
  ((forall s, s ∈ segments pts -> dgt (seg_len2 s) d_zero = false) /\
   getApparentRotation pts =
     d2f (atan2 (dsub d_zero d_zero) (dsub d_zero d_zero))).
Proof.
  intros HP. unfold getApparentRotation.
  destruct (longest_segment_inv pts HP) as [Hall Hret].
  destruct Hret as [[Hn Hm] | (k & Hk & Hm & Hpos & Hfirst)].
  - right. split.
    + intros s Hs. apply list_elem_of_lookup_1 in Hs as [j Hj].
      rewrite <- Hm. by apply (Hall j).
    + rewrite Hn. unfold edge_angle. cbn [fst snd vec3d_zero vx vy].
      by destruct (dlt d_zero d_zero).
  - left. exists k, (fst (longest_segment pts)). split; [| split].
    + split; [done | split].
      * intros j s' Hj. rewrite <- Hm. by apply (Hall j).
      * intros j s' Hlt Hj. rewrite <- Hm. by apply (Hfirst j).
    + by rewrite <- Hm.
    + by rewrite edge_angle_code.
Qed.

End Rotation.

Section RotationExamples.

Local Open Scope R_scope.

Lemma length2_nonneg v : 0 <= length2 v.
Proof. unfold length2. nra. Qed.

Lemma scan_step_gt (acc : Segment * R) (s : Segment) :
  seg_len2 s > snd acc -> scan_step acc s = (s, seg_len2 s).
Proof. intros H. unfold scan_step. real_ops. decide_reals. done. Qed.

Lemma scan_step_le (acc : Segment * R) (s : Segment) :
  seg_len2 s <= snd acc -> scan_step acc s = acc.
Proof.
  intros H. unfold scan_step. real_ops. decide_reals. done.
Qed.

(** Run one iteration of the scan on a concrete edge. *)
Ltac scan_one :=
  lazymatch goal with
  | |- context [fold_left scan_step (?s :: ?l) ?a] =>
      change (fold_left scan_step (s :: l) a)
        with (fold_left scan_step l (scan_step a s));
      first
        [ rewrite (scan_step_gt a s)
            by (unfold seg_len2; real_ops; unfold length2, vsub;
                cbn [fst snd vx vy vz]; lra)
        | rewrite (scan_step_le a s)
            by (unfold seg_len2; real_ops; unfold length2, vsub;
                cbn [fst snd vx vy vz]; lra) ]
  end.

Lemma longest_unit_square :
  fst (longest_segment unit_square) = (mkVec3 0 0 0, mkVec3 1 0 0).
Proof.
  unfold longest_segment, unit_square, segments.
  cbn [zip zip_with app]. do 4 scan_one. reflexivity.
Qed.

Lemma rotation_unit_square : getApparentRotation unit_square = 0.
Proof.
  unfold getApparentRotation. rewrite longest_unit_square.
  unfold edge_angle; cbn [fst snd vx vy]. real_ops. decide_reals. cbn [vx vy].
  unfold Ratan2. decide_reals.
  replace ((0 - 0) / (1 - 0)) with 0 by lra. apply atan_0.
Qed.

Lemma longest_upright_triangle :
  fst (longest_segment upright_triangle) = (mkVec3 0 0 0, mkVec3 0 3 0).
Proof.
  unfold longest_segment, upright_triangle, segments.
  cbn [zip zip_with app]. do 3 scan_one. reflexivity.
Qed.

Lemma rotation_upright_triangle :
  getApparentRotation upright_triangle = - PI / 2.
Proof.
  unfold getApparentRotation. rewrite longest_upright_triangle.
  unfold edge_angle; cbn [fst snd vx vy]. real_ops. decide_reals. cbn [vx vy].
  unfold Ratan2. decide_reals.
Qed.

End RotationExamples.

(** C5 (amended).  [getApparentRotation] compares the squared lengths of the
    edges as the platform computes them.  When these are ordered by [<] and
    one of them is positive, the function returns - converted to [float] -
    [atan2(dy, dx)] of the first edge, in scan order, that no edge exceeds,
    oriented so that its first endpoint has the strictly smaller
    x-coordinate; when the x-coordinates are equal the endpoints are
    exchanged.  When no edge has a positive squared length, it returns the
    angle of the default segment.  For the unit square the angle is 0. *)
Theorem C5_rotation_of_first_longest_edge {A : Arith} (pts : list Vec3d) :
  ordered_by_lt (scanned_lengths pts) ->
  ((exists k s, first_longest (segments pts) k s /\
                dlt d_zero (seg_len2 s) = true /\
                getApparentRotation pts = d2f (code_edge_angle s)) \/
   ((forall s, s ∈ segments pts -> dgt (seg_len2 s) d_zero = false) /\
    getApparentRotation pts =
      d2f (atan2 (dsub d_zero d_zero) (dsub d_zero d_zero)))) /\
  getApparentRotation unit_square = 0%R.
Proof.
  intros Hord. split; [| apply rotation_unit_square].
  apply (getApparentRotation_first_longest (scanned_lengths pts) Hord).
  - by left.
  - intros s' Hs'. right. by exists s'.
Qed.

Lemma C5_rotation_witness :
  ordered_by_lt (scanned_lengths unit_square) /\
  ((exists k s, first_longest (segments unit_square) k s /\
                dlt d_zero (seg_len2 s) = true /\
                getApparentRotation unit_square = d2f (code_edge_angle s)) \/
   ((forall s, s ∈ segments unit_square -> dgt (seg_len2 s) d_zero = false) /\
    getApparentRotation unit_square =
      d2f (atan2 (dsub d_zero d_zero) (dsub d_zero d_zero)))) /\
  getApparentRotation unit_square = 0%R.
Proof.
  split; [apply real_ordered_by_lt |].
  apply (C5_rotation_of_first_longest_edge unit_square).
  apply real_ordered_by_lt.
Defined.

(** C5 as stated fails: with the order of the endpoints kept on equal
    x-coordinates, the upright triangle would have the angle [PI / 2] of its
    first edge, and the code returns [- PI / 2]. *)
Lemma C5_order_not_preserved_on_equal_x :
  ~ (forall pts : list (Vec3 R), segments pts <> [] ->
       exists k s, first_longest (segments pts) k s /\
                   getApparentRotation pts = spec_edge_angle s).
Proof.
  intros H. destruct (H upright_triangle) as (k & s & (Hk & Hall & _) & Hang);
    [discriminate |].
  rewrite rotation_upright_triangle in Hang.
  pose proof PI_RGT_0 as Hpi.
  pose proof (Hall 0%nat _ eq_refl) as H0.
  unfold upright_triangle, segments in Hk; cbn [zip zip_with app] in Hk.
  destruct k as [| [| [| k]]]; cbn in Hk; [| | | discriminate];
    injection Hk as <-; revert H0 Hang;
    unfold spec_edge_angle, seg_len2; real_ops;
    unfold length2, vsub, Ratan2;
    cbn [fst snd vx vy vz]; intros H0 Hang; revert H0 Hang; decide_reals;
    intros; try lra; try discriminate.
Qed.
(** ** Machine integers and arrays *)

Lemma wrap32_small z : 0 <= z < 2 ^ 32 -> wrap32 z = z.
Proof. intros H. unfold wrap32. by apply Z.mod_small. Qed.

Lemma to_int_small z : 0 <= z < 2 ^ 31 -> to_int z = z.
Proof.
  intros H. unfold to_int. rewrite wrap32_small by lia.
  destruct (Z.ltb_spec z (2 ^ 31)); lia.
Qed.

Lemma insert_at_length {A} (pre post : list A) a x i :
  i = length pre -> <[i := x]> (pre ++ a :: post) = pre ++ x :: post.
Proof.
  intros ->. rewrite insert_app_r_alt by lia. by rewrite Nat.sub_diag.
Qed.

Lemma insert_pair_at_length {A} (pre post : list A) a b x y i j :
  i = length pre -> j = S (length pre) ->
  <[j := y]> (<[i := x]> (pre ++ a :: b :: post)) = pre ++ x :: y :: post.
Proof.
  intros -> ->. rewrite (insert_at_length pre (b :: post) a x) by done.
  rewrite insert_app_r_alt by lia.
  by replace (S (length pre) - length pre)%nat with 1%nat by lia.
Qed.

(** ** The loop over the points of a part *)

Section EmissionFacts.

Context {A : Arith}.

Variable toECEF : Vec3d -> Vec3d.
Variables (height targetLen : double) (flatten makeECEF : bool).
Variables (wallSkin : option SkinResource).
Variables (tex_width_m : double) (tex_repeats_y : bool).
Variables (roof base isPolygon : bool).

Local Abbreviation ep :=
  (emit_point toECEF height targetLen flatten makeECEF wallSkin tex_width_m
     tex_repeats_y roof base isPolygon).
Local Abbreviation eps :=
  (emit_points toECEF height targetLen flatten makeECEF wallSkin tex_width_m
     tex_repeats_y roof base isPolygon).
Local Abbreviation rv := (roof_vertex toECEF height targetLen flatten makeECEF).
Local Abbreviation bv := (base_vertex toECEF makeECEF).

(** The primitive sets are not touched inside a part. *)
Lemma emit_points_prims w0 adj pts : forall s,
  wallPrims (outer (eps w0 adj pts s)) = wallPrims (outer s) /\
  roofPrims (outer (eps w0 adj pts s)) = roofPrims (outer s) /\
  basePrims (outer (eps w0 adj pts s)) = basePrims (outer s).
Proof.
  induction pts as [| m rest IH]; intros s; [done |].
  cbn [emit_points]. destruct (IH (ep w0 adj (match rest with [] => true | _ => false end) m s))
    as (-> & -> & ->). done.
Qed.

Lemma emit_points_made w0 adj pts s :
  made_geom (outer (eps w0 adj pts s)) =
  match pts with [] => made_geom (outer s) | _ => true end.
Proof.
  revert s. induction pts as [| m rest IH]; intros s; [done |].
  cbn [emit_points]. rewrite IH. by destruct rest.
Qed.

(** One point: the wall cursor advances by two and the two vertices of the
    point are stored at the cursor. *)
Lemma emit_point_verts w0 adj at_end m s vpre a b vpost :
  0 <= wallVertPtr (outer s) ->
  wallVertPtr (outer s) + 2 < 2 ^ 31 ->
  verts (outer s) = vpre ++ a :: b :: vpost ->
  length vpre = Z.to_nat (wallVertPtr (outer s)) ->
  wallVertPtr (outer (ep w0 adj at_end m s)) = wallVertPtr (outer s) + 2 /\
  verts (outer (ep w0 adj at_end m s)) = vpre ++ rv m :: bv m :: vpost.
Proof.
  intros Hw Hfit Hv Hpre. cbn [emit_point outer wallVertPtr verts]. split.
  - apply wrap32_small. lia.
  - rewrite Hv, to_int_small by lia.
    apply insert_pair_at_length; unfold index_of; lia.
Qed.

(** The wall cursor advances by two per point, and the wall vertices of the
    part are the roof and base vertex of each point, in order. *)
Lemma emit_points_verts w0 adj pts : forall s vpre vmid vpost,
  0 <= wallVertPtr (outer s) ->
  wallVertPtr (outer s) + 2 * Z.of_nat (length pts) < 2 ^ 31 ->
  verts (outer s) = vpre ++ vmid ++ vpost ->
  length vpre = Z.to_nat (wallVertPtr (outer s)) ->
  length vmid = (2 * length pts)%nat ->
  wallVertPtr (outer (eps w0 adj pts s)) =
    wallVertPtr (outer s) + 2 * Z.of_nat (length pts) /\
  verts (outer (eps w0 adj pts s)) =
    vpre ++ flat_map (fun m => [rv m; bv m]) pts ++ vpost.
Proof.
  induction pts as [| m rest IH]; intros s vpre vmid vpost Hw Hfit Hv Hpre Hmid.
  - destruct vmid; [| done]. cbn. split; [lia | done].
  - destruct vmid as [| a [| b vmid]]; [done | cbn in Hmid; lia |].
    cbn [emit_points]. cbn [length] in Hfit, Hmid.
    set (at_end := match rest with [] => true | _ => false end).
    destruct (emit_point_verts w0 adj at_end m s vpre a b (vmid ++ vpost))
      as [Hw1 Hv1]; [done | clear IH; lia | done | done |].
    set (s1 := ep w0 adj at_end m s) in *.
    assert (Hv1' : verts (outer s1) = (vpre ++ [rv m; bv m]) ++ vmid ++ vpost)
      by (by rewrite Hv1, <- app_assoc).
    assert (Hpre1 : length (vpre ++ [rv m; bv m]) = Z.to_nat (wallVertPtr (outer s1)))
      by (clear IH; rewrite length_app; cbn [length]; lia).
    assert (Hw1' : 0 <= wallVertPtr (outer s1)) by (clear IH; lia).
    assert (Hfit1 : wallVertPtr (outer s1) + 2 * Z.of_nat (length rest) < 2 ^ 31)
      by (clear IH; lia).
    assert (Hmid1 : length vmid = (2 * length rest)%nat) by (clear IH; lia).
    destruct (IH s1 _ _ _ Hw1' Hfit1 Hv1' Hpre1 Hmid1) as [Hc Hvs]. clear IH.
    split; [cbn [length]; lia |]. rewrite Hvs. cbn [flat_map app].
    by rewrite <- app_assoc.
Qed.

(** One point: with a wall skin, the texture coordinates of the two
    vertices are stored at the cursor; the first has V = 0, the second
    V = h / tex_height_m_adj. *)
Lemma emit_point_texcoords w0 adj at_end m s vpre a b vpost tpre ta tb tpost :
  non_null wallSkin = true ->
  0 <= wallVertPtr (outer s) ->
  wallVertPtr (outer s) + 2 < 2 ^ 31 ->
  verts (outer s) = vpre ++ a :: b :: vpost ->
  length vpre = Z.to_nat (wallVertPtr (outer s)) ->
  texcoords (outer s) = Some (tpre ++ ta :: tb :: tpost) ->
  length tpre = Z.to_nat (wallVertPtr (outer s)) ->
  exists u,
    texcoords (outer (ep w0 adj at_end m s)) =
    Some (tpre ++ mkVec2 u f_zero ::
            mkVec2 u (d2f (ddiv (wall_tex_h tex_repeats_y adj (rv m) (bv m)) adj))
            :: tpost).
Proof.
  intros Hskin Hw Hfit Hv Hpre Ht Htpre.
  cbn [emit_point outer texcoords]. rewrite Hskin, Ht, Hv.
  rewrite to_int_small by lia. cbn [fmap option_fmap option_map].
  rewrite (insert_pair_at_length vpre vpost a b (rv m) (bv m))
    by (unfold index_of; lia).
  rewrite (list_lookup_total_middle vpre (bv m :: vpost) (rv m))
    by (unfold index_of; lia).
  replace (vpre ++ rv m :: bv m :: vpost)
    with ((vpre ++ [rv m]) ++ bv m :: vpost) by (by rewrite <- app_assoc).
  rewrite (list_lookup_total_middle (vpre ++ [rv m]) vpost (bv m)
             (index_of (wallVertPtr (outer s) + 1)))
    by (rewrite length_app; cbn [length]; unfold index_of; lia).
  eexists. f_equal. apply insert_pair_at_length; unfold index_of; lia.
Qed.

(** All points of a part: the V coordinates written are 0 and
    h / tex_height_m_adj, alternating. *)
Lemma emit_points_texcoords w0 adj pts :
  non_null wallSkin = true ->
  forall s vpre vmid vpost tpre tmid tpost,
  0 <= wallVertPtr (outer s) ->
  wallVertPtr (outer s) + 2 * Z.of_nat (length pts) < 2 ^ 31 ->
  verts (outer s) = vpre ++ vmid ++ vpost ->
  length vpre = Z.to_nat (wallVertPtr (outer s)) ->
  length vmid = (2 * length pts)%nat ->
  texcoords (outer s) = Some (tpre ++ tmid ++ tpost) ->
  length tpre = Z.to_nat (wallVertPtr (outer s)) ->
  length tmid = (2 * length pts)%nat ->
  exists tnew,
    texcoords (outer (eps w0 adj pts s)) = Some (tpre ++ tnew ++ tpost) /\
    tv <$> tnew =
      flat_map
        (fun m => [f_zero;
                   d2f (ddiv (wall_tex_h tex_repeats_y adj (rv m) (bv m)) adj)])
        pts.
Proof.
  intros Hskin.
  induction pts as [| m rest IH];
    intros s vpre vmid vpost tpre tmid tpost Hw Hfit Hv Hpre Hmid Ht Htpre Htmid.
  - destruct tmid; [| done]. exists []. done.
  - destruct vmid as [| a [| b vmid]]; [done | cbn in Hmid; lia |].
    destruct tmid as [| ta [| tb tmid]]; [done | cbn in Htmid; lia |].
    cbn [emit_points]. cbn [length] in Hfit, Hmid, Htmid.
    set (at_end := match rest with [] => true | _ => false end).
    destruct (emit_point_verts w0 adj at_end m s vpre a b (vmid ++ vpost))
      as [Hw1 Hv1]; [done | clear IH; lia | done | done |].
    destruct (emit_point_texcoords w0 adj at_end m s vpre a b (vmid ++ vpost)
                tpre ta tb (tmid ++ tpost))
      as [u Ht1]; [done | done | clear IH; lia | done | done | done | done |].
    set (s1 := ep w0 adj at_end m s) in *.
    set (t0 := mkVec2 u f_zero) in *.
    set (t1 := mkVec2 u (d2f (ddiv (wall_tex_h tex_repeats_y adj (rv m) (bv m))
                                   adj))) in *.
    assert (Hv1' : verts (outer s1) = (vpre ++ [rv m; bv m]) ++ vmid ++ vpost)
      by (by rewrite Hv1, <- app_assoc).
    assert (Ht1' : texcoords (outer s1) = Some ((tpre ++ [t0; t1]) ++ tmid ++ tpost))
      by (by rewrite Ht1, <- app_assoc).
    assert (Hpre1 : length (vpre ++ [rv m; bv m]) = Z.to_nat (wallVertPtr (outer s1)))
      by (clear IH; rewrite length_app; cbn [length]; lia).
    assert (Htpre1 : length (tpre ++ [t0; t1]) = Z.to_nat (wallVertPtr (outer s1)))
      by (clear IH; rewrite length_app; cbn [length]; lia).
    assert (Hw1' : 0 <= wallVertPtr (outer s1)) by (clear IH; lia).
    assert (Hfit1 : wallVertPtr (outer s1) + 2 * Z.of_nat (length rest) < 2 ^ 31)
      by (clear IH; lia).
    assert (Hmid1 : length vmid = (2 * length rest)%nat) by (clear IH; lia).
    assert (Htmid1 : length tmid = (2 * length rest)%nat) by (clear IH; lia).
    destruct (IH s1 _ _ _ _ _ _ Hw1' Hfit1 Hv1' Hpre1 Hmid1 Ht1' Htpre1 Htmid1)
      as (tnew & Hts & Htv). clear IH.
    exists (t0 :: t1 :: tnew). split.
    + rewrite Hts. by rewrite <- app_assoc.
    + cbn [flat_map app fmap list_fmap]. by rewrite <- Htv.
Qed.

(** The indices pushed for a part. *)
Lemma emit_points_idx w0 adj pts : forall s,
  0 <= w0 <= wallVertPtr (outer s) ->
  wallVertPtr (outer s) + 2 * Z.of_nat (length pts) < 2 ^ 31 ->
  idx (eps w0 adj pts s) =
  idx s ++ part_indices isPolygon w0 (wallVertPtr (outer s)) pts.
Proof.
  induction pts as [| m rest IH]; intros s Hw Hfit.
  - cbn. by rewrite app_nil_r.
  - cbn [emit_points]. cbn [length] in Hfit.
    set (at_end := match rest with [] => true | _ => false end).
    assert (Hw1 : wallVertPtr (outer (ep w0 adj at_end m s)) =
                  wallVertPtr (outer s) + 2).
    { cbn [emit_point outer wallVertPtr]. apply wrap32_small. clear IH. lia. }
    assert (Hi1 : idx (ep w0 adj at_end m s) =
                  idx s ++ if at_end
                           then (if isPolygon
                                 then wall_closing (wallVertPtr (outer s)) w0
                                 else [])
                           else wall_quad (wallVertPtr (outer s))).
    { clear IH. cbn [emit_point idx]. unfold closing_indices, quad_indices.
      destruct at_end eqn:Hend.
      - destruct isPolygon; [| by rewrite app_nil_r].
        by rewrite !wrap32_small by lia.
      - destruct rest; [done |]. cbn [length] in Hfit.
        by rewrite !wrap32_small by lia. }
    rewrite IH by (clear IH; lia). rewrite Hi1, Hw1, <- app_assoc. f_equal.
    subst at_end. by destruct rest; [rewrite app_nil_r |].
Qed.

(** The roof vertices of a part, when a roof is requested. *)
Lemma emit_points_roofVerts w0 adj pts :
  roof = true ->
  forall s rpre rmid rpost,
  0 <= roofVertPtr (outer s) ->
  roofVertPtr (outer s) + Z.of_nat (length pts) < 2 ^ 31 ->
  roofVerts (outer s) = Some (rpre ++ rmid ++ rpost) ->
  length rpre = Z.to_nat (roofVertPtr (outer s)) ->
  length rmid = length pts ->
  roofVertPtr (outer (eps w0 adj pts s)) =
    roofVertPtr (outer s) + Z.of_nat (length pts) /\
  roofVerts (outer (eps w0 adj pts s)) = Some (rpre ++ (rv <$> pts) ++ rpost).
Proof.
  intros Hroof.
  induction pts as [| m rest IH]; intros s rpre rmid rpost Hr Hfit Hv Hpre Hmid.
  - destruct rmid; [| done]. cbn. split; [lia | done].
  - destruct rmid as [| a rmid]; [done |].
    cbn [emit_points]. cbn [length] in Hfit, Hmid.
    set (s1 := ep w0 adj _ m s).
    assert (Hr1 : roofVertPtr (outer s1) = roofVertPtr (outer s) + 1).
    { subst s1. cbn [emit_point outer roofVertPtr]. rewrite Hroof.
      apply wrap32_small. clear IH. lia. }
    assert (Hv1 : roofVerts (outer s1) = Some ((rpre ++ [rv m]) ++ rmid ++ rpost)).
    { subst s1. cbn [emit_point outer roofVerts]. rewrite Hroof, Hv.
      cbn [fmap option_fmap option_map app]. f_equal.
      rewrite (insert_at_length rpre (rmid ++ rpost) a (rv m))
        by (unfold index_of; clear IH; lia).
      by rewrite <- app_assoc. }
    assert (Hpre1 : length (rpre ++ [rv m]) = Z.to_nat (roofVertPtr (outer s1)))
      by (clear IH; rewrite length_app; cbn [length]; lia).
    assert (Hr1' : 0 <= roofVertPtr (outer s1)) by (clear IH; lia).
    assert (Hfit1 : roofVertPtr (outer s1) + Z.of_nat (length rest) < 2 ^ 31)
      by (clear IH; lia).
    assert (Hmid1 : length rmid = length rest) by (clear IH; lia).
    destruct (IH s1 _ _ _ Hr1' Hfit1 Hv1 Hpre1 Hmid1) as [Hc Hvs]. clear IH.
    split; [cbn [length]; lia |]. rewrite Hvs. cbn [fmap list_fmap app].
    by rewrite <- app_assoc.
Qed.

(** Without a roof, neither the roof array nor its cursor moves. *)
Lemma emit_points_no_roof w0 adj pts s :
  roof = false ->
  roofVertPtr (outer (eps w0 adj pts s)) = roofVertPtr (outer s) /\
  roofVerts (outer (eps w0 adj pts s)) = roofVerts (outer s).
Proof.
  intros Hroof. revert s. induction pts as [| m rest IH]; intros s; [done |].
  cbn [emit_points]. destruct (IH (ep w0 adj (match rest with [] => true | _ => false end) m s))
    as [-> ->].
  cbn [emit_point outer roofVertPtr roofVerts]. by rewrite Hroof.
Qed.

(** The base vertices of a part as they are written, before the reversal. *)
Lemma emit_points_baseVerts w0 adj pts :
  base = true ->
  forall s bpre bmid bpost,
  0 <= baseVertPtr (outer s) ->
  baseVertPtr (outer s) + Z.of_nat (length pts) < 2 ^ 31 ->
  baseVerts (outer s) = Some (bpre ++ bmid ++ bpost) ->
  length bpre = Z.to_nat (baseVertPtr (outer s)) ->
  length bmid = length pts ->
  baseVertPtr (outer (eps w0 adj pts s)) =
    baseVertPtr (outer s) + Z.of_nat (length pts) /\
  baseVerts (outer (eps w0 adj pts s)) = Some (bpre ++ (bv <$> pts) ++ bpost).
Proof.
  intros Hbase.
  induction pts as [| m rest IH]; intros s bpre bmid bpost Hr Hfit Hv Hpre Hmid.
  - destruct bmid; [| done]. cbn. split; [lia | done].
  - destruct bmid as [| a bmid]; [done |].
    cbn [emit_points]. cbn [length] in Hfit, Hmid.
    set (s1 := ep w0 adj _ m s).
    assert (Hr1 : baseVertPtr (outer s1) = baseVertPtr (outer s) + 1).
    { subst s1. cbn [emit_point outer baseVertPtr]. rewrite Hbase.
      apply wrap32_small. clear IH. lia. }
    assert (Hv1 : baseVerts (outer s1) = Some ((bpre ++ [bv m]) ++ bmid ++ bpost)).
    { subst s1. cbn [emit_point outer baseVerts]. rewrite Hbase, Hv.
      cbn [fmap option_fmap option_map app]. f_equal.
      rewrite (insert_at_length bpre (bmid ++ bpost) a (bv m))
        by (unfold index_of; clear IH; lia).
      by rewrite <- app_assoc. }
    assert (Hpre1 : length (bpre ++ [bv m]) = Z.to_nat (baseVertPtr (outer s1)))
      by (clear IH; rewrite length_app; cbn [length]; lia).
    assert (Hr1' : 0 <= baseVertPtr (outer s1)) by (clear IH; lia).
    assert (Hfit1 : baseVertPtr (outer s1) + Z.of_nat (length rest) < 2 ^ 31)
      by (clear IH; lia).
    assert (Hmid1 : length bmid = length rest) by (clear IH; lia).
    destruct (IH s1 _ _ _ Hr1' Hfit1 Hv1 Hpre1 Hmid1) as [Hc Hvs]. clear IH.
    split; [cbn [length]; lia |]. rewrite Hvs. cbn [fmap list_fmap app].
    by rewrite <- app_assoc.
Qed.

Lemma emit_points_no_base w0 adj pts s :
  base = false ->
  baseVertPtr (outer (eps w0 adj pts s)) = baseVertPtr (outer s) /\
  baseVerts (outer (eps w0 adj pts s)) = baseVerts (outer s).
Proof.
  intros Hbase. revert s. induction pts as [| m rest IH]; intros s; [done |].
  cbn [emit_points]. destruct (IH (ep w0 adj (match rest with [] => true | _ => false end) m s))
    as [-> ->].
  cbn [emit_point outer baseVertPtr baseVerts]. by rewrite Hbase.
Qed.

End EmissionFacts.

(** ** The loop over the parts *)

Lemma length_flat_map_pair {A B} (f g : A -> B) (l : list A) :
  length (flat_map (fun m => [f m; g m]) l) = (2 * length l)%nat.
Proof. induction l as [| a l IH]; cbn [flat_map length app]; lia. Qed.

Lemma split_at {A} (n : nat) (l : list A) (k : nat) :
  length l = (n + k)%nat ->
  l = take n l ++ drop n l /\ length (take n l) = n /\ length (drop n l) = k.
Proof.
  intros H. rewrite take_drop, length_take, length_drop. repeat split; lia.
Qed.

Section PartsFacts.

Context {A : Arith}.

Variable toECEF : Vec3d -> Vec3d.
Variables (height targetLen : double) (flatten makeECEF : bool).
Variables (wallSkin : option SkinResource).
Variables (tex_width_m : double) (tex_repeats_y : bool).
Variables (roof base isPolygon : bool).
Variables (tex_height_m minLoc_z : double).

Local Abbreviation eps :=
  (emit_points toECEF height targetLen flatten makeECEF wallSkin tex_width_m
     tex_repeats_y roof base isPolygon).
Local Abbreviation part_step :=
  (extrude_part toECEF height targetLen flatten makeECEF wallSkin tex_width_m
     tex_repeats_y roof base isPolygon tex_height_m minLoc_z).
Local Abbreviation rv := (roof_vertex toECEF height targetLen flatten makeECEF).
Local Abbreviation bv := (base_vertex toECEF makeECEF).
Local Abbreviation adj := (tex_height_adj (dsub targetLen minLoc_z) tex_height_m).

(** The wall vertices of the whole shape: the roof and base vertex of every
    point of every part, in order. *)
Lemma extrude_parts_verts ps : forall st vpre vmid vpost,
  0 <= wallVertPtr st ->
  wallVertPtr st + 2 * Z.of_nat (length (concat ps)) < 2 ^ 31 ->
  verts st = vpre ++ vmid ++ vpost ->
  length vpre = Z.to_nat (wallVertPtr st) ->
  length vmid = (2 * length (concat ps))%nat ->
  wallVertPtr (fold_left part_step ps st) =
    wallVertPtr st + 2 * Z.of_nat (length (concat ps)) /\
  verts (fold_left part_step ps st) =
    vpre ++ flat_map (fun m => [rv m; bv m]) (concat ps) ++ vpost.
Proof.
  induction ps as [| p ps IH]; intros st vpre vmid vpost Hw Hfit Hv Hpre Hmid.
  - destruct vmid; [| done]. cbn. split; [lia | done].
  - cbn [fold_left concat] in *. rewrite length_app in Hfit, Hmid.
    destruct (split_at (2 * length p) vmid (2 * length (concat ps)))
      as (Hsplit & Hl1 & Hl2); [clear IH; lia |].
    set (v1 := take (2 * length p) vmid) in *.
    set (v2 := drop (2 * length p) vmid) in *.
    destruct (emit_points_verts toECEF height targetLen flatten makeECEF
                wallSkin tex_width_m tex_repeats_y roof base isPolygon
                (wallVertPtr st) adj p (mkPart st d_zero []) vpre v1 (v2 ++ vpost))
      as [Hw1 Hv1]; cbn [outer];
      [done | clear IH; lia | by rewrite Hv, Hsplit, <- app_assoc | done | done |].
    set (st1 := part_step st p).
    assert (Hw1' : wallVertPtr st1 = wallVertPtr st + 2 * Z.of_nat (length p))
      by exact Hw1.
    assert (Hv1' : verts st1 =
              (vpre ++ flat_map (fun m => [rv m; bv m]) p) ++ v2 ++ vpost)
      by (rewrite <- app_assoc; exact Hv1).
    assert (Hpre1 : length (vpre ++ flat_map (fun m => [rv m; bv m]) p) =
                    Z.to_nat (wallVertPtr st1))
      by (clear IH; rewrite length_app, length_flat_map_pair; lia).
    assert (H0 : 0 <= wallVertPtr st1) by (clear IH; lia).
    assert (Hfit1 : wallVertPtr st1 + 2 * Z.of_nat (length (concat ps)) < 2 ^ 31)
      by (clear IH; lia).
    destruct (IH st1 _ _ _ H0 Hfit1 Hv1' Hpre1 Hl2) as [Hc Hvs]. clear IH.
    split; [rewrite length_app; lia |].
    rewrite Hvs, flat_map_app, <- !app_assoc. done.
Qed.

(** The V texture coordinates of the whole shape. *)
Lemma extrude_parts_texcoords ps :
  non_null wallSkin = true ->
  forall st vpre vmid vpost tpre tmid tpost,
  0 <= wallVertPtr st ->
  wallVertPtr st + 2 * Z.of_nat (length (concat ps)) < 2 ^ 31 ->
  verts st = vpre ++ vmid ++ vpost ->
  length vpre = Z.to_nat (wallVertPtr st) ->
  length vmid = (2 * length (concat ps))%nat ->
  texcoords st = Some (tpre ++ tmid ++ tpost) ->
  length tpre = Z.to_nat (wallVertPtr st) ->
  length tmid = (2 * length (concat ps))%nat ->
  exists tnew,
    texcoords (fold_left part_step ps st) = Some (tpre ++ tnew ++ tpost) /\
    tv <$> tnew =
      flat_map
        (fun m => [f_zero;
                   d2f (ddiv (wall_tex_h tex_repeats_y adj (rv m) (bv m)) adj)])
        (concat ps).
Proof.
  intros Hskin.
  induction ps as [| p ps IH];
    intros st vpre vmid vpost tpre tmid tpost Hw Hfit Hv Hpre Hmid Ht Htpre Htmid.
  - destruct tmid; [| done]. exists []. done.
  - cbn [fold_left concat] in *. rewrite length_app in Hfit, Hmid, Htmid.
    destruct (split_at (2 * length p) vmid (2 * length (concat ps)))
      as (Hsplit & Hl1 & Hl2); [clear IH; lia |].
    destruct (split_at (2 * length p) tmid (2 * length (concat ps)))
      as (Htsplit & Htl1 & Htl2); [clear IH; lia |].
    set (v1 := take (2 * length p) vmid) in *.
    set (v2 := drop (2 * length p) vmid) in *.
    set (t1 := take (2 * length p) tmid) in *.
    set (t2 := drop (2 * length p) tmid) in *.
    destruct (emit_points_verts toECEF height targetLen flatten makeECEF
                wallSkin tex_width_m tex_repeats_y roof base isPolygon
                (wallVertPtr st) adj p (mkPart st d_zero []) vpre v1 (v2 ++ vpost))
      as [Hw1 Hv1]; cbn [outer];
      [done | clear IH; lia | by rewrite Hv, Hsplit, <- app_assoc | done | done |].
    destruct (emit_points_texcoords toECEF height targetLen flatten makeECEF
                wallSkin tex_width_m tex_repeats_y roof base isPolygon
                (wallVertPtr st) adj p Hskin (mkPart st d_zero [])
                vpre v1 (v2 ++ vpost) tpre t1 (t2 ++ tpost))
      as (tp & Htp & Htpv); cbn [outer];
      [done | clear IH; lia | by rewrite Hv, Hsplit, <- app_assoc | done | done
      | by rewrite Ht, Htsplit, <- app_assoc | done | done |].
    set (st1 := part_step st p).
    assert (Hw1' : wallVertPtr st1 = wallVertPtr st + 2 * Z.of_nat (length p))
      by exact Hw1.
    assert (Hv1' : verts st1 =
              (vpre ++ flat_map (fun m => [rv m; bv m]) p) ++ v2 ++ vpost)
      by (rewrite <- app_assoc; exact Hv1).
    assert (Ht1' : texcoords st1 = Some ((tpre ++ tp) ++ t2 ++ tpost))
      by (rewrite <- app_assoc; exact Htp).
    assert (Hltp : length tp = (2 * length p)%nat).
    { rewrite <- (length_fmap tv), Htpv. apply length_flat_map_pair. }
    assert (Hpre1 : length (vpre ++ flat_map (fun m => [rv m; bv m]) p) =
                    Z.to_nat (wallVertPtr st1))
      by (clear IH; rewrite length_app, length_flat_map_pair; lia).
    assert (Htpre1 : length (tpre ++ tp) = Z.to_nat (wallVertPtr st1))
      by (clear IH; rewrite length_app; lia).
    assert (H0 : 0 <= wallVertPtr st1) by (clear IH; lia).
    assert (Hfit1 : wallVertPtr st1 + 2 * Z.of_nat (length (concat ps)) < 2 ^ 31)
      by (clear IH; lia).
    destruct (IH st1 _ _ _ _ _ _ H0 Hfit1 Hv1' Hpre1 Hl2 Ht1' Htpre1 Htl2)
      as (tnew & Hts & Htv). clear IH.
    exists (tp ++ tnew). split.
    + rewrite Hts, <- !app_assoc. done.
    + rewrite fmap_app, flat_map_app, Htpv, Htv. done.
Qed.

(** The roof vertices of the whole shape, when a roof is requested. *)
Lemma extrude_parts_roofVerts ps :
  roof = true ->
  forall st rpre rmid rpost,
  0 <= roofVertPtr st ->
  roofVertPtr st + Z.of_nat (length (concat ps)) < 2 ^ 31 ->
  roofVerts st = Some (rpre ++ rmid ++ rpost) ->
  length rpre = Z.to_nat (roofVertPtr st) ->
  length rmid = length (concat ps) ->
  roofVertPtr (fold_left part_step ps st) =
    roofVertPtr st + Z.of_nat (length (concat ps)) /\
  roofVerts (fold_left part_step ps st) =
    Some (rpre ++ (rv <$> concat ps) ++ rpost).
Proof.
  intros Hroof.
  induction ps as [| p ps IH]; intros st rpre rmid rpost Hr Hfit Hv Hpre Hmid.
  - destruct rmid; [| done]. cbn. split; [lia | done].
  - cbn [fold_left concat] in *. rewrite length_app in Hfit, Hmid.
    destruct (split_at (length p) rmid (length (concat ps)))
      as (Hsplit & Hl1 & Hl2); [clear IH; lia |].
    set (r1 := take (length p) rmid) in *.
    set (r2 := drop (length p) rmid) in *.
    destruct (emit_points_roofVerts toECEF height targetLen flatten makeECEF
                wallSkin tex_width_m tex_repeats_y roof base isPolygon
                (wallVertPtr st) adj p Hroof (mkPart st d_zero []) rpre r1 (r2 ++ rpost))
      as [Hr1 Hv1]; cbn [outer];
      [done | clear IH; lia | by rewrite Hv, Hsplit, <- app_assoc | done | done |].
    set (st1 := part_step st p).
    assert (Hr1' : roofVertPtr st1 = roofVertPtr st + Z.of_nat (length p))
      by exact Hr1.
    assert (Hv1' : roofVerts st1 = Some ((rpre ++ (rv <$> p)) ++ r2 ++ rpost))
      by (rewrite <- app_assoc; exact Hv1).
    assert (Hpre1 : length (rpre ++ (rv <$> p)) = Z.to_nat (roofVertPtr st1))
      by (clear IH; rewrite length_app, length_fmap; lia).
    assert (H0 : 0 <= roofVertPtr st1) by (clear IH; lia).
    assert (Hfit1 : roofVertPtr st1 + Z.of_nat (length (concat ps)) < 2 ^ 31)
      by (clear IH; lia).
    destruct (IH st1 _ _ _ H0 Hfit1 Hv1' Hpre1 Hl2) as [Hc Hvs]. clear IH.
    split; [rewrite length_app; lia |].
    rewrite Hvs, fmap_app, <- !app_assoc. done.
Qed.

End PartsFacts.
(** ** The first pass *)

Section Bounds.

Context {A : Arith}.

Lemma fold_left_concat {B C} (f : B -> C -> B) (ls : list (list C)) : forall a,
  fold_left (fun a l => fold_left f l a) ls a = fold_left f (concat ls) a.
Proof.
  induction ls as [| l ls IH]; intros a; [done |].
  cbn [fold_left concat]. by rewrite fold_left_app, IH.
Qed.

Lemma zfinder_concat height input :
  zfinder height input =
  fold_left (zfinder_step height) (concat (parts input)) initial_bounds.
Proof. apply fold_left_concat. Qed.

Hypothesis lt_order : lt_strict_order.

(** One point: its sum does not exceed the new [targetLen], what did not
    exceed the old one does not exceed the new one, and the new one is the
    old one or the sum. *)
Lemma zfinder_step_targetLen height b m :
  let b' := zfinder_step height b m in
  dgt (dadd (vz m) height) (b_targetLen b') = false /\
  (forall v, dgt v (b_targetLen b) = false -> dgt v (b_targetLen b') = false) /\
  (b_targetLen b' = b_targetLen b \/ b_targetLen b' = dadd (vz m) height).
Proof.
  destruct lt_order as [Hirr Htrans].
  cbn [zfinder_step b_targetLen]. unfold dgt.
  destruct (dlt (b_targetLen b) (dadd (vz m) height)) eqn:Hgt.
  - split; [apply Hirr |]. split; [| by right].
    intros v Hv. destruct (dlt (dadd (vz m) height) v) eqn:Hlt; [| done].
    rewrite <- Hv. symmetry. by apply (Htrans _ (dadd (vz m) height)).
  - split; [done |]. split; [done | by left].
Qed.

(** No sum of a point seen exceeds [targetLen], and [targetLen] is its
    start value or the sum of a point seen. *)
Lemma zfinder_targetLen height pts : forall b,
  let b' := fold_left (zfinder_step height) pts b in
  (forall p, p ∈ pts -> dgt (dadd (vz p) height) (b_targetLen b') = false) /\
  (forall v, dgt v (b_targetLen b) = false -> dgt v (b_targetLen b') = false) /\
  (b_targetLen b' = b_targetLen b \/
   exists p, p ∈ pts /\ b_targetLen b' = dadd (vz p) height).
Proof.
  induction pts as [| m pts IH]; intros b; cbn [fold_left].
  - split; [| split; [done | by left]].
    intros p Hp. by apply elem_of_nil in Hp.
  - destruct (IH (zfinder_step height b m)) as (Hall & Hmono & Hatt).
    destruct (zfinder_step_targetLen height b m) as (H1 & H2 & H3).
    set (b' := fold_left (zfinder_step height) pts (zfinder_step height b m)) in *.
    split; [| split].
    + intros p Hp. apply elem_of_cons in Hp as [-> | Hp];
        [by apply Hmono | by apply Hall].
    + intros v Hv. by apply Hmono, H2.
    + destruct Hatt as [Heq | (p & Hp & Heq)].
      * destruct H3 as [H3 | H3]; [left; congruence |].
        right. exists m. split; [apply list_elem_of_here | congruence].
      * right. exists p. split; [by apply list_elem_of_further | done].
Qed.

(** On a shape with points, none of whose sums is below the start value,
    the target length of the first pass is the maximum of
    [point.z + height]. *)
Lemma zfinder_is_max height input :
  concat (parts input) <> [] ->
  finite_tops height (concat (parts input)) ->
  shape_max_top height (concat (parts input)) (b_targetLen (zfinder height input)).
Proof.
  intros Hne Hfin. rewrite zfinder_concat.
  destruct (zfinder_targetLen height (concat (parts input)) initial_bounds)
    as (Hall & _ & Hatt).
  split; [done |]. destruct Hatt as [Heq | Hatt]; [| done].
  destruct (concat (parts input)) as [| p pts] eqn:Hpts; [done |].
  exists p. split; [apply list_elem_of_here |].
  assert (Hp : p ∈ p :: pts) by apply list_elem_of_here.
  pose proof (Hall p Hp) as Hle. rewrite Heq in *.
  cbn [initial_bounds b_targetLen] in *.
  destruct (Hfin p Hp) as [Hgt | Htop]; [congruence | done].
Qed.

End Bounds.

(** ** The index list of a ring *)

Lemma part_indices_flat {A : Arith} isPolygon w0 (pts : list Vec3d) : forall k0,
  pts <> [] ->
  part_indices isPolygon w0 (2 * k0) pts =
  flat_map (fun k => wall_quad (2 * k)) (seqZ k0 (Z.of_nat (length pts) - 1)) ++
  (if isPolygon then wall_closing (2 * (k0 + Z.of_nat (length pts)) - 2) w0 else []).
Proof.
  induction pts as [| m rest IH]; intros k0 Hne; [done |].
  destruct rest as [| m' rest].
  - cbn [part_indices length]. rewrite seqZ_nil by lia. cbn [flat_map app].
    by replace (2 * (k0 + Z.of_nat 1) - 2) with (2 * k0) by lia.
  - change (part_indices isPolygon w0 (2 * k0) (m :: m' :: rest))
      with (wall_quad (2 * k0) ++ part_indices isPolygon w0 (2 * k0 + 2) (m' :: rest)).
    replace (2 * k0 + 2) with (2 * Z.succ k0) by lia.
    rewrite IH by done. rewrite (seqZ_cons k0) by (cbn [length]; lia).
    cbn [flat_map]. rewrite <- app_assoc. do 2 f_equal.
    + do 2 f_equal. cbn [length]. lia.
    + destruct isPolygon; [| done]. f_equal. cbn [length]. lia.
Qed.

Lemma part_indices_ring {A : Arith} isPolygon (pts : list Vec3d) :
  pts <> [] -> part_indices isPolygon 0 0 pts = ring_indices isPolygon (length pts).
Proof.
  intros Hne. change 0 with (2 * 0) at 2.
  rewrite (part_indices_flat isPolygon 0 pts 0 Hne). reflexivity.
Qed.

Lemma length_ring_indices isPolygon n :
  (1 <= n)%nat ->
  length (ring_indices isPolygon n) =
  if isPolygon then (6 * n)%nat else (6 * (n - 1))%nat.
Proof.
  intros Hn. unfold ring_indices. rewrite length_app.
  assert (Hquads : forall l : list Z,
             length (flat_map (fun k => wall_quad (2 * k)) l) = (6 * length l)%nat).
  { induction l as [| k l IH]; [done |].
    cbn [flat_map]. rewrite length_app, IH. cbn [wall_quad length]. lia. }
  rewrite Hquads, length_seqZ. destruct isPolygon; cbn [wall_closing length]; lia.
Qed.

(** ** The arrays [extrudeGeometry] returns *)

Section Results.

Context {A : Arith}.

Variable toECEF : Vec3d -> Vec3d.

Lemma fits_int_counts n :
  fits_int n ->
  wrap32 (Z.of_nat n) = Z.of_nat n /\
  Z.to_nat (wrap32 (2 * wrap32 (Z.of_nat n))) = (2 * n)%nat /\
  Z.to_nat (wrap32 (Z.of_nat n)) = n.
Proof.
  unfold fits_int. intros H.
  assert (H1 : wrap32 (Z.of_nat n) = Z.of_nat n) by (apply wrap32_small; lia).
  rewrite H1, wrap32_small by lia. repeat split; lia.
Qed.

(** The wall vertex array: for every point its roof vertex, then its base
    vertex. *)
Lemma extrudeGeometry_wall_verts input height heightOffset flatten walls roof
    base wallColor roofColor wallSkin roofSkin makeECEF :
  fits_int (length (concat (parts input))) ->
  vertexArray (walls_out (extrudeGeometry toECEF input height heightOffset
                            flatten walls roof base wallColor roofColor
                            wallSkin roofSkin makeECEF)) =
  Some (flat_map
          (fun m => [roof_vertex toECEF (dsub height heightOffset)
                       (target_elevation input height heightOffset)
                       flatten makeECEF m;
                     base_vertex toECEF makeECEF m])
          (concat (parts input))).
Proof.
  intros Hfit. destruct (fits_int_counts _ Hfit) as (Hc1 & Hc2 & Hc3).
  unfold extrudeGeometry, getTotalPointCount. cbn [walls_out vertexArray].
  rewrite Hc2. f_equal.
  match goal with
  | |- verts (fold_left ?f ?ps ?st) = _ =>
      destruct (extrude_parts_verts toECEF (dsub height heightOffset)
                  (target_elevation input height heightOffset) flatten makeECEF
                  wallSkin (from_option imageWidth d_one wallSkin)
                  (from_option isTiled false wallSkin)
                  (non_null roof) (non_null base)
                  (match componentType input with TYPE_POLYGON => true | _ => false end)
                  (from_option imageHeight d_one wallSkin)
                  (vz (b_minLoc (zfinder height input)))
                  ps st [] (replicate (2 * length (concat (parts input))) vec3_zero) [])
        as [_ Hv]
  end; cbn [wallVertPtr verts].
  - lia.
  - unfold fits_int in Hfit. lia.
  - by rewrite app_nil_r.
  - done.
  - apply length_replicate.
  - unfold target_elevation in Hv. rewrite Hv. by rewrite app_nil_r.
Qed.

(** The roof vertex array, when a roof geometry is passed: the roof vertex
    of every point. *)
Lemma extrudeGeometry_roof_verts input height heightOffset flatten walls roof0
    base wallColor roofColor wallSkin roofSkin makeECEF :
  fits_int (length (concat (parts input))) ->
  vertexArray <$> roof_out (extrudeGeometry toECEF input height heightOffset
                              flatten walls (Some roof0) base wallColor roofColor
                              wallSkin roofSkin makeECEF) =
  Some (Some (roof_vertex toECEF (dsub height heightOffset)
                (target_elevation input height heightOffset) flatten makeECEF
              <$> concat (parts input))).
Proof.
  intros Hfit. destruct (fits_int_counts _ Hfit) as (Hc1 & Hc2 & Hc3).
  unfold extrudeGeometry, getTotalPointCount.
  cbn [roof_out fmap option_fmap option_map vertexArray non_null].
  rewrite Hc3. do 2 f_equal.
  match goal with
  | |- roofVerts (fold_left ?f ?ps ?st) = _ =>
      destruct (extrude_parts_roofVerts toECEF (dsub height heightOffset)
                  (target_elevation input height heightOffset) flatten makeECEF
                  wallSkin (from_option imageWidth d_one wallSkin)
                  (from_option isTiled false wallSkin)
                  true (non_null base)
                  (match componentType input with TYPE_POLYGON => true | _ => false end)
                  (from_option imageHeight d_one wallSkin)
                  (vz (b_minLoc (zfinder height input)))
                  ps eq_refl st [] (replicate (length (concat (parts input))) vec3_zero) [])
        as [_ Hv]
  end; cbn [roofVertPtr roofVerts].
  - lia.
  - unfold fits_int in Hfit. lia.
  - by rewrite app_nil_r.
  - done.
  - apply length_replicate.
  - unfold target_elevation in Hv. rewrite Hv. by rewrite app_nil_r.
Qed.

(** The V texture coordinates of the walls, when a wall skin is passed. *)
Lemma extrudeGeometry_wall_texcoords input height heightOffset flatten walls
    roof base wallColor roofColor sk roofSkin makeECEF :
  fits_int (length (concat (parts input))) ->
  exists tcs,
    texCoordArray (walls_out (extrudeGeometry toECEF input height heightOffset
                                flatten walls roof base wallColor roofColor
                                (Some sk) roofSkin makeECEF)) = Some tcs /\
    tv <$> tcs =
    flat_map
      (fun m =>
         [f_zero;
          d2f (ddiv
                 (wall_tex_h (isTiled sk)
                    (adjusted_tile_height input height heightOffset (Some sk))
                    (roof_vertex toECEF (dsub height heightOffset)
                       (target_elevation input height heightOffset) flatten
                       makeECEF m)
                    (base_vertex toECEF makeECEF m))
                 (adjusted_tile_height input height heightOffset (Some sk)))])
      (concat (parts input)).
Proof.
  intros Hfit. destruct (fits_int_counts _ Hfit) as (Hc1 & Hc2 & Hc3).
  unfold extrudeGeometry, getTotalPointCount.
  cbn [walls_out texCoordArray non_null from_option].
  rewrite Hc2.
  match goal with
  | |- exists tcs, texcoords (fold_left ?f ?ps ?st) = _ /\ _ =>
      destruct (extrude_parts_texcoords toECEF (dsub height heightOffset)
                  (target_elevation input height heightOffset) flatten makeECEF
                  (Some sk) (imageWidth sk) (isTiled sk)
                  (non_null roof) (non_null base)
                  (match componentType input with TYPE_POLYGON => true | _ => false end)
                  (imageHeight sk)
                  (vz (b_minLoc (zfinder height input)))
                  ps eq_refl st
                  [] (replicate (2 * length (concat (parts input))) vec3_zero) []
                  [] (replicate (2 * length (concat (parts input))) vec2_zero) [])
        as (tnew & Ht & Htv)
  end; cbn [wallVertPtr verts texcoords].
  - lia.
  - unfold fits_int in Hfit. lia.
  - by rewrite app_nil_r.
  - done.
  - apply length_replicate.
  - by rewrite app_nil_r.
  - done.
  - apply length_replicate.
  - exists tnew. split.
    + unfold target_elevation in Ht. rewrite Ht. by rewrite app_nil_r.
    + exact Htv.
Qed.

(** The primitive set of the walls of a shape of one part. *)
Lemma extrudeGeometry_single_part_indices t pts height heightOffset flatten
    walls roof base wallColor roofColor wallSkin roofSkin makeECEF :
  fits_int (length pts) ->
  pts <> [] ->
  primitiveSets (walls_out (extrudeGeometry toECEF (mkGeometry t [pts]) height
                              heightOffset flatten walls roof base wallColor
                              roofColor wallSkin roofSkin makeECEF)) =
  primitiveSets walls ++
  [DrawElementsUInt_TRIANGLES
     (ring_indices (match t with TYPE_POLYGON => true | _ => false end)
                   (length pts))].
Proof.
  intros Hfit Hne. unfold extrudeGeometry.
  cbn [walls_out primitiveSets parts componentType fold_left].
  unfold extrude_part at 1. cbn [wallPrims wallVertPtr].
  match goal with
  | |- context [emit_points ?a1 ?a2 ?a3 ?a4 ?a5 ?a6 ?a7 ?a8 ?a9 ?a10 ?a11 ?w0 ?adj ?p ?s] =>
      destruct (emit_points_prims a1 a2 a3 a4 a5 a6 a7 a8 a9 a10 a11 w0 adj p s)
        as (Hp & _ & _);
      rewrite Hp;
      rewrite (emit_points_idx a1 a2 a3 a4 a5 a6 a7 a8 a9 a10 a11 w0 adj p s)
  end; cbn [outer wallPrims wallVertPtr idx app].
  - by rewrite part_indices_ring.
  - lia.
  - unfold fits_int in Hfit. lia.
Qed.

End Results.

(** ** Wall mesh of a single ring *)

(** C1.  For a POLYGON of one part with N >= 3 points the wall mesh has 2N
    vertices and one index set of 6N indices (2N triangles): the N - 1 wall
    quads and the closing triangles (2N-2, 2N-1, 0) and (2N-1, 1, 0).  For a
    LINE of one part with N >= 2 points it has 2N vertices and the 6(N-1)
    indices of the N - 1 wall quads only. *)
Theorem C1_wall_mesh_of_single_part {A : Arith} toECEF pts height heightOffset flatten
    walls roof base wallColor roofColor wallSkin roofSkin makeECEF :
  let N := Z.of_nat (length pts) in
  let extrude t :=
    walls_out (extrudeGeometry toECEF (mkGeometry t [pts]) height heightOffset
                 flatten walls roof base wallColor roofColor wallSkin roofSkin
                 makeECEF) in
  let quads := flat_map (fun k => wall_quad (2 * k)) (seqZ 0 (N - 1)) in
  fits_int (length pts) ->
  (3 <= N ->
   length <$> vertexArray (extrude TYPE_POLYGON) = Some (2 * length pts)%nat /\
   primitiveSets (extrude TYPE_POLYGON) =
     primitiveSets walls ++
     [DrawElementsUInt_TRIANGLES
        (quads ++ [2 * N - 2; 2 * N - 1; 0; 2 * N - 1; 1; 0])] /\
   length (quads ++ [2 * N - 2; 2 * N - 1; 0; 2 * N - 1; 1; 0]) =
     (6 * length pts)%nat) /\
  (2 <= N ->
   length <$> vertexArray (extrude TYPE_LINESTRING) = Some (2 * length pts)%nat /\
   primitiveSets (extrude TYPE_LINESTRING) =
     primitiveSets walls ++ [DrawElementsUInt_TRIANGLES quads] /\
   length quads = (6 * (length pts - 1))%nat).
Proof.
  intros N extrude quads Hfit.
  assert (Hconcat : concat [pts] = pts) by apply app_nil_r.
  assert (Hverts : forall t,
             length <$> vertexArray (extrude t) = Some (2 * length pts)%nat).
  { intros t. subst extrude. cbv beta.
    rewrite extrudeGeometry_wall_verts by (cbn [parts]; by rewrite Hconcat).
    cbn [parts fmap option_fmap option_map]. rewrite Hconcat.
    by rewrite length_flat_map_pair. }
  split; intros HN.
  - assert (Hne : pts <> []) by (intros ->; subst N; cbn in HN; lia).
    pose proof (length_ring_indices true (length pts)) as Hlen.
    pose proof (extrudeGeometry_single_part_indices toECEF TYPE_POLYGON pts
                  height heightOffset flatten walls roof base wallColor
                  roofColor wallSkin roofSkin makeECEF Hfit Hne) as Hprims.
    unfold ring_indices in Hlen, Hprims. fold N quads in Hlen, Hprims.
    replace (wall_closing (2 * N - 2) 0)
      with [2 * N - 2; 2 * N - 1; 0; 2 * N - 1; 1; 0] in Hlen, Hprims
      by (unfold wall_closing; replace (2 * N - 2 + 1) with (2 * N - 1) by lia;
          reflexivity).
    split; [apply Hverts |]. split; [exact Hprims | apply Hlen; lia].
  - assert (Hne : pts <> []) by (intros ->; subst N; cbn in HN; lia).
    pose proof (length_ring_indices false (length pts)) as Hlen.
    pose proof (extrudeGeometry_single_part_indices toECEF TYPE_LINESTRING pts
                  height heightOffset flatten walls roof base wallColor
                  roofColor wallSkin roofSkin makeECEF Hfit Hne) as Hprims.
    unfold ring_indices in Hlen, Hprims. fold N quads in Hlen, Hprims.
    rewrite app_nil_r in Hlen, Hprims.
    split; [apply Hverts |]. split; [exact Hprims | apply Hlen; lia].
Qed.

Lemma C1_wall_mesh_witness :
  fits_int 3 /\
  primitiveSets
    (walls_out (extrudeGeometry (fun v => v) (mkGeometry TYPE_POLYGON [triangle])
                  1 0 false new_Geometry None None vec4_zero vec4_zero
                  None None false)) =
  [DrawElementsUInt_TRIANGLES
     [0; 1; 2; 1; 3; 2; 2; 3; 4; 3; 5; 4; 4; 5; 0; 5; 1; 0]].
Proof.
  split; [done |].
  destruct (C1_wall_mesh_of_single_part (fun v => v) triangle 1 0 false
              new_Geometry None None vec4_zero vec4_zero None None false)
    as [Hpoly _]; [done |].
  destruct Hpoly as (_ & Hprims & _); [done |]. exact Hprims.
Defined.


(** ** Flattened roofs *)

Lemma DBL_MAX_pos : (0 < RDBL_MAX)%R.
Proof. unfold RDBL_MAX. apply IZR_lt. done. Qed.

(** C2.  With flatten set and no geocentric conversion, every roof vertex,
    in the roof array and at the top of the walls, of every part is the
    point with the elevation [T - offset], converted to [osg::Vec3f], where
    [T] is the maximum of [point.z + height] over all points of all parts of
    the shape.  The sums, the difference and the maximum are the ones the
    platform computes; of its comparison only irreflexivity and transitivity
    are used. *)
Theorem C2_flat_roof_elevation {A : Arith} toECEF input height heightOffset
    walls roof0 base wallColor roofColor wallSkin roofSkin :
  let pts := concat (parts input) in
  let r := extrudeGeometry toECEF input height heightOffset true walls
             (Some roof0) base wallColor roofColor wallSkin roofSkin false in
  lt_strict_order ->
  fits_int (length pts) ->
  finite_tops height pts ->
  pts <> [] ->
  exists T,
    shape_max_top height pts T /\
    vertexArray <$> roof_out r =
      Some (Some ((fun p => to_Vec3f (mkVec3 (vx p) (vy p) (dsub T heightOffset)))
                    <$> pts)) /\
    vertexArray (walls_out r) =
      Some (flat_map
              (fun p => [to_Vec3f (mkVec3 (vx p) (vy p) (dsub T heightOffset));
                         to_Vec3f p])
              pts).
Proof.
  intros pts r Hord Hfit Hfin Hne. exists (b_targetLen (zfinder height input)).
  split; [by apply zfinder_is_max |]. subst r. split.
  - by rewrite extrudeGeometry_roof_verts.
  - by rewrite extrudeGeometry_wall_verts.
Qed.

Lemma C2_flat_roof_witness :
  lt_strict_order (A := real_arith) /\
  fits_int (length (concat (parts two_levels))) /\
  finite_tops 5 (concat (parts two_levels)) /\
  concat (parts two_levels) <> [] /\
  exists T,
    shape_max_top 5 (concat (parts two_levels)) T /\
    vertexArray <$>
      roof_out (extrudeGeometry (fun v => v) two_levels 5 0 true new_Geometry
                  (Some new_Geometry) None vec4_zero vec4_zero None None false) =
    Some (Some [mkVec3 0 0 (T - 0); mkVec3 1 0 (T - 0); mkVec3 1 1 (T - 0);
                mkVec3 5 5 (T - 0); mkVec3 6 5 (T - 0); mkVec3 6 6 (T - 0)]).
Proof.
  assert (Hfin : finite_tops 5 (concat (parts two_levels))).
  { intros p Hp. pose proof DBL_MAX_pos. left.
    cbn [two_levels parts concat app] in Hp. real_ops.
    repeat (apply elem_of_cons in Hp as [-> | Hp];
            [cbn [vz]; decide_reals; try done |]).
    by apply elem_of_nil in Hp. }
  split; [apply real_lt_strict_order |].
  split; [done |]. split; [exact Hfin |]. split; [done |].
  destruct (C2_flat_roof_elevation (fun v => v) two_levels 5 0 new_Geometry
              new_Geometry None vec4_zero vec4_zero None None)
    as (T & Hmax & Hroof & _);
    [apply real_lt_strict_order | done | exact Hfin | done |].
  exists T. split; [exact Hmax | exact Hroof].
Defined.

(** ** Wall texture coordinates *)

(** C3.  With a wall skin, the wall vertex array holds for every point its
    roof vertex and then its base vertex, and the texture V coordinates at
    the same positions are [0.0f] and [h / adjustedTileHeight], narrowed to
    [float], where [h] is the negated segment height: the negated adjusted
    tile height in stretch mode and the negated distance between the two
    stored vertices in repeat mode. *)
Theorem C3_wall_texture_v {A : Arith} toECEF input height heightOffset flatten
    walls roof base wallColor roofColor sk roofSkin makeECEF :
  let pts := concat (parts input) in
  let r := extrudeGeometry toECEF input height heightOffset flatten walls roof
             base wallColor roofColor (Some sk) roofSkin makeECEF in
  let adj := adjusted_tile_height input height heightOffset (Some sk) in
  let roofV := roof_vertex toECEF (dsub height heightOffset)
                 (target_elevation input height heightOffset) flatten makeECEF in
  let baseV := base_vertex toECEF makeECEF in
  fits_int (length pts) ->
  vertexArray (walls_out r) = Some (flat_map (fun m => [roofV m; baseV m]) pts) /\
  exists tcs,
    texCoordArray (walls_out r) = Some tcs /\
    tv <$> tcs =
    flat_map
      (fun m =>
         [f_zero;
          d2f (ddiv (wall_tex_h (isTiled sk) adj (roofV m) (baseV m)) adj)])
      pts /\
    (isTiled sk = false ->
     tv <$> tcs = flat_map (fun _ => [f_zero; d2f (ddiv (dneg adj) adj)]) pts) /\
    (isTiled sk = true ->
     tv <$> tcs =
     flat_map
       (fun m =>
          [f_zero;
           d2f (ddiv (f2d (fneg (v3f_length (v3f_sub (roofV m) (baseV m)))))
                     adj)])
       pts).
Proof.
  intros pts r adj roofV baseV Hfit. split.
  - by apply extrudeGeometry_wall_verts.
  - destruct (extrudeGeometry_wall_texcoords toECEF input height heightOffset
                flatten walls roof base wallColor roofColor sk roofSkin makeECEF
                Hfit) as (tcs & Htcs & Htv).
    exists tcs. split; [exact Htcs |]. split; [exact Htv |].
    split; intros Hmode; rewrite Htv, Hmode; reflexivity.
Qed.

Lemma C3_wall_texture_witness :
  fits_int (length (concat [triangle])) /\
  exists tcs,
    texCoordArray
      (walls_out (extrudeGeometry (fun v => v) (mkGeometry TYPE_POLYGON [triangle])
                    4 0 false new_Geometry None None vec4_zero vec4_zero
                    (Some tiled_brick) None false)) = Some tcs /\
    length (tv <$> tcs) = 6%nat.
Proof.
  split; [done |].
  destruct (C3_wall_texture_v (fun v => v) (mkGeometry TYPE_POLYGON [triangle])
              4 0 false new_Geometry None None vec4_zero vec4_zero
              tiled_brick None false)
    as (_ & tcs & Htcs & Htv & _); [done |].
  exists tcs. split; [exact Htcs |]. by rewrite Htv.
Defined.


(** ** The tile height adjustment *)

Section TileDivisor.

Context {A : Arith}.

Hypothesis zero_laws : zero_quotients.

(** The guarded divisor never compares equal to zero. *)
Lemma tile_div_nonzero maxHeight tex_height_m :
  deq (tile_div maxHeight tex_height_m) d_zero = false.
Proof.
  destruct zero_laws as (_ & Hone & _). unfold tile_div.
  by destruct (deq (osg_round (ddiv maxHeight tex_height_m)) d_zero) eqn:Hz.
Qed.

(** When [maxHeight] is zero and the tile height is a number other than
    zero, the divisor is 1 and the adjusted tile height is zero. *)
Lemma tex_height_adj_of_zero maxHeight tex_height_m :
  deq maxHeight d_zero = true ->
  deq tex_height_m tex_height_m = true ->
  deq tex_height_m d_zero = false ->
  tile_div maxHeight tex_height_m = d_one /\
  deq (tex_height_adj maxHeight tex_height_m) d_zero = true.
Proof.
  destruct zero_laws as (Hone1 & Hone0 & Hround & Hdiv).
  intros Hzero Hnum Hnz. unfold tex_height_adj, tile_div.
  rewrite (Hround _ (Hdiv _ _ Hzero Hnum Hnz)).
  split; [done |]. by apply Hdiv.
Qed.

End TileDivisor.


Section TileHeightExamples.

Local Open Scope R_scope.

Lemma real_zero_quotients : zero_quotients (A := real_arith).
Proof.
  unfold zero_quotients. real_ops. split; [| split; [| split]].
  - decide_reals; try done.
  - decide_reals; try done.
  - intros x. destruct (Req_dec_T x 0) as [-> |]; [| done]. intros _.
    destruct (Req_dec_T (Rround 0) 0) as [| Hn]; [done |]. exfalso. apply Hn.
    unfold Rround. destruct (Rge_dec 0 0) as [_ | Hge]; [| lra].
    unfold Rfloor. f_equal. symmetry.
    apply Int_part_spec. lra.
  - intros x y. destruct (Req_dec_T x 0) as [-> |]; [| done]. intros _ _ _.
    destruct (Req_dec_T (0 / y) 0) as [| Hn]; [done |]. exfalso. apply Hn.
    unfold Rdiv. lra.
Qed.

Lemma zfinder_step_mk (h t : R) mn mx (m : Vec3 R) :
  zfinder_step h (mkBounds t mn mx) m =
  mkBounds (if Rlt_dec t (vz m + h) then vz m + h else t)
           (if Rlt_dec (vz m) (vz mn) then m else mn)
           (if Rlt_dec (vz mx) (vz m) then m else mx).
Proof.
  unfold zfinder_step. cbn [b_targetLen b_minLoc b_maxLoc]. real_ops.
  by repeat destruct (Rlt_dec _ _).
Qed.

(** Run the first pass on one concrete point. *)
Ltac zfinder_one :=
  lazymatch goal with
  | |- context [fold_left (zfinder_step ?h) (?m :: ?l) ?b] =>
      change (fold_left (zfinder_step h) (m :: l) b)
        with (fold_left (zfinder_step h) l (zfinder_step h b m));
      rewrite zfinder_step_mk; cbn [vz]; decide_reals
  end.

Lemma zfinder_triangle (h : R) :
  0 <= h ->
  zfinder h (mkGeometry TYPE_POLYGON [triangle]) =
  mkBounds (0 + h) (mkVec3 0 0 0) (mkVec3 0 0 0).
Proof.
  intros Hh. pose proof DBL_MAX_pos. rewrite zfinder_concat.
  unfold initial_bounds, triangle. cbn [parts concat app]. real_ops.
  do 3 zfinder_one. reflexivity.
Qed.

End TileHeightExamples.



(** ** Base vertices *)

(** C4 (the code at a shape of two parts).  The base vertices of the first
    part come out in reverse order, those of the second part in the order of
    the input: the reversal loop starts at [basePartPtr] but is bounded by
    [len / 2], so it does nothing for a part that does not start at 0. *)
Theorem C4_second_part_base_not_reversed :
  vertexArray <$>
    base_out (extrudeGeometry (fun v => v) two_levels 1 0 false new_Geometry
                None (Some new_Geometry) vec4_zero vec4_zero None None false) =
  Some (Some [mkVec3 1 1 0; mkVec3 1 0 0; mkVec3 0 0 0;
              mkVec3 5 5 10; mkVec3 6 5 10; mkVec3 6 6 10]).
Proof. vm_compute. reflexivity. Qed.

(** The example of the specification, a shape of one part: reversed. *)
Example base_of_single_triangle_reversed :
  vertexArray <$>
    base_out (extrudeGeometry (fun v => v) (mkGeometry TYPE_POLYGON [triangle])
                1 0 false new_Geometry None (Some new_Geometry)
                vec4_zero vec4_zero None None false) =
  Some (Some [mkVec3 1 1 0; mkVec3 1 0 0; mkVec3 0 0 0]).
Proof. vm_compute. reflexivity. Qed.

(** ** Roof texture coordinates *)

(** C9.  With a roof and a roof skin, the roof texture coordinate array has
    one entry per point and every entry is the default (0, 0), whatever the
    shape and whatever the rotation computed from it. *)
Theorem C9_roof_texcoords_stay_default {A : Arith} toECEF input height
    heightOffset flatten walls roof0 base wallColor roofColor wallSkin
    roofSkin0 makeECEF :
  fits_int (length (concat (parts input))) ->
  exists tcs,
    texCoordArray <$>
      roof_out (extrudeGeometry toECEF input height heightOffset flatten walls
                  (Some roof0) base wallColor roofColor wallSkin (Some roofSkin0)
                  makeECEF) = Some (Some tcs) /\
    length tcs = length (concat (parts input)) /\
    forall t, t ∈ tcs -> t = vec2_zero.
Proof.
  intros Hfit. destruct (fits_int_counts _ Hfit) as (_ & _ & Hcount).
  exists (replicate (Z.to_nat (wrap32 (getTotalPointCount input))) vec2_zero).
  split; [reflexivity |]. split.
  - rewrite length_replicate. exact Hcount.
  - intros t Ht. by apply elem_of_replicate in Ht as [-> _].
Qed.

Lemma C9_roof_texcoords_witness :
  fits_int (length (concat [triangle])) /\
  exists tcs,
    texCoordArray <$>
      roof_out (extrudeGeometry (fun v => v) (mkGeometry TYPE_POLYGON [triangle])
                  1 0 false new_Geometry (Some new_Geometry) None vec4_zero
                  vec4_zero None (Some brick) false) = Some (Some tcs) /\
    length tcs = 3%nat /\
    forall t, t ∈ tcs -> t = vec2_zero.
Proof.
  split; [done |].
  apply (C9_roof_texcoords_stay_default (fun v => v)
           (mkGeometry TYPE_POLYGON [triangle]) 1 0 false new_Geometry
           new_Geometry None vec4_zero vec4_zero None brick false).
  done.
Defined.

(** ** [push] without symbology or without features *)

Section PushFacts.

Context {A : Arith}.

Variables Feature ResourceLibrary Matrix FilterContext : Type.
Variable has_sheet : FilterContext -> bool.
Variable getStyle : FilterContext -> string -> option Style.
Variable getResourceLibrary : FilterContext -> string -> option ResourceLibrary.
Variable isGeocentric : FilterContext -> bool.
Variable transformToECEF : FilterContext -> Vec3d -> Vec3d.
Variable postMult : Vec3d -> Matrix -> Vec3d.
Variable feature_parts : Feature -> list Geometry.
Variable open_polygon : Geometry -> Geometry.
Variable eval_number : Feature -> string -> double.
Variable eval_string : Feature -> string -> string.
Variable getSkins : ResourceLibrary -> SkinSymbol -> list SkinResource.
Variable rand_values : nat -> Z.
Variable getStateSet : FilterContext -> SkinResource -> option positive.
Variable smooth_walls : double -> OsgGeometry -> OsgGeometry.
Variable smooth_roof tessellate : OsgGeometry -> OsgGeometry.
Variable consolidate : Geode -> Geode.
Variable computeLocalizers : FilterContext -> Matrix * Matrix.
Variable createDelocalizeGroup : Matrix * Matrix -> Node Matrix.
Variable merge_geometry : Node Matrix -> Node Matrix.

Local Abbreviation push_ :=
  (push Feature ResourceLibrary Matrix FilterContext has_sheet getStyle
     getResourceLibrary isGeocentric transformToECEF postMult feature_parts
     open_polygon eval_number eval_string getSkins rand_values getStateSet
     smooth_walls smooth_roof tessellate consolidate computeLocalizers
     createDelocalizeGroup merge_geometry).
Local Abbreviation reset_ :=
  (reset Feature ResourceLibrary Matrix FilterContext has_sheet getStyle).

(** The extrusion symbol a filter works with: the one of its style when
    the style was set since the last call, the one kept otherwise. *)
Lemma reset_extrusionSymbol f cx :
  _extrusionSymbol (reset_ f cx) = configured_extrusion f.
Proof. unfold reset, configured_extrusion. by destruct (_styleDirty f). Qed.

Lemma reset_geodes f cx : _geodes (reset_ f cx) = ∅.
Proof. unfold reset. by destruct (_styleDirty f). Qed.

Lemma reset_mergeGeometry f cx :
  _mergeGeometry (reset_ f cx) = _mergeGeometry f.
Proof. unfold reset. by destruct (_styleDirty f). Qed.

Lemma push_without_symbol f0 input cx calls :
  configured_extrusion f0 = None ->
  node (push_ f0 input cx calls) = new_Group /\
  warnings (push_ f0 input cx calls) = [missing_symbology_warning].
Proof.
  intros Hnone. unfold push. rewrite reset_extrusionSymbol, Hnone. done.
Qed.

Lemma push_without_features f0 cx calls :
  is_Some (configured_extrusion f0) ->
  node (push_ f0 [] cx calls) =
  if _mergeGeometry f0
  then merge_geometry (createDelocalizeGroup (computeLocalizers cx))
  else createDelocalizeGroup (computeLocalizers cx).
Proof.
  intros [e He]. unfold push. rewrite reset_extrusionSymbol, He.
  cbn [non_null negb].
  destruct (load_library _ _ _ _ _ (_wallSkinSymbol _) _) as [wallResLib warn1].
  destruct (load_library _ _ _ _ _ (_roofSkinSymbol _) _) as [roofResLib warn2].
  unfold process, push_members.
  cbn [fold_left _geodes _mergeGeometry _featureNameExpr _world2local
       _local2world].
  rewrite reset_geodes, reset_mergeGeometry. cbn [node].
  assert (Hempty : forall b : bool,
             (map_to_list (if b then consolidate <$> (∅ : GeodeMap) else ∅)).*2 = []).
  { intros []; [rewrite fmap_empty |]; by rewrite map_to_list_empty. }
  rewrite Hempty, app_nil_r. destruct (computeLocalizers cx) as [w2l l2w].
  cbn [fst snd]. by destruct (createDelocalizeGroup (w2l, l2w)).
Qed.

(** C8.  Without an extrusion symbol, [push] logs the warning and returns
    a new, empty group, whatever the features; with a symbol and no feature
    it returns the group made by [createDelocalizeGroup], for the localizers
    of the context, with no child added (handed to the optimizer when
    geometry is merged). *)
Theorem C8_push_without_symbol_or_features f0 input cx calls :
  (configured_extrusion f0 = None ->
   node (push_ f0 input cx calls) = mkNode None [] /\
   warnings (push_ f0 input cx calls) = [missing_symbology_warning]) /\
  (is_Some (configured_extrusion f0) ->
   node (push_ f0 [] cx calls) =
   if _mergeGeometry f0
   then merge_geometry (createDelocalizeGroup (computeLocalizers cx))
   else createDelocalizeGroup (computeLocalizers cx)).
Proof.
  split.
  - apply push_without_symbol.
  - apply push_without_features.
Qed.

End PushFacts.

Lemma C8_push_witness :
  configured_extrusion (A := real_arith)
    (filter_with_style (mkStyle None None None)) = None /\
  node (plain_push (filter_with_style (mkStyle None None None))
                   [[mkGeometry TYPE_POLYGON [triangle]]]) = mkNode None [] /\
  is_Some (configured_extrusion
             (filter_with_style
                (mkStyle (Some (mkExtrusionSymbol None 10 false None None false))
                         None None))) /\
  node (plain_push
          (filter_with_style
             (mkStyle (Some (mkExtrusionSymbol None 10 false None None false))
                      None None)) []) = mkNode None [].
Proof.
  split; [done |]. split.
  - apply (C8_push_without_symbol_or_features (list Geometry) unit unit unit).
    done.
  - split; [by eexists |].
    apply (C8_push_without_symbol_or_features (list Geometry) unit unit unit
             (fun _ => false) (fun _ _ => None) (fun _ _ => None) (fun _ => false)
             (fun _ v => v) (fun v _ => v) (fun parts => parts) (fun g => g)
             (fun _ _ => 1%R) (fun _ _ => ""%string) (fun _ _ => []) (fun _ => 0)
             (fun _ _ => None) (fun _ g => g) (fun g => g) (fun g => g)
             (fun g => g) (fun _ => (tt, tt)) (fun _ => mkNode None [])
             (fun n => n)
             (filter_with_style
                (mkStyle (Some (mkExtrusionSymbol None 10 false None None false))
                         None None))
             [] tt 0%nat).
    by eexists.
Defined.

(** ** Empty and one-point parts *)

Section SkippedParts.

Context {A : Arith}.

Variable toECEF : Vec3d -> Vec3d.
Variables (height targetLen : double) (flatten makeECEF : bool).
Variables (wallSkin : option SkinResource).
Variables (tex_width_m : double) (tex_repeats_y : bool).
Variables (roof base isPolygon : bool).
Variables (tex_height_m minLoc_z : double).

Local Abbreviation ep :=
  (emit_point toECEF height targetLen flatten makeECEF wallSkin tex_width_m
     tex_repeats_y roof base isPolygon).
Local Abbreviation eps :=
  (emit_points toECEF height targetLen flatten makeECEF wallSkin tex_width_m
     tex_repeats_y roof base isPolygon).
Local Abbreviation part_step :=
  (extrude_part toECEF height targetLen flatten makeECEF wallSkin tex_width_m
     tex_repeats_y roof base isPolygon tex_height_m minLoc_z).

Lemma set_prims_self st :
  set_prims (wallPrims st) (roofPrims st) (basePrims st) st = st.
Proof. by destruct st. Qed.

(** The loop over the points neither reads nor writes the primitive sets. *)
Lemma emit_points_set_prims w r b w0 adj pts : forall s,
  eps w0 adj pts (mkPart (set_prims w r b (outer s)) (partLen s) (idx s)) =
  mkPart (set_prims w r b (outer (eps w0 adj pts s)))
         (partLen (eps w0 adj pts s)) (idx (eps w0 adj pts s)).
Proof.
  induction pts as [| m rest IH]; intros s; [done |].
  cbn [emit_points]. rewrite <- IH. reflexivity.
Qed.

(** A part appends its primitive sets, which depend on the arrays and the
    cursors only. *)
Lemma extrude_part_set_prims st p :
  exists dw dr db, forall w r b,
    part_step (set_prims w r b st) p =
    set_prims (w ++ dw) (r ++ dr) (b ++ db) (part_step st p).
Proof.
  set (s := eps (wallVertPtr st) (tex_height_adj (dsub targetLen minLoc_z) tex_height_m)
                p (mkPart st d_zero [])).
  exists [DrawElementsUInt_TRIANGLES (idx s)],
    (if roof
     then [DrawArrays_LINE_LOOP (to_int (roofVertPtr st))
             (to_int (wrap32 (roofVertPtr (outer s) - roofVertPtr st)))]
     else []),
    (if base
     then [DrawArrays_LINE_LOOP (to_int (baseVertPtr st))
             (to_int (wrap32 (baseVertPtr (outer s) - baseVertPtr st)))]
     else []).
  intros w r b. unfold extrude_part.
  change (wallVertPtr (set_prims w r b st)) with (wallVertPtr st).
  change (roofVertPtr (set_prims w r b st)) with (roofVertPtr st).
  change (baseVertPtr (set_prims w r b st)) with (baseVertPtr st).
  pose proof (emit_points_set_prims w r b (wallVertPtr st)
                (tex_height_adj (dsub targetLen minLoc_z) tex_height_m) p
                (mkPart st d_zero [])) as H.
  cbn [outer partLen idx] in H. rewrite H. fold s.
  unfold set_prims.
  cbn [outer idx verts texcoords roofVerts baseVerts wallVertPtr roofVertPtr
       baseVertPtr made_geom wallPrims roofPrims basePrims].
  destruct roof, base; by rewrite ?app_nil_r.
Qed.

Lemma extrude_parts_set_prims ps : forall st,
  exists Xw Xr Xb, forall w r b,
    fold_left part_step ps (set_prims w r b st) =
    set_prims (w ++ Xw) (r ++ Xr) (b ++ Xb) (fold_left part_step ps st).
Proof.
  induction ps as [| p ps IH]; intros st.
  - exists [], [], []. intros w r b. cbn [fold_left]. by rewrite !app_nil_r.
  - destruct (extrude_part_set_prims st p) as (dw & dr & db & Hp).
    destruct (IH (part_step st p)) as (Xw & Xr & Xb & Hps).
    exists (dw ++ Xw), (dr ++ Xr), (db ++ Xb). intros w r b.
    cbn [fold_left]. by rewrite Hp, Hps, !app_assoc.
Qed.

Lemma reverse_base_empty b a :
  0 <= b < 2 ^ 31 -> reverse_base b b a = a.
Proof.
  intros Hb. unfold reverse_base. rewrite Z.sub_diag.
  change (to_int (wrap32 0)) with 0. rewrite to_int_small by done.
  change (Z.quot 0 2) with 0. by rewrite seqZ_nil by lia.
Qed.

(** A part without points leaves the arrays, the cursors and the flag as
    they are and adds an empty index set and line loops without vertices. *)
Lemma extrude_part_nil st :
  0 <= baseVertPtr st < 2 ^ 31 ->
  part_step st [] =
  set_prims
    (wallPrims st ++ [DrawElementsUInt_TRIANGLES []])
    (roofPrims st ++
     if roof then [DrawArrays_LINE_LOOP (to_int (roofVertPtr st)) 0] else [])
    (basePrims st ++
     if base then [DrawArrays_LINE_LOOP (to_int (baseVertPtr st)) 0] else [])
    st.
Proof.
  intros Hb. unfold extrude_part, set_prims.
  cbn [emit_points outer idx verts texcoords roofVerts baseVerts wallVertPtr
       roofVertPtr baseVertPtr made_geom wallPrims roofPrims basePrims].
  rewrite !Z.sub_diag. change (to_int (wrap32 0)) with 0. f_equal.
  - destruct base; [| done]. destruct (baseVerts st) as [a |]; [| done].
    cbn. by rewrite reverse_base_empty.
  - destruct roof; [done | by rewrite app_nil_r].
  - destruct base; [done | by rewrite app_nil_r].
Qed.

Lemma emit_points_base_cursor w0 adj pts : forall s,
  0 <= baseVertPtr (outer s) ->
  baseVertPtr (outer s) + Z.of_nat (length pts) < 2 ^ 31 ->
  baseVertPtr (outer s) <= baseVertPtr (outer (eps w0 adj pts s))
    <= baseVertPtr (outer s) + Z.of_nat (length pts).
Proof.
  induction pts as [| m rest IH]; intros s Hb Hfit; [cbn; lia |].
  cbn [emit_points]. cbn [length] in *.
  set (s1 := ep w0 adj _ m s).
  assert (H1 : baseVertPtr (outer s) <= baseVertPtr (outer s1)
               <= baseVertPtr (outer s) + 1).
  { subst s1. cbn [emit_point outer baseVertPtr]. clear IH.
    destruct base; [rewrite wrap32_small |]; lia. }
  assert (H2 : 0 <= baseVertPtr (outer s1)) by (clear IH; lia).
  assert (H3 : baseVertPtr (outer s1) + Z.of_nat (length rest) < 2 ^ 31)
    by (clear IH; lia).
  specialize (IH s1 H2 H3). lia.
Qed.

Lemma extrude_parts_base_cursor ps : forall st,
  0 <= baseVertPtr st ->
  baseVertPtr st + Z.of_nat (length (concat ps)) < 2 ^ 31 ->
  baseVertPtr st <= baseVertPtr (fold_left part_step ps st)
    <= baseVertPtr st + Z.of_nat (length (concat ps)).
Proof.
  induction ps as [| p ps IH]; intros st Hb Hfit; [cbn; lia |].
  cbn [fold_left concat] in *. rewrite length_app in *.
  pose proof (emit_points_base_cursor (wallVertPtr st)
                (tex_height_adj (dsub targetLen minLoc_z) tex_height_m) p
                (mkPart st d_zero [])) as H1.
  cbn [outer] in H1.
  assert (Hp : baseVertPtr st <= baseVertPtr (part_step st p)
               <= baseVertPtr st + Z.of_nat (length p))
    by (apply H1; clear IH; lia).
  assert (H2 : 0 <= baseVertPtr (part_step st p)) by (clear IH; lia).
  assert (H3 : baseVertPtr (part_step st p) + Z.of_nat (length (concat ps)) < 2 ^ 31)
    by (clear IH; lia).
  specialize (IH (part_step st p) H2 H3). lia.
Qed.

(** The states at the end of the second pass with and without an empty part
    between the parts [ps1] and [ps2], started from the same state. *)
Lemma extrude_parts_empty_part ps1 ps2 st :
  0 <= baseVertPtr st ->
  baseVertPtr st + Z.of_nat (length (concat ps1)) < 2 ^ 31 ->
  exists F W X R1 R2 B1 B2 kr kb,
    fold_left part_step (ps1 ++ ps2) st =
      set_prims (W ++ X) (R1 ++ R2) (B1 ++ B2) F /\
    fold_left part_step (ps1 ++ [] :: ps2) st =
      set_prims (W ++ DrawElementsUInt_TRIANGLES [] :: X)
        (R1 ++ (if roof then [DrawArrays_LINE_LOOP kr 0] else []) ++ R2)
        (B1 ++ (if base then [DrawArrays_LINE_LOOP kb 0] else []) ++ B2) F.
Proof.
  intros Hb Hfit. rewrite !fold_left_app. cbn [fold_left].
  set (S1 := fold_left part_step ps1 st).
  pose proof (extrude_parts_base_cursor ps1 st Hb Hfit) as HA. fold S1 in HA.
  rewrite (extrude_part_nil S1) by lia.
  destruct (extrude_parts_set_prims ps2 S1) as (Xw & Xr & Xb & Hps).
  exists (fold_left part_step ps2 S1), (wallPrims S1), Xw, (roofPrims S1), Xr,
    (basePrims S1), Xb, (to_int (roofVertPtr S1)), (to_int (baseVertPtr S1)).
  split.
  - rewrite <- (set_prims_self S1) at 1. apply Hps.
  - rewrite Hps, <- !app_assoc. reflexivity.
Qed.

End SkippedParts.

Lemma extrudeGeometry_final {A : Arith} toECEF input height heightOffset flatten walls roof
    base wallColor roofColor wallSkin roofSkin makeECEF :
  let final := final_state toECEF input height heightOffset flatten walls roof
                 base wallSkin makeECEF in
  let useColor :=
    from_option (fun sk => negb (is_DECAL (texEnvMode sk))) true wallSkin in
  extrudeGeometry toECEF input height heightOffset flatten walls roof base
    wallColor roofColor wallSkin roofSkin makeECEF =
  mkResult (made_geom final)
    (mkOsgGeometry (Some (verts final))
       (if non_null wallSkin then texcoords final else texCoordArray walls)
       (if useColor then Some [wallColor] else colorArray walls)
       (if useColor then BIND_OVERALL else colorBinding walls)
       (wallPrims final))
    ((fun g =>
        mkOsgGeometry (roofVerts final)
          (if non_null roofSkin
           then (if non_null roof && non_null roofSkin
                 then Some (replicate
                              (Z.to_nat (wrap32 (getTotalPointCount input)))
                              vec2_zero)
                 else None)
           else texCoordArray g)
          (Some [roofColor]) BIND_OVERALL (roofPrims final)) <$> roof)
    ((fun g =>
        mkOsgGeometry (baseVerts final) (texCoordArray g) (colorArray g)
          (colorBinding g) (basePrims final)) <$> base).
Proof. reflexivity. Qed.

Lemma final_state_empty_part {A : Arith} toECEF t ps1 ps2 height heightOffset flatten walls
    roof base wallSkin makeECEF :
  fits_int (length (concat (ps1 ++ ps2))) ->
  exists F W X R1 R2 B1 B2 kr kb,
    final_state toECEF (mkGeometry t (ps1 ++ ps2)) height heightOffset flatten
      walls roof base wallSkin makeECEF =
      set_prims (W ++ X) (R1 ++ R2) (B1 ++ B2) F /\
    final_state toECEF (mkGeometry t (ps1 ++ [] :: ps2)) height heightOffset
      flatten walls roof base wallSkin makeECEF =
      set_prims (W ++ DrawElementsUInt_TRIANGLES [] :: X)
        (R1 ++ (if non_null roof then [DrawArrays_LINE_LOOP kr 0] else []) ++ R2)
        (B1 ++ (if non_null base then [DrawArrays_LINE_LOOP kb 0] else []) ++ B2)
        F.
Proof.
  intros Hfit.
  assert (Hconcat : concat (ps1 ++ [] :: ps2) = concat (ps1 ++ ps2))
    by (by rewrite !concat_app).
  assert (Hz : zfinder height (mkGeometry t (ps1 ++ [] :: ps2)) =
               zfinder height (mkGeometry t (ps1 ++ ps2))).
  { rewrite !zfinder_concat. cbn [parts]. by rewrite Hconcat. }
  unfold final_state, getTotalPointCount. rewrite Hz. cbn [parts componentType].
  rewrite Hconcat. apply extrude_parts_empty_part; cbn [baseVertPtr]; [lia |].
  unfold fits_int in Hfit. rewrite concat_app, length_app in Hfit. lia.
Qed.

(** C6 (amended).  A part without points is skipped: the result of
    [extrudeGeometry] for a shape with such a part between the parts [ps1]
    and [ps2] has the flag, the vertices and the texture coordinates of the
    result without it, and the same primitive sets with an empty index set
    (and line loops of zero vertices) inserted; the other parts are processed
    as if it were absent. *)
Theorem C6_empty_part_is_skipped {A : Arith} toECEF t ps1 ps2 height heightOffset flatten
    walls roof base wallColor roofColor wallSkin roofSkin makeECEF :
  fits_int (length (concat (ps1 ++ ps2))) ->
  skipped_part
    (extrudeGeometry toECEF (mkGeometry t (ps1 ++ ps2)) height heightOffset
       flatten walls roof base wallColor roofColor wallSkin roofSkin makeECEF)
    (extrudeGeometry toECEF (mkGeometry t (ps1 ++ [] :: ps2)) height heightOffset
       flatten walls roof base wallColor roofColor wallSkin roofSkin makeECEF).
Proof.
  intros Hfit.
  destruct (final_state_empty_part toECEF t ps1 ps2 height heightOffset flatten
              walls roof base wallSkin makeECEF Hfit)
    as (F & W & X & R1 & R2 & B1 & B2 & kr & kb & Hr & Hr').
  assert (Hcount : getTotalPointCount (mkGeometry t (ps1 ++ [] :: ps2)) =
                   getTotalPointCount (mkGeometry t (ps1 ++ ps2))).
  { unfold getTotalPointCount. cbn [parts]. by rewrite !concat_app. }
  rewrite !extrudeGeometry_final. cbv zeta. rewrite Hr, Hr', Hcount.
  unfold skipped_part.
  cbn [made walls_out roof_out base_out vertexArray texCoordArray primitiveSets
       set_prims verts texcoords roofVerts baseVerts made_geom wallPrims
       roofPrims basePrims].
  repeat split.
  - by destruct roof.
  - by destruct base.
  - by exists W, X.
  - intros g g' Hg Hg'. destruct roof as [g0 |]; [| done].
    cbn in Hg, Hg'. injection Hg as <-. injection Hg' as <-.
    by exists kr, R1, R2.
  - intros g g' Hg Hg'. destruct base as [g0 |]; [| done].
    cbn in Hg, Hg'. injection Hg as <-. injection Hg' as <-.
    by exists kb, B1, B2.
Qed.

Lemma C6_empty_part_witness :
  fits_int (length (concat ([triangle] ++ [triangle]))) /\
  skipped_part
    (extrudeGeometry (fun v => v) (mkGeometry TYPE_POLYGON [triangle; triangle])
       1 0 false new_Geometry (Some new_Geometry) None vec4_zero vec4_zero
       None None false)
    (extrudeGeometry (fun v => v)
       (mkGeometry TYPE_POLYGON [triangle; []; triangle])
       1 0 false new_Geometry (Some new_Geometry) None vec4_zero vec4_zero
       None None false).
Proof.
  split; [done |].
  apply (C6_empty_part_is_skipped (fun v => v) TYPE_POLYGON [triangle] [triangle]).
  done.
Defined.

(** C6 as stated fails for a part of one point: it is not skipped.  The
    polygon of the single point (1, 2, 3) gets two wall vertices, two
    (degenerate) closing triangles and a roof vertex, and the flag is set. *)
Lemma C6_one_point_part_is_not_skipped :
  let extrude ps :=
    extrudeGeometry (fun v => v) (mkGeometry TYPE_POLYGON ps) 1 0 false
      new_Geometry (Some new_Geometry) None vec4_zero vec4_zero None None false in
  (length [mkVec3 1 2 3] < 2)%nat /\
  ~ skipped_part (extrude []) (extrude [[mkVec3 1 2 3]]) /\
  made (extrude [[mkVec3 1 2 3]]) = true /\
  length <$> vertexArray (walls_out (extrude [[mkVec3 1 2 3]])) = Some 2%nat /\
  primitiveSets (walls_out (extrude [[mkVec3 1 2 3]])) =
    [DrawElementsUInt_TRIANGLES [0; 1; 0; 1; 1; 0]] /\
  primitiveSets <$> roof_out (extrude [[mkVec3 1 2 3]]) =
    Some [DrawArrays_LINE_LOOP 0 1].
Proof.
  intros extrude. split; [cbn; lia |]. split.
  - intros (Hmade & _). vm_compute in Hmade. discriminate.
  - repeat split; vm_compute; reflexivity.
Qed.

(** * Further properties of the code *)

(** ** The rotation angle *)

Section RotationRange.

Local Open Scope R_scope.

(** The scan keeps its start value as long as no edge is longer than 0. *)
Lemma scan_no_edge (segs : list Segment) : forall acc : Segment * R,
  (forall s, s ∈ segs -> seg_len2 s <= snd acc) ->
  fold_left scan_step segs acc = acc.
Proof.
  induction segs as [| s segs IH]; intros acc Hall; [done |].
  cbn [fold_left]. rewrite scan_step_le by (apply Hall, list_elem_of_here).
  apply IH. intros s' Hs'. by apply Hall, list_elem_of_further.
Qed.

End RotationRange.

(** X2.  When no edge of the shape has a positive length (no edge at all, or
    all points equal), nothing is retained and the angle is 0. *)
Theorem rotation_of_degenerate_shape geom :
  (forall s, s ∈ segments geom -> (seg_len2 s <= 0)%R) ->
  getApparentRotation geom = 0%R.
Proof.
  intros Hall. unfold getApparentRotation, longest_segment.
  rewrite scan_no_edge by done.
  unfold edge_angle. cbn [fst snd vec3d_zero vx vy]. real_ops.
  unfold Ratan2. cbn [vx vy]. decide_reals.
Qed.

Lemma rotation_of_degenerate_shape_witness :
  (forall s, s ∈ segments [mkVec3 1 2 3; mkVec3 1 2 3] -> (seg_len2 s <= 0)%R) /\
  getApparentRotation [mkVec3 1 2 3; mkVec3 1 2 3] = 0%R.
Proof.
  assert (H : forall s, s ∈ segments [mkVec3 1 2 3; mkVec3 1 2 3] ->
                        (seg_len2 s <= 0)%R).
  { intros s Hs. cbn [segments zip zip_with app] in Hs.
    repeat (apply elem_of_cons in Hs as [-> | Hs];
            [unfold seg_len2; real_ops; unfold length2, vsub;
             cbn [fst snd vx vy vz]; lra |]).
    by apply elem_of_nil in Hs. }
  split; [exact H |].
  apply (rotation_of_degenerate_shape [mkVec3 1 2 3; mkVec3 1 2 3]). exact H.
Defined.

Section RotationTranslation.

Local Open Scope R_scope.

Variable d : Vec3 R.

Lemma zip_translate (l k : list (Vec3 R)) :
  zip (translate d <$> l) (translate d <$> k) =
  prod_map (translate d) (translate d) <$> zip l k.
Proof.
  revert k. induction l as [| a l IH]; intros [| b k]; [done .. |].
  cbn [fmap list_fmap zip zip_with]. f_equal. apply IH.
Qed.

Lemma segments_translate (pts : list (Vec3 R)) :
  segments (translate d <$> pts) =
  prod_map (translate d) (translate d) <$> segments pts.
Proof.
  destruct pts as [| p0 [| p1 rest]]; [done | done |].
  change (segments (translate d <$> p0 :: p1 :: rest))
    with (zip (translate d <$> p0 :: p1 :: rest)
              ((translate d <$> p1 :: rest) ++ [translate d p0])).
  change [translate d p0] with (translate d <$> [p0]).
  rewrite <- fmap_app. apply zip_translate.
Qed.

Lemma seg_len2_translate (s : Segment) :
  seg_len2 (prod_map (translate d) (translate d) s) = seg_len2 s.
Proof.
  destruct s as [a b]. unfold seg_len2. real_ops.
  unfold length2, vsub, translate.
  cbn [prod_map fst snd vx vy vz]. ring.
Qed.

Lemma edge_angle_translate (s : Segment) :
  edge_angle (prod_map (translate d) (translate d) s) = edge_angle s.
Proof.
  destruct s as [a b]. unfold edge_angle, translate.
  cbn [prod_map fst snd vx vy vz]. real_ops.
  destruct (Rlt_dec (vx a + vx d) (vx b + vx d)), (Rlt_dec (vx a) (vx b));
    try lra; cbn [vx vy]; f_equal; lra.
Qed.

(** The scans of a shape and of its translate retain edges of the same
    length and of the same angle. *)
Lemma scan_translate (segs : list Segment) : forall acc acc',
  snd acc' = snd acc ->
  edge_angle (fst acc') = edge_angle (fst acc) ->
  snd (fold_left scan_step (prod_map (translate d) (translate d) <$> segs) acc') =
    snd (fold_left scan_step segs acc) /\
  edge_angle (fst (fold_left scan_step
                     (prod_map (translate d) (translate d) <$> segs) acc')) =
    edge_angle (fst (fold_left scan_step segs acc)).
Proof.
  induction segs as [| s segs IH]; intros acc acc' Hm Ha; [done |].
  cbn [fmap list_fmap fold_left]. apply IH.
  - unfold scan_step. rewrite seg_len2_translate, Hm.
    by destruct (dgt (seg_len2 s) (snd acc)).
  - unfold scan_step. rewrite seg_len2_translate, Hm.
    destruct (dgt (seg_len2 s) (snd acc)); [| done].
    apply edge_angle_translate.
Qed.

End RotationTranslation.

(** X3.  Moving a shape does not change its rotation angle. *)
Theorem rotation_of_translated_shape d geom :
  getApparentRotation (translate d <$> geom) = getApparentRotation geom.
Proof.
  unfold getApparentRotation, longest_segment. rewrite segments_translate.
  f_equal. by apply scan_translate.
Qed.

(** ** The returned flag and the vertex arrays *)

Lemma extrude_parts_made {A : Arith} toECEF height targetLen flatten makeECEF
    wallSkin tex_width_m tex_repeats_y roof base isPolygon tex_height_m
    minLoc_z ps :
  forall st,
  made_geom
    (fold_left
       (extrude_part toECEF height targetLen flatten makeECEF wallSkin
          tex_width_m tex_repeats_y roof base isPolygon tex_height_m minLoc_z)
       ps st) =
  match concat ps with [] => made_geom st | _ => true end.
Proof.
  induction ps as [| p ps IH]; intros st; [done |].
  cbn [fold_left concat]. rewrite IH. unfold extrude_part.
  cbn [made_geom]. rewrite emit_points_made. cbn [outer].
  destruct p as [| m p]; [done |]. cbn [app]. by destruct (concat ps).
Qed.

(** X4.  [extrudeGeometry] returns true exactly when the shape has a point,
    in any of its parts. *)
Theorem extrudeGeometry_made_iff_points {A : Arith} toECEF input height
    heightOffset flatten walls roof base wallColor roofColor wallSkin roofSkin
    makeECEF :
  made (extrudeGeometry toECEF input height heightOffset flatten walls roof
          base wallColor roofColor wallSkin roofSkin makeECEF) =
  match concat (parts input) with [] => false | _ => true end.
Proof.
  unfold extrudeGeometry. cbn [made]. by rewrite extrude_parts_made.
Qed.

(** X5.  Without flattening and without geocentric conversion the roof
    follows the terrain: the roof vertex of every point of every part is the
    point raised by [height - heightOffset], converted to [osg::Vec3f], in
    the roof array and at the top of the walls, where it is followed by the
    point itself, converted likewise. *)
Theorem extrudeGeometry_roof_follows_terrain {A : Arith} toECEF input height
    heightOffset walls roof0 base wallColor roofColor wallSkin roofSkin :
  let pts := concat (parts input) in
  let r := extrudeGeometry toECEF input height heightOffset false walls
             (Some roof0) base wallColor roofColor wallSkin roofSkin false in
  let raised p :=
    to_Vec3f (mkVec3 (vx p) (vy p) (dadd (vz p) (dsub height heightOffset))) in
  fits_int (length pts) ->
  vertexArray (walls_out r) =
    Some (flat_map (fun p => [raised p; to_Vec3f p]) pts) /\
  vertexArray <$> roof_out r = Some (Some (raised <$> pts)).
Proof.
  intros pts r raised Hfit. subst r. split.
  - by rewrite extrudeGeometry_wall_verts.
  - by rewrite extrudeGeometry_roof_verts.
Qed.

Lemma extrudeGeometry_roof_follows_terrain_witness :
  fits_int (length (concat (parts two_levels))) /\
  vertexArray <$>
    roof_out (extrudeGeometry (fun v => v) two_levels 5 1 false new_Geometry
                (Some new_Geometry) None vec4_zero vec4_zero None None false) =
  Some (Some [mkVec3 0 0 (0 + (5 - 1)); mkVec3 1 0 (0 + (5 - 1));
              mkVec3 1 1 (0 + (5 - 1)); mkVec3 5 5 (10 + (5 - 1));
              mkVec3 6 5 (10 + (5 - 1)); mkVec3 6 6 (10 + (5 - 1))]).
Proof.
  split; [done |].
  apply (extrudeGeometry_roof_follows_terrain (fun v => v) two_levels 5 1
           new_Geometry new_Geometry None vec4_zero vec4_zero None None).
  done.
Defined.

Lemma fmap_flat_map_pair {B C D} (h : C -> D) (f g : B -> C) (l : list B) :
  h <$> flat_map (fun m => [f m; g m]) l =
  flat_map (fun m => [h (f m); h (g m)]) l.
Proof.
  induction l as [| a l IH]; [done |].
  cbn [flat_map app fmap list_fmap]. by rewrite <- IH.
Qed.

(** X6.  The geocentric conversion is applied to the roof point and the
    base point of every point before they are stored, and to nothing else:
    there are vectors of [double]s whose conversions to [osg::Vec3f] are the
    wall and roof arrays of the extrusion without geocentric conversion, and
    whose images under [toECEF], converted likewise, are the arrays of the
    geocentric extrusion. *)
Theorem extrudeGeometry_geocentric_is_converted {A : Arith} toECEF input height
    heightOffset flatten walls roof0 base wallColor roofColor wallSkin roofSkin :
  let extrude makeECEF :=
    extrudeGeometry toECEF input height heightOffset flatten walls (Some roof0)
      base wallColor roofColor wallSkin roofSkin makeECEF in
  fits_int (length (concat (parts input))) ->
  exists ws rs : list Vec3d,
    vertexArray (walls_out (extrude false)) = Some (to_Vec3f <$> ws) /\
    vertexArray (walls_out (extrude true)) =
      Some (to_Vec3f <$> (toECEF <$> ws)) /\
    vertexArray <$> roof_out (extrude false) = Some (Some (to_Vec3f <$> rs)) /\
    vertexArray <$> roof_out (extrude true) =
      Some (Some (to_Vec3f <$> (toECEF <$> rs))).
Proof.
  intros extrude Hfit. subst extrude. cbv beta.
  rewrite !extrudeGeometry_wall_verts, !extrudeGeometry_roof_verts by done.
  set (rp := roof_point (dsub height heightOffset)
               (target_elevation input height heightOffset) flatten).
  exists (flat_map (fun m => [rp m; m]) (concat (parts input))),
         (rp <$> concat (parts input)).
  rewrite !fmap_flat_map_pair, <- !list_fmap_compose. done.
Qed.

Lemma extrudeGeometry_geocentric_witness :
  fits_int (length (concat [triangle])) /\
  exists ws : list (Vec3 R),
    vertexArray
      (walls_out (extrudeGeometry (translate (mkVec3 10 20 30))
                    (mkGeometry TYPE_POLYGON [triangle]) 2 0 true new_Geometry
                    (Some new_Geometry) None vec4_zero vec4_zero None None
                    false)) = Some (to_Vec3f <$> ws) /\
    vertexArray
      (walls_out (extrudeGeometry (translate (mkVec3 10 20 30))
                    (mkGeometry TYPE_POLYGON [triangle]) 2 0 true new_Geometry
                    (Some new_Geometry) None vec4_zero vec4_zero None None
                    true)) =
      Some (to_Vec3f <$> (translate (mkVec3 10 20 30) <$> ws)).
Proof.
  split; [done |].
  destruct (extrudeGeometry_geocentric_is_converted (translate (mkVec3 10 20 30))
              (mkGeometry TYPE_POLYGON [triangle]) 2 0 true new_Geometry
              new_Geometry None vec4_zero vec4_zero None None)
    as (ws & rs & Hv & Hv' & _); [done |].
  exists ws. split; [exact Hv | exact Hv'].
Defined.

(** ** The primitive sets of a shape of several parts *)

Section PrimitiveSets.

Context {A : Arith}.

Variable toECEF : Vec3d -> Vec3d.
Variables (height targetLen : double) (flatten makeECEF : bool).
Variables (wallSkin : option SkinResource).
Variables (tex_width_m : double) (tex_repeats_y : bool).
Variables (roof base isPolygon : bool).
Variables (tex_height_m minLoc_z : double).

Local Abbreviation ep :=
  (emit_point toECEF height targetLen flatten makeECEF wallSkin tex_width_m
     tex_repeats_y roof base isPolygon).
Local Abbreviation eps :=
  (emit_points toECEF height targetLen flatten makeECEF wallSkin tex_width_m
     tex_repeats_y roof base isPolygon).
Local Abbreviation part_step :=
  (extrude_part toECEF height targetLen flatten makeECEF wallSkin tex_width_m
     tex_repeats_y roof base isPolygon tex_height_m minLoc_z).
Local Abbreviation adj := (tex_height_adj (dsub targetLen minLoc_z) tex_height_m).

Lemma emit_points_wall_cursor w0 a pts : forall s,
  0 <= wallVertPtr (outer s) ->
  wallVertPtr (outer s) + 2 * Z.of_nat (length pts) < 2 ^ 31 ->
  wallVertPtr (outer (eps w0 a pts s)) =
  wallVertPtr (outer s) + 2 * Z.of_nat (length pts).
Proof.
  induction pts as [| m rest IH]; intros s Hw Hfit; [cbn; lia |].
  cbn [emit_points]. cbn [length] in *.
  set (s1 := ep w0 a _ m s).
  assert (H1 : wallVertPtr (outer s1) = wallVertPtr (outer s) + 2).
  { subst s1. cbn [emit_point outer wallVertPtr]. apply wrap32_small.
    clear IH. lia. }
  rewrite IH by (clear IH; lia). lia.
Qed.

Lemma emit_points_roof_cursor w0 a pts : forall s,
  0 <= roofVertPtr (outer s) ->
  roofVertPtr (outer s) + Z.of_nat (length pts) < 2 ^ 31 ->
  roofVertPtr (outer (eps w0 a pts s)) =
  roofVertPtr (outer s) + if roof then Z.of_nat (length pts) else 0.
Proof.
  induction pts as [| m rest IH]; intros s Hr Hfit; [cbn; destruct roof; lia |].
  cbn [emit_points]. cbn [length] in *.
  set (s1 := ep w0 a _ m s).
  assert (H1 : roofVertPtr (outer s1) =
               roofVertPtr (outer s) + if roof then 1 else 0).
  { subst s1. cbn [emit_point outer roofVertPtr]. clear IH.
    destruct roof; [apply wrap32_small |]; lia. }
  rewrite IH by (clear IH; destruct roof; lia). destruct roof; lia.
Qed.

(** Every part adds one index set to the walls. *)
Lemma extrude_parts_wallPrims ps : forall st,
  0 <= wallVertPtr st ->
  wallVertPtr st + 2 * Z.of_nat (length (concat ps)) < 2 ^ 31 ->
  wallPrims (fold_left part_step ps st) =
  wallPrims st ++ wall_sets isPolygon (wallVertPtr st) ps.
Proof.
  induction ps as [| p ps IH]; intros st Hw Hfit.
  - cbn. by rewrite app_nil_r.
  - cbn [fold_left concat wall_sets] in *. rewrite length_app in Hfit.
    assert (Hc : wallVertPtr (part_step st p) =
                 wallVertPtr st + 2 * Z.of_nat (length p)).
    { unfold extrude_part. cbn [wallVertPtr].
      rewrite emit_points_wall_cursor; cbn [outer]; [done | done |].
      clear IH. lia. }
    assert (Hp : wallPrims (part_step st p) =
                 wallPrims st ++
                 [DrawElementsUInt_TRIANGLES
                    (part_indices isPolygon (wallVertPtr st) (wallVertPtr st) p)]).
    { unfold extrude_part. cbn [wallPrims].
      destruct (emit_points_prims toECEF height targetLen flatten makeECEF
                  wallSkin tex_width_m tex_repeats_y roof base isPolygon
                  (wallVertPtr st) adj p (mkPart st d_zero [])) as (-> & _ & _).
      rewrite emit_points_idx; cbn [outer idx app]; [done | clear IH; lia |].
      clear IH. lia. }
    rewrite IH by (clear IH; lia). rewrite Hp, Hc, <- app_assoc. done.
Qed.

(** With a roof, every part adds one line loop over the roof vertices it
    wrote. *)
Lemma extrude_parts_roofPrims ps :
  roof = true ->
  forall st,
  0 <= roofVertPtr st ->
  roofVertPtr st + Z.of_nat (length (concat ps)) < 2 ^ 31 ->
  roofPrims (fold_left part_step ps st) =
  roofPrims st ++ line_loops (roofVertPtr st) ps.
Proof.
  intros Hroof. induction ps as [| p ps IH]; intros st Hr Hfit.
  - cbn. by rewrite app_nil_r.
  - cbn [fold_left concat line_loops] in *. rewrite length_app in Hfit.
    assert (Hc : roofVertPtr (part_step st p) =
                 roofVertPtr st + Z.of_nat (length p)).
    { unfold extrude_part. cbn [roofVertPtr].
      rewrite emit_points_roof_cursor; cbn [outer];
        [by rewrite Hroof | done | clear IH; lia]. }
    assert (Hp : roofPrims (part_step st p) =
                 roofPrims st ++
                 [DrawArrays_LINE_LOOP (roofVertPtr st) (Z.of_nat (length p))]).
    { unfold extrude_part in *. cbn [roofPrims roofVertPtr] in *.
      destruct (emit_points_prims toECEF height targetLen flatten makeECEF
                  wallSkin tex_width_m tex_repeats_y roof base isPolygon
                  (wallVertPtr st) adj p (mkPart st d_zero [])) as (_ & Hrp & _).
      rewrite Hroof at 1. rewrite Hrp, Hc. cbn [outer roofPrims]. clear IH.
      replace (roofVertPtr st + Z.of_nat (length p) - roofVertPtr st)
        with (Z.of_nat (length p)) by lia.
      rewrite (wrap32_small (Z.of_nat (length p))) by lia.
      by rewrite !to_int_small by lia. }
    rewrite IH by (clear IH; lia). rewrite Hp, Hc, <- app_assoc. done.
Qed.

End PrimitiveSets.

Lemma length_part_indices {A : Arith} isPolygon w0 (pts : list Vec3d) : forall w,
  exists k, length (part_indices isPolygon w0 w pts) = (3 * k)%nat.
Proof.
  induction pts as [| m rest IH]; intros w; [by exists 0%nat |].
  destruct rest as [| m' rest].
  - cbn [part_indices]. destruct isPolygon; [by exists 2%nat | by exists 0%nat].
  - destruct (IH (w + 2)) as [k Hk]. exists (2 + k)%nat.
    change (part_indices isPolygon w0 w (m :: m' :: rest))
      with (wall_quad w ++ part_indices isPolygon w0 (w + 2) (m' :: rest)).
    rewrite length_app, Hk. cbn [wall_quad length]. lia.
Qed.

Lemma part_indices_range {A : Arith} isPolygon w0 (pts : list Vec3d) : forall w i,
  w0 <= w ->
  i ∈ part_indices isPolygon w0 w pts ->
  w0 <= i < w + 2 * Z.of_nat (length pts).
Proof.
  induction pts as [| m rest IH]; intros w i Hw Hi.
  - by apply elem_of_nil in Hi.
  - destruct rest as [| m' rest].
    + cbn [part_indices length] in *. destruct isPolygon.
      * unfold wall_closing in Hi.
        repeat (apply elem_of_cons in Hi as [-> | Hi]; [lia |]).
        by apply elem_of_nil in Hi.
      * by apply elem_of_nil in Hi.
    + change (part_indices isPolygon w0 w (m :: m' :: rest))
        with (wall_quad w ++ part_indices isPolygon w0 (w + 2) (m' :: rest)) in Hi.
      apply elem_of_app in Hi as [Hi | Hi].
      * unfold wall_quad in Hi. cbn [length].
        repeat (apply elem_of_cons in Hi as [-> | Hi]; [lia |]).
        by apply elem_of_nil in Hi.
      * apply IH in Hi; [| lia]. cbn [length] in *. lia.
Qed.

Lemma wall_sets_facts {A : Arith} isPolygon (ps : list (list Vec3d)) : forall w,
  0 <= w ->
  length (wall_sets isPolygon w ps) = length ps /\
  forall s, s ∈ wall_sets isPolygon w ps ->
    exists idx k,
      s = DrawElementsUInt_TRIANGLES idx /\ length idx = (3 * k)%nat /\
      forall i, i ∈ idx -> w <= i < w + 2 * Z.of_nat (length (concat ps)).
Proof.
  induction ps as [| p ps IH]; intros w Hw.
  - split; [done |]. intros s Hs. by apply elem_of_nil in Hs.
  - cbn [wall_sets concat length]. rewrite length_app.
    destruct (IH (w + 2 * Z.of_nat (length p))) as [Hlen Hsets]; [lia |].
    split; [by rewrite Hlen |].
    intros s Hs. apply elem_of_cons in Hs as [-> | Hs].
    + destruct (length_part_indices isPolygon w p w) as [k Hk].
      exists (part_indices isPolygon w w p), k. split; [done |]. split; [done |].
      intros i Hi. apply part_indices_range in Hi; lia.
    + destruct (Hsets s Hs) as (idx & k & -> & Hk & Hrange).
      exists idx, k. split; [done |]. split; [done |].
      intros i Hi. apply Hrange in Hi. lia.
Qed.

(** X7.  The walls get one index set per part of the shape; every set is
    made of whole triangles, and every index refers to a vertex of the wall
    array, which has two vertices per point. *)
Theorem extrudeGeometry_wall_indices_in_range {A : Arith} toECEF input height heightOffset
    flatten walls roof base wallColor roofColor wallSkin roofSkin makeECEF :
  let r := extrudeGeometry toECEF input height heightOffset flatten walls roof
             base wallColor roofColor wallSkin roofSkin makeECEF in
  fits_int (length (concat (parts input))) ->
  exists sets,
    primitiveSets (walls_out r) = primitiveSets walls ++ sets /\
    length sets = length (parts input) /\
    forall s, s ∈ sets ->
      exists idx k,
        s = DrawElementsUInt_TRIANGLES idx /\ length idx = (3 * k)%nat /\
        forall i, i ∈ idx -> 0 <= i < 2 * Z.of_nat (length (concat (parts input))).
Proof.
  intros r Hfit. subst r.
  set (isPolygon := match componentType input with
                    | TYPE_POLYGON => true | _ => false end).
  exists (wall_sets isPolygon 0 (parts input)).
  destruct (wall_sets_facts isPolygon (parts input) 0) as [Hlen Hsets]; [done |].
  split; [| split; [exact Hlen | exact Hsets]].
  unfold extrudeGeometry. cbn [walls_out primitiveSets]. fold isPolygon.
  rewrite extrude_parts_wallPrims; cbn [wallVertPtr wallPrims]; [done | done |].
  unfold fits_int in Hfit. lia.
Qed.

Lemma extrudeGeometry_wall_indices_witness :
  fits_int (length (concat (parts two_levels))) /\
  exists sets,
    primitiveSets
      (walls_out (extrudeGeometry (fun v => v) two_levels 5 0 true new_Geometry
                    None None vec4_zero vec4_zero None None false)) = [] ++ sets /\
    length sets = 2%nat.
Proof.
  split; [done |].
  destruct (extrudeGeometry_wall_indices_in_range (fun v => v) two_levels 5 0
              true new_Geometry None None vec4_zero vec4_zero None None false)
    as (sets & Hsets & Hlen & _); [done |].
  exists sets. split; [exact Hsets | exact Hlen].
Defined.

(** X8.  With a roof geometry, the roof gets one line loop per part: the
    loop of a part starts at the roof vertex after the last one of the part
    before (at 0 for the first part) and has one vertex per point of the
    part, so the loops cover the roof array without gap or overlap. *)
Theorem extrudeGeometry_roof_loops {A : Arith} toECEF input height heightOffset flatten
    walls roof0 base wallColor roofColor wallSkin roofSkin makeECEF :
  fits_int (length (concat (parts input))) ->
  primitiveSets <$>
    roof_out (extrudeGeometry toECEF input height heightOffset flatten walls
                (Some roof0) base wallColor roofColor wallSkin roofSkin makeECEF) =
  Some (primitiveSets roof0 ++ line_loops 0 (parts input)).
Proof.
  intros Hfit. unfold extrudeGeometry.
  cbn [roof_out fmap option_fmap option_map primitiveSets non_null from_option].
  f_equal.
  rewrite extrude_parts_roofPrims; cbn [roofVertPtr roofPrims]; [done .. |].
  unfold fits_int in Hfit. lia.
Qed.

Lemma extrudeGeometry_roof_loops_witness :
  fits_int (length (concat (parts two_levels))) /\
  primitiveSets <$>
    roof_out (extrudeGeometry (fun v => v) two_levels 5 0 true new_Geometry
                (Some new_Geometry) None vec4_zero vec4_zero None None false) =
  Some [DrawArrays_LINE_LOOP 0 3; DrawArrays_LINE_LOOP 3 3].
Proof.
  split; [done |].
  apply (extrudeGeometry_roof_loops (fun v => v) two_levels 5 0 true
           new_Geometry new_Geometry None vec4_zero vec4_zero None None false).
  done.
Defined.

(** ** The reversal of the base vertices *)

Lemma length_swap_at {A : Arith} i j a : length (swap_at i j a) = length a.
Proof. unfold swap_at. by rewrite !length_insert. Qed.

Lemma fold_left_swaps_length {A : Arith} (f : nat -> nat) l : forall a,
  length (fold_left (fun a i => swap_at i (f i) a) l a) = length a.
Proof.
  induction l as [| i l IH]; intros a; [done |].
  cbn [fold_left]. by rewrite IH, length_swap_at.
Qed.

(** After the first [k] exchanges of the loop over a block of [n] elements
    at the head of the array, the [k] first and the [k] last elements of the
    block are mirrored and the rest is in place. *)
Lemma swaps_lookup {A : Arith} (a : list Vec3f) (n k : nat) :
  (n <= length a)%nat -> (2 * k <= n)%nat ->
  forall j : nat,
    fold_left (fun a i => swap_at i (n - 1 - i) a) (seq 0 k) a !!! j =
    if decide (j < k \/ (n - k <= j /\ j < n))%nat
    then a !!! (n - 1 - j)%nat else a !!! j.
Proof.
  intros Hn. induction k as [| k IH]; intros Hk j.
  - cbn [seq fold_left]. case_decide; [lia | done].
  - rewrite seq_S, fold_left_app. cbn [fold_left Nat.add].
    set (ak := fold_left (fun a i => swap_at i (n - 1 - i) a) (seq 0 k) a) in *.
    assert (Hlen : length ak = length a) by apply fold_left_swaps_length.
    assert (IH' := IH ltac:(lia)). clear IH.
    unfold swap_at. rewrite !list_lookup_total_insert, !length_insert, Hlen.
    rewrite (IH' k), (IH' (n - 1 - k)%nat), (IH' j).
    repeat case_decide; try lia; f_equal; lia.
Qed.

(** The complete loop mirrors the block. *)
Lemma swaps_reverse {A : Arith} (a1 rest : list Vec3f) :
  fold_left (fun a i => swap_at i (length a1 - 1 - i) a)
            (seq 0 (length a1 / 2)) (a1 ++ rest) =
  reverse a1 ++ rest.
Proof.
  set (n := length a1).
  assert (Hhalf : (2 * (n / 2) <= n)%nat).
  { pose proof (Nat.div_mod_eq n 2). lia. }
  assert (Hodd : (n < 2 * (n / 2) + 2)%nat).
  { pose proof (Nat.div_mod_eq n 2). pose proof (Nat.mod_upper_bound n 2). lia. }
  apply (list_eq_same_length _ _ (length (a1 ++ rest))).
  - rewrite !length_app, length_reverse. done.
  - apply fold_left_swaps_length.
  - intros i x y Hi Hx Hy. apply list_lookup_total_correct in Hx.
    rewrite swaps_lookup in Hx by (rewrite ?length_app; fold n; lia).
    rewrite length_app in Hi. fold n in Hi.
    destruct (decide (i < n)%nat) as [Hin | Hout].
    + rewrite lookup_app_l in Hy by (rewrite length_reverse; done).
      rewrite reverse_lookup in Hy by done. fold n in Hy.
      apply list_lookup_total_correct in Hy.
      rewrite <- Hx, <- Hy. case_decide.
      * rewrite lookup_total_app_l by (fold n; lia). f_equal. lia.
      * rewrite lookup_total_app_l by (fold n; lia). f_equal. lia.
    + rewrite <- Hx. case_decide; [lia |].
      rewrite lookup_app_r in Hy by (rewrite length_reverse; fold n; lia).
      rewrite length_reverse in Hy.
      rewrite lookup_total_app_r by (fold n; lia).
      by apply list_lookup_total_correct.
Qed.

Lemma fold_left_fmap {B C D} (f : B -> D -> B) (g : C -> D) (l : list C) :
  forall a, fold_left f (g <$> l) a = fold_left (fun a x => f a (g x)) l a.
Proof. induction l as [| x l IH]; intros a; [done |]. apply IH. Qed.

Lemma fold_left_ext_in {B C} (f g : B -> C -> B) (l : list C) :
  (forall a x, x ∈ l -> f a x = g a x) ->
  forall a, fold_left f l a = fold_left g l a.
Proof.
  induction l as [| x l IH]; intros Hfg a; [done |].
  cbn [fold_left]. rewrite Hfg by apply list_elem_of_here.
  apply IH. intros a' x' Hx'. by apply Hfg, list_elem_of_further.
Qed.

(** The reversal loop of the part written first, at the head of the array. *)
Lemma reverse_base_first {A : Arith} (a1 rest : list Vec3f) :
  Z.of_nat (length a1) < 2 ^ 31 ->
  reverse_base 0 (Z.of_nat (length a1)) (a1 ++ rest) = reverse a1 ++ rest.
Proof.
  intros Hn. unfold reverse_base. rewrite Z.sub_0_r.
  rewrite (wrap32_small (Z.of_nat (length a1))) by lia.
  rewrite (to_int_small (Z.of_nat (length a1))) by lia.
  change (to_int 0) with 0. rewrite Z.sub_0_r, Z.quot_div_nonneg by lia.
  replace (Z.of_nat (length a1) / 2) with (Z.of_nat (length a1 / 2))
    by (by rewrite Nat2Z.inj_div).
  unfold seqZ.
  rewrite Nat2Z.id, fold_left_fmap, <- swaps_reverse.
  apply fold_left_ext_in. intros a i Hi.
  apply list_elem_of_In, in_seq in Hi.
  assert (Hhalf : (2 * (length a1 / 2) <= length a1)%nat).
  { pose proof (Nat.div_mod_eq (length a1) 2). lia. }
  unfold index_of. f_equal; [lia |].
  rewrite wrap32_small by lia. lia.
Qed.

(** The reversal loop of a part that starts at [b] and is short for it. *)
Lemma reverse_base_later {A : Arith} b n (a : list Vec3f) :
  0 <= b -> b + Z.of_nat n < 2 ^ 31 -> Z.of_nat n / 2 <= b ->
  reverse_base b (b + Z.of_nat n) a = a.
Proof.
  intros Hb Hfit Hshort. unfold reverse_base.
  replace (b + Z.of_nat n - b) with (Z.of_nat n) by lia.
  rewrite (wrap32_small (Z.of_nat n)) by lia.
  rewrite (to_int_small (Z.of_nat n)), (to_int_small b) by lia.
  rewrite Z.quot_div_nonneg by lia. by rewrite seqZ_nil by lia.
Qed.

Section BaseVertices.

Context {A : Arith}.

Variable toECEF : Vec3d -> Vec3d.
Variables (height targetLen : double) (flatten makeECEF : bool).
Variables (wallSkin : option SkinResource).
Variables (tex_width_m : double) (tex_repeats_y : bool).
Variables (roof isPolygon : bool).
Variables (tex_height_m minLoc_z : double).

Local Abbreviation part_step :=
  (extrude_part toECEF height targetLen flatten makeECEF wallSkin tex_width_m
     tex_repeats_y roof true isPolygon tex_height_m minLoc_z).
Local Abbreviation bv := (base_vertex toECEF makeECEF).
Local Abbreviation adj := (tex_height_adj (dsub targetLen minLoc_z) tex_height_m).

(** The base vertices of one part, as the loop over its points leaves them
    and before the reversal. *)
Lemma extrude_part_baseVerts st p bpre bmid bpost :
  0 <= baseVertPtr st ->
  baseVertPtr st + Z.of_nat (length p) < 2 ^ 31 ->
  baseVerts st = Some (bpre ++ bmid ++ bpost) ->
  length bpre = Z.to_nat (baseVertPtr st) ->
  length bmid = length p ->
  baseVertPtr (part_step st p) = baseVertPtr st + Z.of_nat (length p) /\
  baseVerts (part_step st p) =
    Some (reverse_base (baseVertPtr st) (baseVertPtr st + Z.of_nat (length p))
            (bpre ++ (bv <$> p) ++ bpost)).
Proof.
  intros Hb Hfit Hv Hpre Hmid.
  destruct (emit_points_baseVerts toECEF height targetLen flatten makeECEF
              wallSkin tex_width_m tex_repeats_y roof true isPolygon
              (wallVertPtr st) adj p eq_refl (mkPart st d_zero []) bpre bmid bpost)
    as [Hc Hvs]; cbn [outer]; [done .. |].
  unfold extrude_part. cbn [baseVertPtr baseVerts].
  split; [exact Hc |]. by rewrite Hvs, Hc.
Qed.

(** The parts that are short for the reversal loop keep the order of their
    points. *)
Lemma extrude_parts_baseVerts_in_order ps : forall st bpre bmid bpost,
  0 <= baseVertPtr st ->
  baseVertPtr st + Z.of_nat (length (concat ps)) < 2 ^ 31 ->
  baseVerts st = Some (bpre ++ bmid ++ bpost) ->
  length bpre = Z.to_nat (baseVertPtr st) ->
  length bmid = length (concat ps) ->
  parts_out_of_reversal (baseVertPtr st) ps ->
  baseVerts (fold_left part_step ps st) =
    Some (bpre ++ (bv <$> concat ps) ++ bpost).
Proof.
  induction ps as [| p ps IH];
    intros st bpre bmid bpost Hb Hfit Hv Hpre Hmid Hshort.
  - destruct bmid; [| done]. done.
  - cbn [fold_left concat parts_out_of_reversal] in *.
    rewrite length_app in Hfit, Hmid. destruct Hshort as [Hp Hps].
    destruct (split_at (length p) bmid (length (concat ps)))
      as (Hsplit & Hl1 & Hl2); [clear IH; lia |].
    set (b1 := take (length p) bmid) in *.
    set (b2 := drop (length p) bmid) in *.
    destruct (extrude_part_baseVerts st p bpre b1 (b2 ++ bpost))
      as [Hc Hvs]; [done | clear IH; lia
                   | by rewrite Hv, Hsplit, <- app_assoc | done | done |].
    rewrite reverse_base_later in Hvs by (clear IH; lia).
    set (st1 := part_step st p) in *.
    assert (Hvs' : baseVerts st1 = Some ((bpre ++ (bv <$> p)) ++ b2 ++ bpost))
      by (by rewrite Hvs, <- app_assoc).
    assert (Hpre1 : length (bpre ++ (bv <$> p)) = Z.to_nat (baseVertPtr st1))
      by (clear IH; rewrite length_app, length_fmap; lia).
    assert (H0 : 0 <= baseVertPtr st1) by (clear IH; lia).
    assert (Hfit1 : baseVertPtr st1 + Z.of_nat (length (concat ps)) < 2 ^ 31)
      by (clear IH; lia).
    assert (Hps1 : parts_out_of_reversal (baseVertPtr st1) ps)
      by (by rewrite Hc).
    rewrite (IH st1 _ _ _ H0 Hfit1 Hvs' Hpre1 Hl2 Hps1).
    by rewrite fmap_app, <- !app_assoc.
Qed.

End BaseVertices.

(** X9.  With a base geometry, the base vertices of the first part are the
    points of that part at their own elevation, converted to [osg::Vec3f],
    in reverse order; the vertices of every later part that is short for the
    reversal loop (half its length does not exceed the number of base
    vertices before it) follow in the order of the input. *)
Theorem extrudeGeometry_base_verts {A : Arith} toECEF t p1 rest height heightOffset flatten
    walls roof base0 wallColor roofColor wallSkin roofSkin makeECEF :
  fits_int (length (concat (p1 :: rest))) ->
  parts_out_of_reversal (Z.of_nat (length p1)) rest ->
  vertexArray <$>
    base_out (extrudeGeometry toECEF (mkGeometry t (p1 :: rest)) height
                heightOffset flatten walls roof (Some base0) wallColor roofColor
                wallSkin roofSkin makeECEF) =
  Some (Some (reverse (base_vertex toECEF makeECEF <$> p1) ++
              (base_vertex toECEF makeECEF <$> concat rest))).
Proof.
  intros Hfit Hshort. destruct (fits_int_counts _ Hfit) as (Hc1 & Hc2 & Hc3).
  unfold fits_int in Hfit. cbn [concat] in Hfit. rewrite length_app in Hfit.
  unfold extrudeGeometry, getTotalPointCount.
  cbn [base_out fmap option_fmap option_map vertexArray non_null parts
       fold_left].
  rewrite Hc3. cbn [concat]. rewrite length_app. do 2 f_equal.
  match goal with
  | |- baseVerts (fold_left ?f rest (extrude_part ?a1 ?a2 ?a3 ?a4 ?a5 ?a6 ?a7 ?a8
                                       ?a9 _ ?a11 ?a12 ?a13 ?st p1)) = _ =>
      destruct (extrude_part_baseVerts a1 a2 a3 a4 a5 a6 a7 a8 a9 a11 a12 a13
                  st p1 [] (replicate (length p1) vec3_zero)
                  (replicate (length (concat rest)) vec3_zero))
        as [Hc Hv]; cbn [baseVertPtr baseVerts];
        [done | lia | by rewrite replicate_add | done | apply length_replicate |];
      cbn [baseVertPtr app] in Hc, Hv;
      rewrite Z.add_0_l in Hv;
      pose proof (reverse_base_first (base_vertex toECEF makeECEF <$> p1)
                    (replicate (length (concat rest)) vec3_zero)) as Hr;
      rewrite length_fmap in Hr; rewrite Hr in Hv by lia; clear Hr;
      rewrite (extrude_parts_baseVerts_in_order a1 a2 a3 a4 a5 a6 a7 a8 a9 a11
                 a12 a13 rest _ (reverse (base_vertex toECEF makeECEF <$> p1))
                 (replicate (length (concat rest)) vec3_zero) [])
  end.
  - by rewrite app_nil_r.
  - lia.
  - rewrite Hc. lia.
  - by rewrite Hv, app_nil_r.
  - rewrite length_reverse, length_fmap, Hc. lia.
  - apply length_replicate.
  - by rewrite Hc.
Qed.

Lemma extrudeGeometry_base_verts_witness :
  vertexArray <$>
    base_out (extrudeGeometry (fun v => v) two_levels 1 0 false new_Geometry
                None (Some new_Geometry) vec4_zero vec4_zero None None false) =
  Some (Some (reverse (base_vertex (fun v => v) false <$> triangle) ++
              (base_vertex (fun v => v) false <$>
                 [mkVec3 5 5 10; mkVec3 6 5 10; mkVec3 6 6 10]))).
Proof.
  apply (extrudeGeometry_base_verts (fun v => v) TYPE_POLYGON triangle
           [[mkVec3 5 5 10; mkVec3 6 5 10; mkVec3 6 6 10]] 1 0 false
           new_Geometry None new_Geometry vec4_zero vec4_zero None None false).
  - unfold fits_int. cbn. lia.
  - vm_compute. split; [by intros ? | done].
Defined.

(** ** Styles and batches *)

Section FilterFacts.

Context {A : Arith}.

Variables Feature ResourceLibrary Matrix FilterContext : Type.
Variable has_sheet : FilterContext -> bool.
Variable getStyle : FilterContext -> string -> option Style.
Variable getResourceLibrary : FilterContext -> string -> option ResourceLibrary.
Variable isGeocentric : FilterContext -> bool.
Variable transformToECEF : FilterContext -> Vec3d -> Vec3d.
Variable postMult : Vec3d -> Matrix -> Vec3d.
Variable feature_parts : Feature -> list Geometry.
Variable open_polygon : Geometry -> Geometry.
Variable eval_number : Feature -> string -> double.
Variable eval_string : Feature -> string -> string.
Variable getSkins : ResourceLibrary -> SkinSymbol -> list SkinResource.
Variable rand_values : nat -> Z.
Variable getStateSet : FilterContext -> SkinResource -> option positive.
Variable smooth_walls : double -> OsgGeometry -> OsgGeometry.
Variable smooth_roof tessellate : OsgGeometry -> OsgGeometry.
Variable consolidate : Geode -> Geode.
Variable computeLocalizers : FilterContext -> Matrix * Matrix.
Variable createDelocalizeGroup : Matrix * Matrix -> Node Matrix.
Variable merge_geometry : Node Matrix -> Node Matrix.

Local Abbreviation reset' :=
  (reset Feature ResourceLibrary Matrix FilterContext has_sheet getStyle).
Local Abbreviation push' :=
  (push Feature ResourceLibrary Matrix FilterContext has_sheet getStyle
     getResourceLibrary isGeocentric transformToECEF postMult feature_parts
     open_polygon eval_number eval_string getSkins rand_values getStateSet
     smooth_walls smooth_roof tessellate consolidate computeLocalizers
     createDelocalizeGroup merge_geometry).
Local Abbreviation choose_skin' :=
  (choose_skin ResourceLibrary getSkins rand_values).
Local Abbreviation process_part' :=
  (process_part Feature ResourceLibrary Matrix FilterContext isGeocentric
     transformToECEF postMult open_polygon eval_number eval_string getSkins
     rand_values getStateSet smooth_walls smooth_roof tessellate).
Local Abbreviation process' :=
  (process Feature ResourceLibrary Matrix FilterContext isGeocentric
     transformToECEF postMult feature_parts open_polygon eval_number
     eval_string getSkins rand_values getStateSet smooth_walls smooth_roof
     tessellate).

(** X11.  A style is resolved once: after a [reset], a further [reset] - in
    whatever context - changes nothing, until [setStyle] is called. *)
Theorem reset_twice (f : Filter Feature ResourceLibrary Matrix FilterContext)
    (cx1 cx2 : FilterContext) :
  reset' (reset' f cx1) cx2 = reset' f cx1.
Proof. unfold reset. by destruct (_styleDirty f). Qed.

(** X12.  The offset expression of a style whose heights refer to mean sea
    level outlives that style: [reset] sets [_heightOffsetExpr] and never
    unsets it, so the filter still works with [__max_z] after any other
    style was set. *)
Theorem msl_offset_outlives_its_style
    (f : Filter Feature ResourceLibrary Matrix FilterContext) (s1 s2 : Style)
    (e1 : ExtrusionSymbol) (cx1 cx2 : FilterContext) :
  style_extrusion s1 = Some e1 ->
  heightReferenceMSL e1 = true ->
  _heightOffsetExpr
    (reset' (setStyle (reset' (setStyle f s1) cx1) s2) cx2) =
  Some "[__max_z]"%string.
Proof.
  intros Hs1 Hmsl. unfold reset, setStyle.
  cbn [_styleDirty _style _heightOffsetExpr]. rewrite Hs1, Hmsl.
  destruct (style_extrusion s2) as [e2 |]; [| done].
  by destruct (heightReferenceMSL e2).
Qed.

(** X14.  The skin lookup returns one of the candidates of the library
    whenever there is one, and draws at most one random number: the index
    [::rand() % candidates.size()] is within the candidates. *)
Theorem choose_skin_picks_a_candidate (l : ResourceLibrary) (q : SkinSymbol)
    (calls : nat) :
  (forall n, 0 <= rand_values n) ->
  match (choose_skin' (Some l) (Some q) calls).1 with
  | Some s => s ∈ getSkins l q
  | None => getSkins l q = []
  end /\
  (calls <= (choose_skin' (Some l) (Some q) calls).2 <= S calls)%nat.
Proof.
  intros Hrand. unfold choose_skin.
  destruct (getSkins l q) as [| c1 [| c2 cs]] eqn:Hc.
  - cbn. split; [done | lia].
  - cbn [fst snd]. split; [apply list_elem_of_here | lia].
  - cbn [fst snd]. split; [| lia].
    set (cands := c1 :: c2 :: cs).
    assert (Hlen : 0 < Z.of_nat (length cands)) by (cbn [cands length]; lia).
    pose proof (Z.mod_pos_bound (rand_values calls) _ Hlen) as Hmod.
    destruct (lookup_lt_is_Some_2 cands
                (Z.to_nat (rand_values calls `mod` Z.of_nat (length cands))))
      as [s Hs]; [lia |].
    rewrite Hs. by eapply list_elem_of_lookup_2.
Qed.

(** Adding a drawable keeps the geodes sorted. *)
Lemma add_drawable_sorted key d geodes :
  sorted_by_state_set geodes -> sorted_by_state_set (add_drawable key d geodes).
Proof.
  intros Hinv k g. unfold add_drawable.
  destruct (decide (k = key)) as [-> | Hne].
  - rewrite lookup_insert_eq. intros [= <-]. cbn [stateSet drawables].
    split; [| by destruct (drawables _)].
    destruct (geodes !! key) as [g0 |] eqn:Hg0; [| done].
    by destruct (Hinv key g0 Hg0).
  - rewrite lookup_insert_ne by done. apply Hinv.
Qed.

Lemma add_drawable_roofs key d geodes :
  (d_dynamic d = true -> key = None) ->
  roofs_without_state_set geodes ->
  roofs_without_state_set (add_drawable key d geodes).
Proof.
  intros Hd Hinv k g d'. unfold add_drawable.
  destruct (decide (k = key)) as [-> | Hne].
  - rewrite lookup_insert_eq. intros [= <-]. cbn [drawables].
    intros Hin Hdyn. apply elem_of_app in Hin as [Hin | Hin].
    + destruct (geodes !! key) as [g0 |] eqn:Hg0.
      * by apply (Hinv key g0 d').
      * by apply elem_of_nil in Hin.
    + apply list_elem_of_singleton in Hin as ->. by apply Hd.
  - rewrite lookup_insert_ne by done. apply Hinv.
Qed.

(** One part adds a wall to the geode of its state set and, for a polygon,
    a roof to the geode without a state set; both keep the two orders. *)
Lemma process_part_geodes (P : GeodeMap -> Prop) f cx input acc part0 :
  (forall key d g, (d_dynamic d = true -> key = None) ->
                   (_wallResLib f = None -> key = None) ->
                   P g -> P (add_drawable key d g)) ->
  P acc.1 -> P (process_part' f cx input acc part0).1.
Proof.
  intros Hadd Hacc. destruct acc as [geodes calls]. unfold process_part.
  destruct (choose_skin' (_wallResLib f) _ calls) as [wallSkin calls1] eqn:Hwall.
  assert (Hkey : _wallResLib f = None -> wallSkin = None).
  { intros Hlib. rewrite Hlib in Hwall. unfold choose_skin in Hwall.
    destruct (_wallSkinSymbol f); cbn in Hwall; by injection Hwall as <- _. }
  repeat match goal with
         | |- context [let '(_, _) := ?x in _] => destruct x
         end.
  match goal with |- context [made ?r] => destruct (made r); [| done] end.
  cbn [fst].
  assert (Hset : _wallResLib f = None -> wallSkin ≫= getStateSet cx = None)
    by (by intros ->%Hkey).
  match goal with
  | |- context [roof_out ?r] => destruct (roof_out r)
  end.
  - apply Hadd; [done | done |]. apply Hadd; [done | done | done].
  - apply Hadd; [done | done | done].
Qed.

Lemma process_geodes (P : GeodeMap -> Prop) f cx features calls :
  (forall key d g, (d_dynamic d = true -> key = None) ->
                   (_wallResLib f = None -> key = None) ->
                   P g -> P (add_drawable key d g)) ->
  P (_geodes f) -> P (process' f cx features calls).1.
Proof.
  intros Hadd Hf. unfold process.
  assert (Hparts : forall input ps acc,
            P acc.1 ->
            P (fold_left (process_part' f cx input) ps acc).1).
  { intros input ps. induction ps as [| p ps IH]; intros acc Hacc; [done |].
    cbn [fold_left]. apply IH. by apply process_part_geodes. }
  assert (Hf' : P (_geodes f, calls).1) by done.
  revert Hf'. generalize (_geodes f, calls).
  induction features as [| input features IH]; intros acc Hacc; [done |].
  cbn [fold_left]. apply IH. by apply Hparts.
Qed.

(** X15.  [process] keeps the geodes sorted by state set: every geode it
    leaves under a key has that state set and at least one drawable. *)
Theorem process_sorts_by_state_set f cx features calls :
  sorted_by_state_set (_geodes f) ->
  sorted_by_state_set (process' f cx features calls).1.
Proof.
  apply (process_geodes sorted_by_state_set).
  intros key d g _ _. apply add_drawable_sorted.
Qed.

(** X16.  [process] puts roofs only into the geode without a state set:
    no geode of a wall skin holds a drawable marked [DYNAMIC]. *)
Theorem process_keeps_roofs_apart f cx features calls :
  roofs_without_state_set (_geodes f) ->
  roofs_without_state_set (process' f cx features calls).1.
Proof.
  apply (process_geodes roofs_without_state_set).
  intros key d g Hd _. by apply add_drawable_roofs.
Qed.

(** Without a style sheet no resource library is looked up. *)
Lemma load_library_without_sheet cx sym what :
  has_sheet cx = false ->
  load_library ResourceLibrary FilterContext has_sheet getResourceLibrary
    cx sym what = (None, []).
Proof.
  intros Hsheet. unfold load_library.
  destruct (sym ≫= libraryName); [| done]. by rewrite Hsheet.
Qed.

(** A map whose only key can be [None] has at most one entry. *)
Lemma geodes_without_state_set (geodes : GeodeMap) :
  (forall k g, geodes !! k = Some g -> k = None) ->
  (length (map_to_list geodes).*2 <= 1)%nat.
Proof.
  intros Hkeys. destruct (geodes !! None) as [g0 |] eqn:H0.
  - assert (Heq : geodes = {[None := g0]}).
    { apply map_eq. intros k. destruct (decide (k = None)) as [-> | Hne].
      - by rewrite lookup_singleton_eq.
      - rewrite lookup_singleton_ne by done.
        destruct (geodes !! k) as [g |] eqn:Hk; [| done].
        by apply Hkeys in Hk. }
    rewrite Heq, map_to_list_singleton. cbn. lia.
  - assert (Heq : geodes = ∅).
    { apply map_empty. intros k.
      destruct (geodes !! k) as [g |] eqn:Hk; [| done].
      apply Hkeys in Hk as Hnone. congruence. }
    rewrite Heq, map_to_list_empty. cbn. lia.
Qed.

(** X18.  In a session without a style sheet nothing is textured: when the
    geometry is not merged, [push] adds at most one geode to the node of
    the delocalizer, and that geode has no state set. *)
Theorem push_without_sheet f0 e input cx calls :
  has_sheet cx = false ->
  _mergeGeometry f0 = false ->
  configured_extrusion f0 = Some e ->
  exists gs,
    node (push' f0 input cx calls) =
      mkNode (transform (createDelocalizeGroup (computeLocalizers cx)))
             (children (createDelocalizeGroup (computeLocalizers cx)) ++ gs) /\
    (length gs <= 1)%nat /\
    forall g, g ∈ gs -> stateSet g = None.
Proof.
  intros Hsheet Hmerge Hext.
  pose proof (reset_extrusionSymbol Feature ResourceLibrary Matrix FilterContext
                has_sheet getStyle f0 cx) as He.
  pose proof (reset_mergeGeometry Feature ResourceLibrary Matrix FilterContext
                has_sheet getStyle f0 cx) as Hm.
  pose proof (reset_geodes Feature ResourceLibrary Matrix FilterContext
                has_sheet getStyle f0 cx) as Hg.
  rewrite Hext in He. rewrite Hmerge in Hm.
  unfold push. set (f := reset' f0 cx) in *. rewrite He. cbn [non_null negb].
  rewrite !load_library_without_sheet by done.
  set (f1 := push_members _ _ _ _ f None None (computeLocalizers cx) (_geodes f)).
  pose proof (process_geodes
                (fun geodes => sorted_by_state_set geodes /\
                               forall k g, geodes !! k = Some g -> k = None)
                f1 cx input calls) as Hinv.
  destruct (process' f1 cx input calls) as [geodes calls1].
  assert (Hloc : (_world2local f1, _local2world f1) = computeLocalizers cx)
    by (cbn; by destruct (computeLocalizers cx)).
  rewrite Hloc.
  replace (_mergeGeometry f1) with false by (by rewrite <- Hm).
  cbn [andb node fst] in *.
  destruct Hinv as [Hsorted Hkeys].
  - intros key d g _ Hkey [Hs Hk]. split; [by apply add_drawable_sorted |].
    intros k g' Hl. unfold add_drawable in Hl.
    destruct (decide (k = key)) as [-> | Hne]; [by apply Hkey |].
    rewrite lookup_insert_ne in Hl by done. by apply (Hk k g').
  - change (_geodes f1) with (_geodes f). rewrite Hg.
    split; intros k g Hl; by rewrite lookup_empty in Hl.
  - exists (map_to_list geodes).*2. split; [done |].
    split; [by apply geodes_without_state_set |].
    intros g Hin. apply list_elem_of_fmap in Hin as ([k g'] & -> & Hin).
    apply elem_of_map_to_list in Hin. cbn [snd].
    destruct (Hsorted k g' Hin) as [-> _]. by apply (Hkeys k g').
Qed.

End FilterFacts.

Lemma msl_offset_outlives_its_style_witness :
  _heightOffsetExpr
    (reset (list Geometry) unit unit unit (fun _ => false) (fun _ _ => None)
       (setStyle
          (reset (list Geometry) unit unit unit (fun _ => false)
             (fun _ _ => None)
             (setStyle (filter_with_style (mkStyle None None None))
                (mkStyle (Some (mkExtrusionSymbol None 10 true None None false))
                         None None))
             tt)
          (mkStyle (Some (mkExtrusionSymbol None 10 false None None false))
                   None None))
       tt) =
  Some "[__max_z]"%string.
Proof.
  apply (msl_offset_outlives_its_style (list Geometry) unit unit unit
           (fun _ => false) (fun _ _ => None)
           (filter_with_style (mkStyle None None None))
           (mkStyle (Some (mkExtrusionSymbol None 10 true None None false))
                    None None)
           (mkStyle (Some (mkExtrusionSymbol None 10 false None None false))
                    None None)
           (mkExtrusionSymbol None 10 true None None false) tt tt);
    reflexivity.
Defined.

Lemma choose_skin_picks_a_candidate_witness :
  match (choose_skin unit (fun _ _ => [brick; tiled_brick])
           (fun n => Z.of_nat n) (Some tt) (Some (mkSkinSymbol None None))
           3%nat).1 with
  | Some s => s ∈ [brick; tiled_brick]
  | None => [brick; tiled_brick] = []
  end /\
  (3 <= (choose_skin unit (fun _ _ => [brick; tiled_brick])
           (fun n => Z.of_nat n) (Some tt) (Some (mkSkinSymbol None None))
           3%nat).2 <= 4)%nat.
Proof.
  apply (choose_skin_picks_a_candidate unit (fun _ _ => [brick; tiled_brick])
           (fun n => Z.of_nat n) tt (mkSkinSymbol None None) 3%nat).
  intros n. lia.
Defined.

Lemma process_sorts_by_state_set_witness :
  sorted_by_state_set
    (process (list Geometry) unit unit unit (fun _ => false) (fun _ v => v)
       (fun v _ => v) (fun ps => ps) (fun g => g) (fun _ _ => 1%R)
       (fun _ _ => ""%string) (fun _ _ => []) (fun _ => 0) (fun _ _ => None)
       (fun _ g => g) (fun g => g) (fun g => g)
       (filter_with_style
          (mkStyle (Some (mkExtrusionSymbol None 10 false None None false))
                   None None))
       tt [[mkGeometry TYPE_POLYGON [triangle]]] 0%nat).1.
Proof.
  apply process_sorts_by_state_set.
  intros k g Hg. cbn in Hg. by rewrite lookup_empty in Hg.
Defined.

Lemma process_keeps_roofs_apart_witness :
  roofs_without_state_set
    (process (list Geometry) unit unit unit (fun _ => false) (fun _ v => v)
       (fun v _ => v) (fun ps => ps) (fun g => g) (fun _ _ => 1%R)
       (fun _ _ => ""%string) (fun _ _ => []) (fun _ => 0) (fun _ _ => None)
       (fun _ g => g) (fun g => g) (fun g => g)
       (filter_with_style
          (mkStyle (Some (mkExtrusionSymbol None 10 false None None false))
                   None None))
       tt [[mkGeometry TYPE_POLYGON [triangle]]] 0%nat).1.
Proof.
  apply process_keeps_roofs_apart.
  intros k g d Hg. cbn in Hg. by rewrite lookup_empty in Hg.
Defined.

(** ** The U texture coordinates of the walls *)

Lemma length_arc_from {A : Arith} (rs : list Vec3f) : forall prev acc,
  length (arc_from prev acc rs) = length rs.
Proof.
  induction rs as [| r rs IH]; intros prev acc; [done |].
  cbn [arc_from length]. by rewrite IH.
Qed.

Lemma length_arc_lengths {A : Arith} (rs : list Vec3f) :
  length (arc_lengths rs) = length rs.
Proof. destruct rs; [done |]. cbn [arc_lengths length]. by rewrite length_arc_from. Qed.

Section TextureU.

Context {A : Arith}.

Variable toECEF : Vec3d -> Vec3d.
Variables (height targetLen : double) (flatten makeECEF : bool).
Variables (wallSkin : option SkinResource).
Variables (tex_width_m : double) (tex_repeats_y : bool).
Variables (roof base isPolygon : bool).
Variables (tex_height_m minLoc_z : double).

Local Abbreviation ep :=
  (emit_point toECEF height targetLen flatten makeECEF wallSkin tex_width_m
     tex_repeats_y roof base isPolygon).
Local Abbreviation eps :=
  (emit_points toECEF height targetLen flatten makeECEF wallSkin tex_width_m
     tex_repeats_y roof base isPolygon).
Local Abbreviation part_step :=
  (extrude_part toECEF height targetLen flatten makeECEF wallSkin tex_width_m
     tex_repeats_y roof base isPolygon tex_height_m minLoc_z).
Local Abbreviation rv := (roof_vertex toECEF height targetLen flatten makeECEF).
Local Abbreviation bv := (base_vertex toECEF makeECEF).
Local Abbreviation adj := (tex_height_adj (dsub targetLen minLoc_z) tex_height_m).
Local Abbreviation u_pair :=
  (fun u : double => [d2f (ddiv u tex_width_m); d2f (ddiv u tex_width_m)]).

(** One point: [partLen] grows by the distance from the roof vertex of the
    point before, and is written to both texture coordinates. *)
Lemma emit_point_u w0 adj0 at_end m s vpre a b vpost tpre ta tb tpost prev :
  non_null wallSkin = true ->
  0 <= wallVertPtr (outer s) ->
  wallVertPtr (outer s) + 2 < 2 ^ 31 ->
  verts (outer s) = vpre ++ a :: b :: vpost ->
  length vpre = Z.to_nat (wallVertPtr (outer s)) ->
  texcoords (outer s) = Some (tpre ++ ta :: tb :: tpost) ->
  length tpre = Z.to_nat (wallVertPtr (outer s)) ->
  (w0 < wallVertPtr (outer s) ->
   vpre !! Z.to_nat (wallVertPtr (outer s) - 2) = Some prev) ->
  let u := dadd (partLen s)
             (if wallVertPtr (outer s) >? w0
              then f2d (v3f_length (v3f_sub (rv m) prev)) else d_zero) in
  partLen (ep w0 adj0 at_end m s) = u /\
  exists v,
    texcoords (outer (ep w0 adj0 at_end m s)) =
    Some (tpre ++ mkVec2 (d2f (ddiv u tex_width_m)) f_zero ::
                  mkVec2 (d2f (ddiv u tex_width_m)) v :: tpost).
Proof.
  intros Hskin Hw Hfit Hv Hpre Ht Htpre Hprev u.
  cbn [emit_point outer texcoords partLen]. rewrite Hskin, Ht, Hv.
  rewrite to_int_small by lia. cbn [fmap option_fmap option_map].
  rewrite (insert_pair_at_length vpre vpost a b (rv m) (bv m))
    by (unfold index_of; lia).
  rewrite (list_lookup_total_middle vpre (bv m :: vpost) (rv m))
    by (unfold index_of; lia).
  assert (Hu : dadd (partLen s)
                (if wallVertPtr (outer s) >? w0
                 then f2d (v3f_length
                             (v3f_sub (rv m)
                                ((vpre ++ rv m :: bv m :: vpost) !!!
                                   index_of (wallVertPtr (outer s) - 2))))
                 else d_zero) = u).
  { subst u. f_equal. destruct (wallVertPtr (outer s) >? w0) eqn:Hgt; [| done].
    rewrite (list_lookup_total_correct _ _ prev); [done |].
    apply lookup_app_l_Some. apply Hprev. lia. }
  rewrite Hu. split; [done |].
  eexists. f_equal. apply insert_pair_at_length; unfold index_of; lia.
Qed.

(** The points of a part after its first: the U coordinates continue the
    running length. *)
Lemma emit_points_u w0 adj0 pts :
  non_null wallSkin = true ->
  forall s vpre vmid vpost tpre tmid tpost prev,
  0 <= wallVertPtr (outer s) ->
  w0 < wallVertPtr (outer s) ->
  wallVertPtr (outer s) + 2 * Z.of_nat (length pts) < 2 ^ 31 ->
  verts (outer s) = vpre ++ vmid ++ vpost ->
  length vpre = Z.to_nat (wallVertPtr (outer s)) ->
  length vmid = (2 * length pts)%nat ->
  texcoords (outer s) = Some (tpre ++ tmid ++ tpost) ->
  length tpre = Z.to_nat (wallVertPtr (outer s)) ->
  length tmid = (2 * length pts)%nat ->
  vpre !! Z.to_nat (wallVertPtr (outer s) - 2) = Some prev ->
  exists tnew,
    texcoords (outer (eps w0 adj0 pts s)) = Some (tpre ++ tnew ++ tpost) /\
    tu <$> tnew = flat_map u_pair (arc_from prev (partLen s) (rv <$> pts)).
Proof.
  intros Hskin.
  induction pts as [| m rest IH];
    intros s vpre vmid vpost tpre tmid tpost prev
           Hw Hgt Hfit Hv Hpre Hmid Ht Htpre Htmid Hprev.
  - destruct tmid; [| done]. exists []. done.
  - destruct vmid as [| a [| b vmid]]; [done | cbn in Hmid; lia |].
    destruct tmid as [| ta [| tb tmid]]; [done | cbn in Htmid; lia |].
    cbn [emit_points]. cbn [length] in Hfit, Hmid, Htmid.
    set (at_end := match rest with [] => true | _ => false end).
    destruct (emit_point_verts toECEF height targetLen flatten makeECEF
                wallSkin tex_width_m tex_repeats_y roof base isPolygon
                w0 adj0 at_end m s vpre a b (vmid ++ vpost))
      as [Hw1 Hv1]; [done | clear IH; lia | done | done |].
    destruct (emit_point_u w0 adj0 at_end m s vpre a b (vmid ++ vpost)
                tpre ta tb (tmid ++ tpost) prev)
      as [Hu (v & Ht1)];
      [done | done | clear IH; lia | done | done | done | done | done |].
    replace (wallVertPtr (outer s) >? w0) with true in Hu, Ht1
      by (symmetry; apply Z.gtb_lt; clear IH; lia).
    set (s1 := ep w0 adj0 at_end m s) in *.
    set (u := dadd (partLen s) (f2d (v3f_length (v3f_sub (rv m) prev)))) in *.
    set (t0 := mkVec2 (d2f (ddiv u tex_width_m)) f_zero) in *.
    set (t1 := mkVec2 (d2f (ddiv u tex_width_m)) v) in *.
    assert (Hv1' : verts (outer s1) = (vpre ++ [rv m; bv m]) ++ vmid ++ vpost)
      by (by rewrite Hv1, <- app_assoc).
    assert (Ht1' : texcoords (outer s1) = Some ((tpre ++ [t0; t1]) ++ tmid ++ tpost))
      by (by rewrite Ht1, <- app_assoc).
    assert (Hpre1 : length (vpre ++ [rv m; bv m]) = Z.to_nat (wallVertPtr (outer s1)))
      by (clear IH; rewrite length_app; cbn [length]; lia).
    assert (Htpre1 : length (tpre ++ [t0; t1]) = Z.to_nat (wallVertPtr (outer s1)))
      by (clear IH; rewrite length_app; cbn [length]; lia).
    assert (Hprev1 : (vpre ++ [rv m; bv m]) !!
                       Z.to_nat (wallVertPtr (outer s1) - 2) = Some (rv m)).
    { apply (list_lookup_middle vpre [bv m] (rv m)). clear IH. lia. }
    assert (H0 : 0 <= wallVertPtr (outer s1)) by (clear IH; lia).
    assert (Hgt1 : w0 < wallVertPtr (outer s1)) by (clear IH; lia).
    assert (Hfit1 : wallVertPtr (outer s1) + 2 * Z.of_nat (length rest) < 2 ^ 31)
      by (clear IH; lia).
    assert (Hmid1 : length vmid = (2 * length rest)%nat) by (clear IH; lia).
    assert (Htmid1 : length tmid = (2 * length rest)%nat) by (clear IH; lia).
    destruct (IH s1 _ _ _ _ _ _ (rv m) H0 Hgt1 Hfit1 Hv1' Hpre1 Hmid1 Ht1'
                Htpre1 Htmid1 Hprev1) as (tnew & Hnew & Hus).
    exists (t0 :: t1 :: tnew). split.
    + by rewrite Hnew, <- app_assoc.
    + cbn [fmap list_fmap arc_from flat_map app tu t0 t1].
      change (list_fmap _ _ tu tnew) with (tu <$> tnew).
      change (list_fmap _ _ rv rest) with (rv <$> rest).
      by rewrite Hus, Hu.
Qed.

(** A whole part: the U coordinates are the lengths along its roof
    vertices, from 0 at its first point. *)
Lemma emit_part_u adj0 p :
  non_null wallSkin = true ->
  forall st vpre vmid vpost tpre tmid tpost,
  0 <= wallVertPtr st ->
  wallVertPtr st + 2 * Z.of_nat (length p) < 2 ^ 31 ->
  verts st = vpre ++ vmid ++ vpost ->
  length vpre = Z.to_nat (wallVertPtr st) ->
  length vmid = (2 * length p)%nat ->
  texcoords st = Some (tpre ++ tmid ++ tpost) ->
  length tpre = Z.to_nat (wallVertPtr st) ->
  length tmid = (2 * length p)%nat ->
  exists tnew,
    texcoords (outer (eps (wallVertPtr st) adj0 p (mkPart st d_zero []))) =
      Some (tpre ++ tnew ++ tpost) /\
    tu <$> tnew = flat_map u_pair (arc_lengths (rv <$> p)).
Proof.
  intros Hskin st vpre vmid vpost tpre tmid tpost
         Hw Hfit Hv Hpre Hmid Ht Htpre Htmid.
  destruct p as [| m rest].
  - destruct tmid; [| done]. exists []. done.
  - destruct vmid as [| a [| b vmid]]; [done | cbn in Hmid; lia |].
    destruct tmid as [| ta [| tb tmid]]; [done | cbn in Htmid; lia |].
    cbn [emit_points]. cbn [length] in Hfit, Hmid, Htmid.
    set (at_end := match rest with [] => true | _ => false end).
    set (s := mkPart st d_zero []).
    destruct (emit_point_verts toECEF height targetLen flatten makeECEF
                wallSkin tex_width_m tex_repeats_y roof base isPolygon
                (wallVertPtr st) adj0 at_end m s vpre a b (vmid ++ vpost))
      as [Hw1 Hv1]; cbn [s outer]; [done | lia | done | done |].
    destruct (emit_point_u (wallVertPtr st) adj0 at_end m s vpre a b
                (vmid ++ vpost) tpre ta tb (tmid ++ tpost) vec3_zero)
      as [Hu (v & Ht1)]; cbn [s outer];
      [done | done | lia | done | done | done | done | lia |].
    cbn [s outer partLen] in Hu, Ht1.
    replace (wallVertPtr st >? wallVertPtr st) with false in Hu, Ht1
      by (symmetry; rewrite Z.gtb_ltb; apply Z.ltb_irrefl).
    set (s1 := ep (wallVertPtr st) adj0 at_end m s) in *.
    set (t0 := mkVec2 (d2f (ddiv (dadd d_zero d_zero) tex_width_m)) f_zero) in *.
    set (t1 := mkVec2 (d2f (ddiv (dadd d_zero d_zero) tex_width_m)) v) in *.
    cbn [s outer] in Hw1.
    destruct (emit_points_u (wallVertPtr st) adj0 rest Hskin s1
                (vpre ++ [rv m; bv m]) vmid vpost
                (tpre ++ [t0; t1]) tmid tpost (rv m))
      as (tnew & Hnew & Hus).
    + lia.
    + lia.
    + lia.
    + by rewrite Hv1, <- app_assoc.
    + rewrite length_app. cbn [length]. lia.
    + lia.
    + by rewrite Ht1, <- app_assoc.
    + rewrite length_app. cbn [length]. lia.
    + lia.
    + apply (list_lookup_middle vpre [bv m] (rv m)). lia.
    + exists (t0 :: t1 :: tnew). split.
      * by rewrite Hnew, <- app_assoc.
      * cbn [fmap list_fmap arc_lengths flat_map app tu t0 t1].
        change (list_fmap _ _ tu tnew) with (tu <$> tnew).
        change (list_fmap _ _ rv rest) with (rv <$> rest).
        by rewrite Hus, Hu.
Qed.

(** The U texture coordinates of the whole shape. *)
Lemma extrude_parts_u ps :
  non_null wallSkin = true ->
  forall st vpre vmid vpost tpre tmid tpost,
  0 <= wallVertPtr st ->
  wallVertPtr st + 2 * Z.of_nat (length (concat ps)) < 2 ^ 31 ->
  verts st = vpre ++ vmid ++ vpost ->
  length vpre = Z.to_nat (wallVertPtr st) ->
  length vmid = (2 * length (concat ps))%nat ->
  texcoords st = Some (tpre ++ tmid ++ tpost) ->
  length tpre = Z.to_nat (wallVertPtr st) ->
  length tmid = (2 * length (concat ps))%nat ->
  exists tnew,
    texcoords (fold_left part_step ps st) = Some (tpre ++ tnew ++ tpost) /\
    tu <$> tnew =
      flat_map u_pair (concat ((fun p => arc_lengths (rv <$> p)) <$> ps)).
Proof.
  intros Hskin.
  induction ps as [| p ps IH];
    intros st vpre vmid vpost tpre tmid tpost Hw Hfit Hv Hpre Hmid Ht Htpre Htmid.
  - destruct tmid; [| done]. exists []. done.
  - cbn [fold_left concat fmap list_fmap] in *.
    rewrite length_app in Hfit, Hmid, Htmid.
    destruct (split_at (2 * length p) vmid (2 * length (concat ps)))
      as (Hsplit & Hl1 & Hl2); [clear IH; lia |].
    destruct (split_at (2 * length p) tmid (2 * length (concat ps)))
      as (Htsplit & Htl1 & Htl2); [clear IH; lia |].
    set (v1 := take (2 * length p) vmid) in *.
    set (v2 := drop (2 * length p) vmid) in *.
    set (t1 := take (2 * length p) tmid) in *.
    set (t2 := drop (2 * length p) tmid) in *.
    destruct (emit_points_verts toECEF height targetLen flatten makeECEF
                wallSkin tex_width_m tex_repeats_y roof base isPolygon
                (wallVertPtr st) adj p (mkPart st d_zero []) vpre v1 (v2 ++ vpost))
      as [Hw1 Hv1]; cbn [outer];
      [done | clear IH; lia | by rewrite Hv, Hsplit, <- app_assoc | done | done |].
    destruct (emit_part_u adj p Hskin st vpre v1 (v2 ++ vpost)
                tpre t1 (t2 ++ tpost))
      as (tp & Htp & Htpu);
      [done | clear IH; lia | by rewrite Hv, Hsplit, <- app_assoc | done | done
      | by rewrite Ht, Htsplit, <- app_assoc | done | done |].
    set (st1 := part_step st p).
    assert (Hw1' : wallVertPtr st1 = wallVertPtr st + 2 * Z.of_nat (length p))
      by exact Hw1.
    assert (Hv1' : verts st1 =
              (vpre ++ flat_map (fun m => [rv m; bv m]) p) ++ v2 ++ vpost)
      by (rewrite <- app_assoc; exact Hv1).
    assert (Ht1' : texcoords st1 = Some ((tpre ++ tp) ++ t2 ++ tpost))
      by (rewrite <- app_assoc; exact Htp).
    assert (Hltp : length tp = (2 * length p)%nat).
    { rewrite <- (length_fmap tu), Htpu.
      rewrite (length_flat_map_pair (fun u => d2f (ddiv u tex_width_m))
                 (fun u => d2f (ddiv u tex_width_m))).
      by rewrite length_arc_lengths, length_fmap. }
    assert (Hpre1 : length (vpre ++ flat_map (fun m => [rv m; bv m]) p) =
                    Z.to_nat (wallVertPtr st1))
      by (clear IH; rewrite length_app, length_flat_map_pair; lia).
    assert (Htpre1 : length (tpre ++ tp) = Z.to_nat (wallVertPtr st1))
      by (clear IH; rewrite length_app; lia).
    assert (H0 : 0 <= wallVertPtr st1) by (clear IH; lia).
    assert (Hfit1 : wallVertPtr st1 + 2 * Z.of_nat (length (concat ps)) < 2 ^ 31)
      by (clear IH; lia).
    destruct (IH st1 _ _ _ _ _ _ H0 Hfit1 Hv1' Hpre1 Hl2 Ht1' Htpre1 Htl2)
      as (tnew & Hts & Htu). clear IH.
    exists (tp ++ tnew). split.
    + rewrite Hts, <- !app_assoc. done.
    + rewrite fmap_app, flat_map_app, Htpu, Htu. done.
Qed.

End TextureU.

(** X17.  With a wall skin, the U texture coordinate of the two wall
    vertices of a point is the running length [partLen] of the wall at that
    point divided by the width of the skin image and narrowed to [float];
    the running length starts at [0.0 + 0.0] at the first point of each part
    and grows by the [float] distance between the stored roof vertices of
    consecutive points. *)
Theorem extrudeGeometry_wall_texture_u {A : Arith} toECEF input height heightOffset flatten
    walls roof base wallColor roofColor sk roofSkin makeECEF :
  fits_int (length (concat (parts input))) ->
  exists tcs,
    texCoordArray (walls_out (extrudeGeometry toECEF input height heightOffset
                                flatten walls roof base wallColor roofColor
                                (Some sk) roofSkin makeECEF)) = Some tcs /\
    tu <$> tcs =
    flat_map (fun u => [d2f (ddiv u (imageWidth sk));
                        d2f (ddiv u (imageWidth sk))])
      (concat
         ((fun p =>
             arc_lengths
               (roof_vertex toECEF (dsub height heightOffset)
                  (target_elevation input height heightOffset) flatten
                  makeECEF <$> p)) <$> parts input)).
Proof.
  intros Hfit. destruct (fits_int_counts _ Hfit) as (Hc1 & Hc2 & Hc3).
  unfold extrudeGeometry, getTotalPointCount.
  cbn [walls_out texCoordArray non_null from_option].
  rewrite Hc2.
  match goal with
  | |- exists tcs, texcoords (fold_left ?f ?ps ?st) = _ /\ _ =>
      destruct (extrude_parts_u toECEF (dsub height heightOffset)
                  (target_elevation input height heightOffset) flatten makeECEF
                  (Some sk) (imageWidth sk) (isTiled sk)
                  (non_null roof) (non_null base)
                  (match componentType input with TYPE_POLYGON => true | _ => false end)
                  (imageHeight sk)
                  (vz (b_minLoc (zfinder height input)))
                  ps eq_refl st
                  [] (replicate (2 * length (concat (parts input))) vec3_zero) []
                  [] (replicate (2 * length (concat (parts input))) vec2_zero) [])
        as (tnew & Ht & Htu)
  end; cbn [wallVertPtr verts texcoords].
  - lia.
  - unfold fits_int in Hfit. lia.
  - by rewrite app_nil_r.
  - done.
  - apply length_replicate.
  - by rewrite app_nil_r.
  - done.
  - apply length_replicate.
  - exists tnew. split; [| exact Htu].
    rewrite app_nil_r in Ht. exact Ht.
Qed.

Lemma extrudeGeometry_wall_texture_u_witness :
  exists tcs,
    texCoordArray
      (walls_out (extrudeGeometry (fun v => v) two_levels 5 0 true new_Geometry
                    None None vec4_zero vec4_zero (Some brick) None false)) =
    Some tcs /\
    tu <$> tcs =
    flat_map (fun u => [d2f (ddiv u (imageWidth brick));
                        d2f (ddiv u (imageWidth brick))])
      (concat
         ((fun p =>
             arc_lengths
               (roof_vertex (fun v => v) (dsub 5 0)
                  (target_elevation two_levels 5 0)
                  true false <$> p)) <$> parts two_levels)).
Proof.
  apply (extrudeGeometry_wall_texture_u (fun v => v) two_levels 5 0 true
           new_Geometry None None vec4_zero vec4_zero brick None false).
  unfold fits_int. cbn. lia.
Defined.

Lemma push_without_sheet_witness :
  exists gs,
    node (plain_push
            (unmerged_filter
               (mkStyle (Some (mkExtrusionSymbol None 10 false None None false))
                        None None))
            [[mkGeometry TYPE_POLYGON [triangle]]]) =
      mkNode None ([] ++ gs) /\
    (length gs <= 1)%nat /\
    forall g, g ∈ gs -> stateSet g = None.
Proof.
  unfold plain_push.
  apply (push_without_sheet (list Geometry) unit unit unit
           (fun _ => false) (fun _ _ => None) (fun _ _ => None) (fun _ => false)
           (fun _ v => v) (fun v _ => v) (fun parts => parts) (fun g => g)
           (fun _ _ => 1%R) (fun _ _ => ""%string) (fun _ _ => []) (fun _ => 0)
           (fun _ _ => None) (fun _ g => g) (fun g => g) (fun g => g)
           (fun g => g) (fun _ => (tt, tt)) (fun _ => mkNode None [])
           (fun n => n)
           (unmerged_filter
              (mkStyle (Some (mkExtrusionSymbol None 10 false None None false))
                       None None))
           (mkExtrusionSymbol None 10 false None None false)
           [[mkGeometry TYPE_POLYGON [triangle]]] tt 0%nat); reflexivity.
Defined.
